(** * bibip car service: the flat-file storage engine of [bibip_car_service.py]

    A shallow embedding of [CarService] and the proofs of its specified
    properties.

    Modelling conventions.
    - Text is a list of characters.  A character is a code point 0..255
      stored on one byte (a single-byte encoding such as Latin-1; UTF-8
      agrees with it on the 7-bit characters), so [os.path.getsize] is
      the length of the list and [f.seek(n)] skips [n] characters.
    - The six files of the service always exist ([__init__] creates them);
      the file system is a record of six texts.
    - Files are opened in text mode: reading translates [\r\n] and [\r]
      to [\n] (universal newlines), writing is verbatim.
    - A method is a function from the file system to an outcome (a value
      or a raised exception) and the file system it leaves behind: an
      exception does not undo the writes made before it.
    - [models.py] is not part of the sources.  Entities are records of the
      texts that the f-strings render ([str(x)], [isoformat()], [.value]);
      [Car.model_validate] is the identity on the dictionary it is given. *)

From Stdlib Require Import Ascii String.
From Stdlib Require Import List ZArith Lia Bool Arith Sorted Permutation.
Import ListNotations.

Local Open Scope char_scope.
Local Open Scope list_scope.

(** ** Python's [str] and [list] primitives used by the service *)

Module Py.

Definition text := list ascii.

(** A string literal as text. *)
Definition txt (s : string) : text := list_ascii_of_string s.

Fixpoint text_eqb (a b : text) : bool :=
  match a, b with
  | [], [] => true
  | x :: a', y :: b' => Ascii.eqb x y && text_eqb a' b'
  | _, _ => false
  end.

(** [a <= b] on [str]: lexicographic on code points. *)
Fixpoint text_leb (a b : text) : bool :=
  match a, b with
  | [], _ => true
  | _ :: _, [] => false
  | x :: a', y :: b' =>
      if Ascii.ltb x y then true
      else if Ascii.eqb x y then text_leb a' b'
      else false
  end.

(** [c.isspace()] on the code points 0..255: tab, line feed, vertical
    tab, form feed, carriage return, the four separators 0x1c..0x1f, the
    space, next line (0x85) and the no-break space (0xa0). *)
Definition is_space (c : ascii) : bool :=
  let n := nat_of_ascii c in
  (((9 <=? n) && (n <=? 13)) || ((28 <=? n) && (n <=? 32))
   || (n =? 133) || (n =? 160))%nat.

Fixpoint lstrip (s : text) : text :=
  match s with
  | [] => []
  | c :: t => if is_space c then lstrip t else s
  end.

Fixpoint rstrip (s : text) : text :=
  match s with
  | [] => []
  | c :: t =>
      match rstrip t with
      | [] => if is_space c then [] else [c]
      | r => c :: r
      end
  end.

Definition strip (s : text) : text := rstrip (lstrip s).

(** [s.ljust(width)]: pads with spaces on the right; a string that is
    already [width] long or longer is returned as it is. *)
Definition ljust (s : text) (width : nat) : text :=
  s ++ repeat " " (width - length s).

(** [sep in s] for a one-character [sep]. *)
Definition contains (sep : ascii) (s : text) : bool :=
  existsb (Ascii.eqb sep) s.

(** [s.partition(sep)] when [sep] occurs: the text before and after its
    first occurrence. *)
Fixpoint partition_at (sep : ascii) (s : text) : option (text * text) :=
  match s with
  | [] => None
  | c :: t =>
      if Ascii.eqb c sep then Some ([], t)
      else match partition_at sep t with
           | Some (a, b) => Some (c :: a, b)
           | None => None
           end
  end.

(** [s.split(sep, maxsplit)]. *)
Fixpoint split (sep : ascii) (maxsplit : nat) (s : text) : list text :=
  match maxsplit with
  | 0 => [s]
  | S n =>
      match partition_at sep s with
      | None => [s]
      | Some (a, b) => a :: split sep n b
      end
  end.

(** [sep.join(fields)]. *)
Fixpoint join (sep : ascii) (fields : list text) : text :=
  match fields with
  | [] => []
  | [f] => f
  | f :: rest => f ++ sep :: join sep rest
  end.

(** Universal newlines, applied to what a text-mode file reads. *)
Fixpoint universal_newlines (s : text) : text :=
  match s with
  | [] => []
  | c :: t =>
      if Ascii.eqb c "013" then
        "010" :: match t with
                 | c' :: t' =>
                     if Ascii.eqb c' "010" then universal_newlines t'
                     else universal_newlines t
                 | [] => []
                 end
      else c :: universal_newlines t
  end.

(** [f.readlines()] on the translated text: every line keeps its [\n];
    the last one may lack it. *)
Fixpoint readlines (s : text) : list text :=
  match s with
  | [] => []
  | c :: t =>
      if Ascii.eqb c "010" then [c] :: readlines t
      else match readlines t with
           | [] => [[c]]
           | l :: ls => (c :: l) :: ls
           end
  end.

(** [str(n)] for an [int]. *)
Definition digit_char (d : Z) : ascii := ascii_of_nat (48 + Z.to_nat d).

Fixpoint dec_digits (fuel : nat) (n : Z) : text :=
  match fuel with
  | 0 => []
  | S f =>
      if (n <? 10)%Z then [digit_char n]
      else dec_digits f (n / 10)%Z ++ [digit_char (n mod 10)%Z]
  end.

Definition str_of_nonneg (n : Z) : text :=
  dec_digits (S (Z.to_nat (Z.log2 n))) n.

Definition str_of_int (n : Z) : text :=
  if (n <? 0)%Z then "-" :: str_of_nonneg (- n)%Z else str_of_nonneg n.

(** [int(s)]: the whitespace around the number is dropped (tab, line
    feed, vertical tab, form feed, carriage return, space, next line and
    no-break space, but not the separators 0x1c..0x1f that [strip] drops),
    a sign may lead, and the digits may be grouped by single underscores;
    [None] is [ValueError].  Integers are unbounded, as in the language;
    the interpreter's configurable guard on conversions of more than 4300
    digits is outside the model. *)
Definition is_c_space (c : ascii) : bool :=
  let n := nat_of_ascii c in
  (((9 <=? n) && (n <=? 13)) || (n =? 32) || (n =? 133) || (n =? 160))%nat.

Fixpoint skip_c_spaces (s : text) : text :=
  match s with
  | [] => []
  | c :: t => if is_c_space c then skip_c_spaces t else s
  end.

Definition c_strip (s : text) : text :=
  rev (skip_c_spaces (rev (skip_c_spaces s))).

Definition is_digit (c : ascii) : bool :=
  let n := nat_of_ascii c in ((48 <=? n) && (n <=? 57))%nat.

Definition digit_val (c : ascii) : Z := Z.of_nat (nat_of_ascii c - 48).

Fixpoint digits_acc (acc : Z) (after_digit : bool) (s : text) : option Z :=
  match s with
  | [] => if after_digit then Some acc else None
  | c :: t =>
      if is_digit c then digits_acc (10 * acc + digit_val c)%Z true t
      else if Ascii.eqb c "_" then
        if after_digit then digits_acc acc false t else None
      else None
  end.

Definition int_of_str (s : text) : option Z :=
  match c_strip s with
  | [] => None
  | c :: t =>
      if Ascii.eqb c "-" then option_map Z.opp (digits_acc 0 false t)
      else if Ascii.eqb c "+" then digits_acc 0 false t
      else digits_acc 0 false (c :: t)
  end.

(** [sorted(l, key=...)] and [l.sort(key=...)]: a stable sort.  [le x y]
    compares the keys; an element goes before the first element that
    does not precede it, so equal keys keep their order. *)
Section Sorting.
Context {A : Type} (le : A -> A -> bool).

Fixpoint insert_sorted (x : A) (l : list A) : list A :=
  match l with
  | [] => [x]
  | y :: t => if le x y then x :: l else y :: insert_sorted x t
  end.

Fixpoint sorted (l : list A) : list A :=
  match l with
  | [] => []
  | x :: t => insert_sorted x (sorted t)
  end.
End Sorting.

(** [l[i] = x] for [i] in range. *)
Fixpoint list_set {A : Type} (i : nat) (x : A) (l : list A) : list A :=
  match l, i with
  | [], _ => []
  | _ :: t, 0 => x :: t
  | y :: t, S j => y :: list_set j x t
  end.

(** [range(n)]. *)
Definition range (n : nat) : list Z := map Z.of_nat (seq 0 n).

(** A [dict] with text keys, in insertion order. *)
Fixpoint dict_get {V : Type} (k : text) (d : list (text * V)) : option V :=
  match d with
  | [] => None
  | (k', v) :: t => if text_eqb k' k then Some v else dict_get k t
  end.

Fixpoint dict_set {V : Type} (k : text) (v : V) (d : list (text * V))
  : list (text * V) :=
  match d with
  | [] => [(k, v)]
  | (k', v') :: t =>
      if text_eqb k' k then (k', v) :: t else (k', v') :: dict_set k v t
  end.

End Py.

Import Py.

(** ** The entities of [models.py] *)

(** Modelled from the spec: [models.py] is missing from the sources.  The
    spec gives a Model the fields id, name and brand; each field holds the
    text that [f"{...}"] renders for it. *)
Module Model.
Record t := mk { id : text; name : text; brand : text }.
End Model.

(** Modelled from the spec: a Car has a vin, a model id, a price, a start
    date and a status; [price] holds [str(car.price)], [date_start] holds
    [car.date_start.isoformat()] and [status] holds [car.status.value]. *)
Module Car.
Record t := mk {
  vin : text; model : text; price : text; date_start : text; status : text
}.
End Car.

(** Modelled from the spec: a Sale has a sales number, the vin of its car,
    a cost and a date; the deleted flag exists in the stored record only. *)
Module Sale.
Record t := mk {
  sales_number : text; car_vin : text; cost : text; sales_date : text
}.
End Sale.

(** The read-model that [top_models_by_sales] builds, with the fields that
    the source passes to its constructor. *)
Module ModelSaleStats.
Record t := mk { car_model_name : text; brand : text; sales_number : nat }.
End ModelSaleStats.

(** Modelled from the spec: the values of the [CarStatus] enumeration of
    [models.py] that the service names. *)
Module CarStatus.
Definition available : text := txt "available".
Definition sold : text := txt "sold".
End CarStatus.

(** ** The file system and the monad of the methods *)

Inductive path :=
| models_file | models_index_file
| cars_file | cars_index_file
| sales_file | sales_index_file.

Record FS := mkFS {
  fs_models : text; fs_models_index : text;
  fs_cars : text; fs_cars_index : text;
  fs_sales : text; fs_sales_index : text
}.

Definition getf (p : path) (fs : FS) : text :=
  match p with
  | models_file => fs_models fs
  | models_index_file => fs_models_index fs
  | cars_file => fs_cars fs
  | cars_index_file => fs_cars_index fs
  | sales_file => fs_sales fs
  | sales_index_file => fs_sales_index fs
  end.

Definition setf (p : path) (v : text) (fs : FS) : FS :=
  match p with
  | models_file =>
      mkFS v (fs_models_index fs) (fs_cars fs) (fs_cars_index fs)
           (fs_sales fs) (fs_sales_index fs)
  | models_index_file =>
      mkFS (fs_models fs) v (fs_cars fs) (fs_cars_index fs)
           (fs_sales fs) (fs_sales_index fs)
  | cars_file =>
      mkFS (fs_models fs) (fs_models_index fs) v (fs_cars_index fs)
           (fs_sales fs) (fs_sales_index fs)
  | cars_index_file =>
      mkFS (fs_models fs) (fs_models_index fs) (fs_cars fs) v
           (fs_sales fs) (fs_sales_index fs)
  | sales_file =>
      mkFS (fs_models fs) (fs_models_index fs) (fs_cars fs) (fs_cars_index fs)
           v (fs_sales_index fs)
  | sales_index_file =>
      mkFS (fs_models fs) (fs_models_index fs) (fs_cars fs) (fs_cars_index fs)
           (fs_sales fs) v
  end.

(** The state [_init_files] leaves in a new directory: six empty files. *)
Definition empty_fs : FS := mkFS [] [] [] [] [] [].

(** The exceptions the methods raise. *)
Inductive exn :=
| CarNotFound (vin : text)            (* ValueError(f"Car {vin} not found") *)
| SaleNotFound (sales_number : text)  (* ValueError(f"Sale {n} not found") *)
| InvalidSaleFormat                   (* ValueError("Invalid sale format") *)
| SaleAlreadyDeleted (sales_number : text)
                                      (* ValueError(f"Sale {n} already deleted") *)
| IntValueError (s : text)            (* int(pos_str) *)
| UnpackValueError                    (* key, pos_str = ... *)
| NegativeSeek (position : Z)         (* f.seek of a negative offset *)
| IndexError.                         (* fields[i] out of range *)

Inductive outcome (A : Type) :=
| Return (a : A)
| Raise (e : exn).
Arguments Return {A} a.
Arguments Raise {A} e.

Definition M (A : Type) : Type := FS -> outcome A * FS.

Definition ret {A} (a : A) : M A := fun fs => (Return a, fs).
Definition raise {A} (e : exn) : M A := fun fs => (Raise e, fs).
Definition bind {A B} (c : M A) (k : A -> M B) : M B :=
  fun fs =>
    match c fs with
    | (Return a, fs') => k a fs'
    | (Raise e, fs') => (Raise e, fs')
    end.

Notation "x <- c ;; k" := (bind c (fun x => k))
  (at level 61, c at next level, right associativity).
Notation "c ;;; k" := (bind c (fun _ => k))
  (at level 61, right associativity).

(** [for x in xs: acc = body(x, acc)]. *)
Fixpoint for_each {X S : Type} (xs : list X) (body : X -> S -> M S) (acc : S)
  : M S :=
  match xs with
  | [] => ret acc
  | x :: rest => acc' <- body x acc ;; for_each rest body acc'
  end.

(** ** [class CarService] *)

Module CarService.

Definition RECORD_SIZE : nat := 500.
Definition RECORD_SIZE_WITH_NL : nat := 501.

Definition index_t := list (text * Z).

Definition key_le (x y : text * Z) : bool := text_leb (fst x) (fst y).

Definition _format_record (data : text) : text :=
  ljust data RECORD_SIZE ++ ["010"].

(** The body of the loop of [_load_index]. *)
Fixpoint parse_lines (lines : list text) (index : index_t) : outcome index_t :=
  match lines with
  | [] => Return index
  | line :: rest =>
      if contains ":" line then
        match split ":" 1 (strip line) with
        | [key; pos_str] =>
            match int_of_str pos_str with
            | Some pos => parse_lines rest (index ++ [(key, pos)])
            | None => Raise (IntValueError pos_str)
            end
        | _ => Raise UnpackValueError
        end
      else parse_lines rest index
  end.

Definition _load_index (index_file : path) : M index_t :=
  fun fs =>
    let lines := readlines (universal_newlines (getf index_file fs)) in
    match parse_lines lines [] with
    | Return index => (Return (sorted key_le index), fs)
    | Raise e => (Raise e, fs)
    end.

Definition index_line (entry : text * Z) : text :=
  fst entry ++ ":" :: str_of_int (snd entry) ++ ["010"].

Definition _save_index (index : index_t) (index_file : path) : M unit :=
  fun fs => (Return tt, setf index_file (flat_map index_line index) fs).

(** [f.seek(offset); f.write(data)] on a file opened with [r+]: the write
    replaces what it covers and extends the file; a seek past the end
    leaves a gap of zero bytes. *)
Definition write_at (offset : nat) (data : text) (file : text) : text :=
  firstn offset file ++ repeat "000" (offset - length file)
    ++ data ++ skipn (offset + length data) file.

Definition _write_record (file_path : path) (position : Z) (record : text)
  : M unit :=
  fun fs =>
    if (position <? 0)%Z then (Raise (NegativeSeek position), fs)
    else
      let offset := Z.to_nat position * RECORD_SIZE_WITH_NL in
      (Return tt, setf file_path (write_at offset record (getf file_path fs)) fs).

Definition _read_record (file_path : path) (position : Z) : M text :=
  fun fs =>
    if (position <? 0)%Z then (Raise (NegativeSeek position), fs)
    else
      let offset := Z.to_nat position * RECORD_SIZE_WITH_NL in
      (Return (rstrip (firstn RECORD_SIZE
                 (universal_newlines (skipn offset (getf file_path fs))))), fs).

Definition _find_free_position (data_file : path) : M Z :=
  fun fs =>
    let size := length (getf data_file fs) in
    (Return (Z.of_nat (size / RECORD_SIZE_WITH_NL)), fs).

Definition add_model (model : Model.t) : M Model.t :=
  let model_data :=
    Model.id model ++ "|" :: Model.name model ++ "|" :: Model.brand model in
  let formatted := _format_record model_data in
  position <- _find_free_position models_file ;;
  _write_record models_file position formatted ;;;
  index <- _load_index models_index_file ;;
  let index := sorted key_le (index ++ [(Model.id model, position)]) in
  _save_index index models_index_file ;;;
  ret model.

Definition car_data (car : Car.t) : text :=
  Car.vin car ++ "|" :: Car.model car ++ "|" :: Car.price car
    ++ "|" :: Car.date_start car ++ "|" :: Car.status car.

Definition add_car (car : Car.t) : M Car.t :=
  let formatted := _format_record (car_data car) in
  position <- _find_free_position cars_file ;;
  _write_record cars_file position formatted ;;;
  index <- _load_index cars_index_file ;;
  let index := sorted key_le (index ++ [(Car.vin car, position)]) in
  _save_index index cars_index_file ;;;
  ret car.

(** The loop of [_find_car_by_vin] over the loaded index. *)
Fixpoint find_car_loop (vin : text) (index : index_t) : M (option text) :=
  match index with
  | [] => ret None
  | (v, pos) :: rest =>
      if text_eqb v vin then
        record <- _read_record cars_file pos ;; ret (Some record)
      else find_car_loop vin rest
  end.

Definition _find_car_by_vin (vin : text) : M (option text) :=
  index <- _load_index cars_index_file ;;
  find_car_loop vin index.

(** [fields[i].strip()], raising [IndexError] out of range. *)
Definition field_strip (fields : list text) (i : nat) : M text :=
  match nth_error fields i with
  | Some f => ret (strip f)
  | None => raise IndexError
  end.

Definition _get_car_by_vin (vin : text) : M Car.t :=
  data <- _find_car_by_vin vin ;;
  match data with
  | None | Some [] => raise (CarNotFound vin)
  | Some data =>
      let fields := split "|" 4 data in
      f0 <- field_strip fields 0 ;;
      f1 <- field_strip fields 1 ;;
      f2 <- field_strip fields 2 ;;
      f3 <- field_strip fields 3 ;;
      f4 <- field_strip fields 4 ;;
      ret (Car.mk f0 f1 f2 f3 f4)
  end.

(** The loop of [_update_car_status]: the first entry of the vin is
    rewritten, and the method returns; no entry is not an error. *)
Fixpoint update_car_status_loop (vin status : text) (cars_index : index_t)
  : M unit :=
  match cars_index with
  | [] => ret tt
  | (v, pos) :: rest =>
      if text_eqb v vin then
        record <- _read_record cars_file pos ;;
        let fields := split "|" 4 record in
        if (length fields =? 5)%nat then
          let fields := list_set 4 status fields in
          _write_record cars_file pos (_format_record (join "|" fields))
        else ret tt
      else update_car_status_loop vin status rest
  end.

Definition _update_car_status (vin status : text) : M unit :=
  cars_index <- _load_index cars_index_file ;;
  update_car_status_loop vin status cars_index.

Definition sale_data (sale : Sale.t) : text :=
  Sale.sales_number sale ++ "|" :: Sale.car_vin sale ++ "|" :: Sale.cost sale
    ++ "|" :: Sale.sales_date sale ++ txt "|False".

Definition sell_car (sale : Sale.t) : M Car.t :=
  let formatted := _format_record (sale_data sale) in
  position <- _find_free_position sales_file ;;
  _write_record sales_file position formatted ;;;
  index <- _load_index sales_index_file ;;
  let index := sorted key_le (index ++ [(Sale.sales_number sale, position)]) in
  _save_index index sales_index_file ;;;
  _update_car_status (Sale.car_vin sale) CarStatus.sold ;;;
  _get_car_by_vin (Sale.car_vin sale).

(** One turn of the scan of [get_cars]. *)
Definition get_cars_step (status : text) (pos : Z) (cars : list Car.t)
  : M (list Car.t) :=
  record <- _read_record cars_file pos ;;
  match strip record with
  | [] => ret cars
  | _ =>
      let fields := split "|" 4 record in
      if (length fields =? 5)%nat && text_eqb (strip (nth 4 fields [])) status then
        ret (cars ++ [Car.mk (strip (nth 0 fields [])) (strip (nth 1 fields []))
                             (strip (nth 2 fields [])) (strip (nth 3 fields []))
                             (strip (nth 4 fields []))])
      else ret cars
  end.

Definition get_cars (status : text) : M (list Car.t) :=
  fun fs =>
    let file_size := length (getf cars_file fs) in
    if (file_size =? 0)%nat then (Return [], fs)
    else
      let total_records := file_size / RECORD_SIZE_WITH_NL in
      for_each (range total_records) (get_cars_step status) [] fs.

(** The search loop of [update_vin]: the place and the position of the
    first entry of the vin. *)
Fixpoint find_entry (vin : text) (i : nat) (cars_index : index_t)
  : option (nat * Z) :=
  match cars_index with
  | [] => None
  | (idx_vin, pos) :: rest =>
      if text_eqb idx_vin vin then Some (i, pos)
      else find_entry vin (S i) rest
  end.

Definition update_vin (vin new_vin : text) : M Car.t :=
  cars_index <- _load_index cars_index_file ;;
  match find_entry vin 0 cars_index with
  | None => raise (CarNotFound vin)
  | Some (index_entry, position) =>
      record <- _read_record cars_file position ;;
      let fields := split "|" 4 record in
      (if (length fields =? 5)%nat then
         let fields := list_set 0 new_vin fields in
         _write_record cars_file position (_format_record (join "|" fields))
       else ret tt) ;;;
      let cars_index := list_set index_entry (new_vin, position) cars_index in
      let cars_index := sorted key_le cars_index in
      _save_index cars_index cars_index_file ;;;
      _get_car_by_vin new_vin
  end.

(** The search loop of [revert_sale]. *)
Fixpoint find_position (key : text) (idx : index_t) : option Z :=
  match idx with
  | [] => None
  | (k, pos) :: rest => if text_eqb k key then Some pos else find_position key rest
  end.

Definition revert_sale (sales_number : text) : M Car.t :=
  sales_index <- _load_index sales_index_file ;;
  match find_position sales_number sales_index with
  | None => raise (SaleNotFound sales_number)
  | Some position =>
      record <- _read_record sales_file position ;;
      let fields := split "|" 4 record in
      if negb (length fields =? 5)%nat then raise InvalidSaleFormat
      else if text_eqb (strip (nth 4 fields [])) (txt "True") then
        raise (SaleAlreadyDeleted sales_number)
      else
        let fields := list_set 4 (txt "True") fields in
        _write_record sales_file position (_format_record (join "|" fields)) ;;;
        let car_vin := strip (nth 1 fields []) in
        _update_car_status car_vin CarStatus.available ;;;
        _get_car_by_vin car_vin
  end.

(** [model_sales[model_id] += 1] on a [defaultdict(int)]. *)
Definition dict_incr (k : text) (d : list (text * nat)) : list (text * nat) :=
  match dict_get k d with
  | Some n => dict_set k (n + 1) d
  | None => dict_set k (0 + 1) d
  end.

(** One turn of the scan of the sales of [top_models_by_sales]. *)
Definition count_sale_step (pos : Z) (model_sales : list (text * nat))
  : M (list (text * nat)) :=
  record <- _read_record sales_file pos ;;
  match strip record with
  | [] => ret model_sales
  | _ =>
      let fields := split "|" 4 record in
      if (length fields =? 5)%nat && text_eqb (strip (nth 4 fields [])) (txt "False")
      then
        let car_vin := strip (nth 1 fields []) in
        car_data <- _find_car_by_vin car_vin ;;
        match car_data with
        | None | Some [] => ret model_sales
        | Some car_data =>
            let c_fields := split "|" 4 car_data in
            if (length c_fields =? 5)%nat then
              let model_id := strip (nth 1 c_fields []) in
              ret (dict_incr model_id model_sales)
            else ret model_sales
        end
      else ret model_sales
  end.

(** One turn of the loop over the models index. *)
Definition model_data_step (entry : text * Z)
  (models_data : list (text * (text * text))) : M (list (text * (text * text))) :=
  let (model_id, pos) := entry in
  model_record <- _read_record models_file pos ;;
  match strip model_record with
  | [] => ret models_data
  | _ =>
      let m_fields := split "|" 2 model_record in
      if (length m_fields =? 3)%nat then
        let name := strip (nth 1 m_fields []) in
        let brand := strip (nth 2 m_fields []) in
        ret (dict_set model_id (name, brand) models_data)
      else ret models_data
  end.

Definition count_ge (x y : text * nat) : bool := (snd y <=? snd x)%nat.

(** The loop that builds the result. *)
Fixpoint stats_of (models_data : list (text * (text * text)))
  (sorted_models : list (text * nat)) : list ModelSaleStats.t :=
  match sorted_models with
  | [] => []
  | (model_id, sales_count) :: rest =>
      match dict_get model_id models_data with
      | Some (name, brand) =>
          ModelSaleStats.mk name brand sales_count :: stats_of models_data rest
      | None => stats_of models_data rest
      end
  end.

Definition top_models_by_sales : M (list ModelSaleStats.t) :=
  fun fs =>
    let file_size := length (getf sales_file fs) in
    if (file_size =? 0)%nat then (Return [], fs)
    else
      let total_records := file_size / RECORD_SIZE_WITH_NL in
      (model_sales <- for_each (range total_records) count_sale_step [] ;;
       models_index <- _load_index models_index_file ;;
       models_data <- for_each models_index model_data_step [] ;;
       let sorted_models := firstn 3 (sorted count_ge model_sales) in
       ret (stats_of models_data sorted_models)) fs.

(** The loop of [_find_model_by_id] over the loaded index. *)
Fixpoint find_model_loop (model_id : text) (index : index_t) : M (option text) :=
  match index with
  | [] => ret None
  | (m, pos) :: rest =>
      if text_eqb m model_id then
        record <- _read_record models_file pos ;; ret (Some record)
      else find_model_loop model_id rest
  end.

Definition _find_model_by_id (model_id : text) : M (option text) :=
  index <- _load_index models_index_file ;;
  find_model_loop model_id index.

(** The scan of [_find_active_sale_by_vin]: the first record of the vin
    whose flag is "False". *)
Fixpoint find_active_sale_loop (vin : text) (positions : list Z)
  : M (option text) :=
  match positions with
  | [] => ret None
  | pos :: rest =>
      record <- _read_record sales_file pos ;;
      let fields := split "|" 4 record in
      if (length fields =? 5)%nat && text_eqb (strip (nth 1 fields [])) vin
         && text_eqb (strip (nth 4 fields [])) (txt "False")
      then ret (Some record)
      else find_active_sale_loop vin rest
  end.

Definition _find_active_sale_by_vin (vin : text) : M (option text) :=
  fun fs =>
    let file_size := length (getf sales_file fs) in
    if (file_size =? 0)%nat then (Return None, fs)
    else
      let total := file_size / RECORD_SIZE_WITH_NL in
      find_active_sale_loop vin (range total) fs.

(** The exceptions of the library parsers that [get_car_info] calls. *)
Inductive parse_exn :=
| DateValueError (s : text)           (* datetime.fromisoformat(s) *)
| DecimalInvalidOperation (s : text). (* Decimal(s) *)

(** What [get_car_info] does: it returns, or raises an exception of the
    service, or raises an exception of a parser. *)
Inductive info_outcome (A : Type) :=
| InfoReturn (a : A)
| InfoRaise (e : exn)
| InfoParseRaise (e : parse_exn).
Arguments InfoReturn {A} a.
Arguments InfoRaise {A} e.
Arguments InfoParseRaise {A} e.

Definition IM (A : Type) : Type := FS -> info_outcome A * FS.

Definition iret {A} (a : A) : IM A := fun fs => (InfoReturn a, fs).

Definition lift_bind {A B} (c : M A) (k : A -> IM B) : IM B :=
  fun fs =>
    match c fs with
    | (Return a, fs') => k a fs'
    | (Raise e, fs') => (InfoRaise e, fs')
    end.

(** [parse(s)] of a library parser, then the rest. *)
Definition parse_bind {T B} (parsed : option T) (e : parse_exn) (k : T -> IM B)
  : IM B :=
  match parsed with
  | Some v => k v
  | None => fun fs => (InfoParseRaise e, fs)
  end.

(** Modelled from the spec: the combined read-model of [models.py], with
    the fields that [get_car_info] passes to [CarFullInfo.model_validate],
    which is the identity on them. *)
Module CarFullInfo.
Record t (datetime decimal : Type) := mk {
  vin : text; car_model_name : text; car_model_brand : text;
  price : text; date_start : text; status : text;
  sales_date : option datetime; sales_cost : option decimal
}.
Arguments mk {datetime decimal}.
Arguments vin {datetime decimal}.
Arguments car_model_name {datetime decimal}.
Arguments car_model_brand {datetime decimal}.
Arguments price {datetime decimal}.
Arguments date_start {datetime decimal}.
Arguments status {datetime decimal}.
Arguments sales_date {datetime decimal}.
Arguments sales_cost {datetime decimal}.
End CarFullInfo.

Section CarInfo.

(** [datetime.fromisoformat] and [Decimal] are library functions: they are
    parameters, [None] standing for the exception they raise. *)
Variables datetime decimal : Type.
Variable fromisoformat : text -> option datetime.
Variable Decimal : text -> option decimal.

(** The part of [get_car_info] that looks for the sale of a sold car. *)
Definition sale_of_sold_car (car_vin status_str : text)
  : IM (option datetime * option decimal) :=
  if text_eqb status_str CarStatus.sold then
    lift_bind (_find_active_sale_by_vin car_vin) (fun sale_data =>
      match sale_data with
      | None | Some [] => iret (None, None)
      | Some sale_data =>
          let s_fields := split "|" 4 sale_data in
          if (length s_fields =? 5)%nat then
            let cost_str := strip (nth 2 s_fields []) in
            let date_s_str := strip (nth 3 s_fields []) in
            parse_bind (fromisoformat date_s_str) (DateValueError date_s_str)
              (fun sales_date =>
            parse_bind (Decimal cost_str) (DecimalInvalidOperation cost_str)
              (fun sales_cost =>
            iret (Some sales_date, Some sales_cost)))
          else iret (None, None)
      end)
  else iret (None, None).

Definition get_car_info (vin : text)
  : IM (option (CarFullInfo.t datetime decimal)) :=
  lift_bind (_find_car_by_vin vin) (fun car_data =>
    match car_data with
    | None | Some [] => iret None
    | Some car_data =>
        let fields := split "|" 4 car_data in
        if negb (length fields =? 5)%nat then iret None
        else
          let car_vin := strip (nth 0 fields []) in
          let model_id := strip (nth 1 fields []) in
          let price_str := strip (nth 2 fields []) in
          let date_str := strip (nth 3 fields []) in
          let status_str := strip (nth 4 fields []) in
          lift_bind (_find_model_by_id model_id) (fun model_data =>
            match model_data with
            | None | Some [] => iret None
            | Some model_data =>
                let m_fields := split "|" 2 model_data in
                if negb (length m_fields =? 3)%nat then iret None
                else
                  let model_name := strip (nth 1 m_fields []) in
                  let brand := strip (nth 2 m_fields []) in
                  fun fs =>
                    match sale_of_sold_car car_vin status_str fs with
                    | (InfoReturn (sales_date, sales_cost), fs') =>
                        (InfoReturn
                           (Some (CarFullInfo.mk car_vin model_name brand
                                    price_str date_str status_str
                                    sales_date sales_cost)), fs')
                    | (InfoRaise e, fs') => (InfoRaise e, fs')
                    | (InfoParseRaise e, fs') => (InfoParseRaise e, fs')
                    end
            end)
    end).

End CarInfo.

End CarService.

Import CarService.

(** ** Well-formedness of texts, records and indexes *)

(** The text has no occurrence of the character. *)
Definition lacks (c : ascii) (s : text) : Prop := contains c s = false.

(** The text has no whitespace at its ends: [s.strip() == s]. *)
Definition stripped (s : text) : Prop := strip s = s.

(** The value that a digit adds to the number read so far. *)
Definition digit_step (a : Z) (c : ascii) : Z := (10 * a + digit_val c)%Z.

(** The characters of a rendered integer: digits and the minus sign. *)
Definition is_int_char (c : ascii) : bool := is_digit c || Ascii.eqb c "-".

(** A key that an index file gives back as it was written: it has no
    colon and no line break, and does not start with whitespace. *)
Definition key_ok (k : text) : Prop :=
  lacks ":" k /\ lacks "010" k /\ lacks "013" k /\ lstrip k = k.

(** The entries of the key, in the order of the index. *)
Definition entries_of (k : text) (idx : index_t) : index_t :=
  filter (fun e => text_eqb (fst e) k) idx.

(** The index is in ascending order of its keys. *)
Definition keys_sorted (idx : index_t) : Prop :=
  Sorted (fun x y => key_le x y = true) idx.

(** The byte offset of a slot. *)
Definition slot_offset (position : Z) : nat :=
  Z.to_nat position * RECORD_SIZE_WITH_NL.

(** What [_read_record] returns for a slot of a data file. *)
Definition read_slot (file : text) (position : Z) : text :=
  rstrip (firstn RECORD_SIZE (universal_newlines (skipn (slot_offset position) file))).

(** What [_load_index] returns for the text of an index file. *)
Definition index_of_text (file : text) : outcome index_t :=
  match parse_lines (readlines (universal_newlines file)) [] with
  | Return index => Return (sorted key_le index)
  | Raise e => Raise e
  end.

(** The text that [_save_index] writes. *)
Definition text_of_index (idx : index_t) : text := flat_map index_line idx.

(** A car whose record is one character too long for a slot. *)
Definition long_car : Car.t :=
  Car.mk (repeat "x" 493) (txt "m") (txt "1") (txt "d") (txt "s").

(** The number of slots of a data file, as the scans compute it. *)
Definition slot_count (file : text) : nat := length file / RECORD_SIZE_WITH_NL.

(** The spec's decoding of a stored car record: five fields, each
    stripped of the surrounding whitespace. *)
Definition decode_car (record : text) : option Car.t :=
  match split "|" 4 record with
  | [f0; f1; f2; f3; f4] =>
      Some (Car.mk (strip f0) (strip f1) (strip f2) (strip f3) (strip f4))
  | _ => None
  end.

(** The cars of the data file with the slots that hold them, slot by slot. *)
Definition cars_by_slot (file : text) : list (Z * Car.t) :=
  flat_map (fun pos => match decode_car (read_slot file pos) with
                       | Some c => [(pos, c)]
                       | None => []
                       end)
           (range (slot_count file)).

(** The spec's [listByStatus]: the stored cars whose decoded status is [s],
    with their slots. *)
Definition list_by_status (file : text) (s : text) : list (Z * Car.t) :=
  filter (fun pc => text_eqb (Car.status (snd pc)) s) (cars_by_slot file).

(** A field of a record that the decoding gives back as it was encoded:
    no separator, no carriage return, no whitespace around it. *)
Definition field_ok (f : text) : Prop :=
  lacks "|" f /\ lacks "013" f /\ stripped f.

(** A key that is also a field of the record. *)
Definition vin_ok (v : text) : Prop :=
  lacks ":" v /\ lacks "010" v /\ field_ok v.

(** A car that the storage format can hold: the vin is a sound key, the
    fields before the status are sound fields, the status has no carriage
    return and no whitespace around it, and the record fits a slot. *)
Definition car_ok (car : Car.t) : Prop :=
  vin_ok (Car.vin car) /\ field_ok (Car.model car) /\ field_ok (Car.price car)
  /\ field_ok (Car.date_start car)
  /\ lacks "013" (Car.status car) /\ stripped (Car.status car)
  /\ length (car_data car) <= RECORD_SIZE.

(** The data file after a record is appended at the free position. *)
Definition append_record (file data : text) : text :=
  write_at (slot_offset (Z.of_nat (slot_count file))) (_format_record data) file.

(** The index after an entry is inserted. *)
Definition index_insert (idx : index_t) (key : text) (position : Z) : index_t :=
  sorted key_le (idx ++ [(key, position)]).

(** The file system after [add_car], when the index loads as [idx]. *)
Definition fs_add_car (car : Car.t) (idx : index_t) (fs : FS) : FS :=
  setf cars_index_file
    (text_of_index
       (index_insert idx (Car.vin car) (Z.of_nat (slot_count (fs_cars fs)))))
    (setf cars_file (append_record (fs_cars fs) (car_data car)) fs).

(** A sound car, and a second one. *)
Definition sample_car : Car.t :=
  Car.mk (txt "XTA21099") (txt "1") (txt "1000.50")
         (txt "2024-02-03T00:00:00") (txt "available").

Definition other_car : Car.t :=
  Car.mk (txt "KNAGM4A7") (txt "2") (txt "2000")
         (txt "2024-02-04T00:00:00") (txt "reserve").

(** The index file of the cars says what the data file holds: it is the
    text of an index whose keys are read back as written, in ascending
    order of the keys, with one entry for each of the slots
    [0 .. slot_count - 1]; the data file is made of whole slots. *)
Definition index_invariant (fs : FS) : Prop :=
  exists idx : index_t,
    fs_cars_index fs = text_of_index idx
    /\ index_of_text (fs_cars_index fs) = Return idx
    /\ keys_sorted idx
    /\ Permutation (map snd idx) (range (slot_count (fs_cars fs)))
    /\ length (fs_cars fs) = slot_count (fs_cars fs) * RECORD_SIZE_WITH_NL.

(** The record that [update_vin] writes fits a slot. *)
Definition rename_fits (fs : FS) (vin new_vin : text) : bool :=
  match index_of_text (fs_cars_index fs) with
  | Return idx =>
      match find_position vin idx with
      | Some pos =>
          length (join "|" (list_set 0 new_vin
                              (split "|" 4 (read_slot (fs_cars fs) pos))))
          <=? RECORD_SIZE
      | None => true
      end
  | Raise _ => true
  end%nat.

(** The operations of the car repository that insert and rename. *)
Inductive car_op :=
| OpAdd (car : Car.t)
| OpRename (vin new_vin : text).

(** The file system that an operation leaves, whatever it returns. *)
Definition run_op (op : car_op) (fs : FS) : FS :=
  match op with
  | OpAdd car => snd (add_car car fs)
  | OpRename vin new_vin => snd (update_vin vin new_vin fs)
  end.

Definition run_ops (ops : list car_op) (fs : FS) : FS :=
  fold_left (fun fs op => run_op op fs) ops fs.

(** The operation stays within the format: the vin of the car added is a
    sound key and its record fits a slot; the new vin is a sound key and
    the renamed record fits its slot. *)
Definition op_ok (op : car_op) (fs : FS) : Prop :=
  match op with
  | OpAdd car => key_ok (Car.vin car) /\ length (car_data car) <= RECORD_SIZE
  | OpRename vin new_vin => key_ok new_vin /\ rename_fits fs vin new_vin = true
  end.

Fixpoint ops_ok (ops : list car_op) (fs : FS) : Prop :=
  match ops with
  | [] => True
  | op :: rest => op_ok op fs /\ ops_ok rest (run_op op fs)
  end.

(** The file system after [update_vin] found the entry [index_entry] of
    the vin at [position] in the index [idx]. *)
Definition fs_update_vin (new_vin : text) (idx : index_t) (index_entry : nat)
  (position : Z) (fs : FS) : FS :=
  let fields := split "|" 4 (read_slot (fs_cars fs) position) in
  let fs1 :=
    if (length fields =? 5)%nat then
      setf cars_file
        (write_at (slot_offset position)
           (_format_record (join "|" (list_set 0 new_vin fields))) (fs_cars fs)) fs
    else fs in
  setf cars_index_file
    (text_of_index (sorted key_le (list_set index_entry (new_vin, position) idx)))
    fs1.

(** A computation that leaves the files as they are. *)
Definition read_only {A : Type} (c : M A) : Prop :=
  forall fs, snd (c fs) = fs.

(** The repository after [sample_car] was added to the empty one. *)
Definition one_car_fs : FS := snd (add_car sample_car empty_fs).

(** A sale that the storage format can hold: the sales number is a sound
    key, no field before the flag has a separator or a carriage return,
    the vin has no whitespace around it, and the record fits a slot. *)
Definition sale_ok (sale : Sale.t) : Prop :=
  key_ok (Sale.sales_number sale) /\ lacks "|" (Sale.sales_number sale)
  /\ field_ok (Sale.car_vin sale)
  /\ lacks "|" (Sale.cost sale) /\ lacks "013" (Sale.cost sale)
  /\ lacks "|" (Sale.sales_date sale) /\ lacks "013" (Sale.sales_date sale)
  /\ length (sale_data sale) <= RECORD_SIZE.

(** The file system after [sell_car] wrote the record and the index entry
    of the sale, when the sales index loads as [idx]. *)
Definition fs_sale_written (sale : Sale.t) (idx : index_t) (fs : FS) : FS :=
  setf sales_index_file
    (text_of_index
       (index_insert idx (Sale.sales_number sale)
          (Z.of_nat (slot_count (fs_sales fs)))))
    (setf sales_file (append_record (fs_sales fs) (sale_data sale)) fs).

(** The file system after the status of the car in the slot [position] is
    set. *)
Definition fs_status_set (fields : list text) (status : text) (position : Z)
  (fs : FS) : FS :=
  setf cars_file
    (write_at (slot_offset position)
       (_format_record (join "|" (list_set 4 status fields))) (fs_cars fs)) fs.

(** The file system after the sale in the slot [position] is flagged. *)
Definition fs_sale_flagged (fields : list text) (position : Z) (fs : FS) : FS :=
  setf sales_file
    (write_at (slot_offset position)
       (_format_record (join "|" (list_set 4 (txt "True") fields))) (fs_sales fs)) fs.

(** A sale of [sample_car]. *)
Definition sample_sale : Sale.t :=
  Sale.mk (txt "20240903#XTA21099") (txt "XTA21099") (txt "990.00")
          (txt "2024-09-03T00:00:00").


(** The model id that the sale in a slot of the sales file counts for: the
    record has five fields, its flag is "False", its vin has an entry in
    the cars index, and the record of that entry has five fields, the
    second of which is the model id. *)
Definition sale_model (cars_index : index_t) (cars sales : text) (pos : Z)
  : option text :=
  match split "|" 4 (read_slot sales pos) with
  | [_; car_vin; _; _; deleted] =>
      if text_eqb (strip deleted) (txt "False") then
        match find_position (strip car_vin) cars_index with
        | Some cpos =>
            match split "|" 4 (read_slot cars cpos) with
            | [_; model_id; _; _; _] => Some (strip model_id)
            | _ => None
            end
        | None => None
        end
      else None
  | _ => None
  end.

(** The model ids of the counted sales, slot by slot. *)
Definition counted_models (cars_index : index_t) (cars sales : text) : list text :=
  flat_map (fun pos => match sale_model cars_index cars sales pos with
                       | Some m => [m]
                       | None => []
                       end)
           (range (slot_count sales)).

(** The counter of the models, in the order of their first sale. *)
Definition tally (models : list text) : list (text * nat) :=
  fold_left (fun d m => dict_incr m d) models [].


(** The name and the brand in the record of an entry of the models index. *)
Definition model_entry (models : text) (entry : text * Z) : option (text * text) :=
  match split "|" 2 (read_slot models (snd entry)) with
  | [_; name; brand] => Some (strip name, strip brand)
  | _ => None
  end.

(** The names and brands of the models of the index. *)
Definition models_data_of (models : text) (models_index : index_t)
  : list (text * (text * text)) :=
  fold_left (fun d e => match model_entry models e with
                        | Some nb => dict_set (fst e) nb d
                        | None => d
                        end)
            models_index [].

(** No position of the index is negative. *)
Definition positions_ok (idx : index_t) : Prop :=
  Forall (fun e => (0 <= snd e)%Z) idx.

(** The scenario of the spec: two models; three cars of the first model and
    one of the second are sold; a fourth car of the first model is sold and
    the sale is reverted. *)
Definition scenario_car (vin model : string) : Car.t :=
  Car.mk (txt vin) (txt model) (txt "1000") (txt "2024-02-03T00:00:00")
         (txt "available").

Definition scenario_sale (number vin : string) : Sale.t :=
  Sale.mk (txt number) (txt vin) (txt "990") (txt "2024-03-03T00:00:00").

Definition scenario : M Car.t :=
  add_model (Model.mk (txt "1") (txt "Optima") (txt "Kia")) ;;;
  add_model (Model.mk (txt "2") (txt "Sorento") (txt "Kia")) ;;;
  add_car (scenario_car "VIN3" "1") ;;;
  add_car (scenario_car "VIN1" "1") ;;;
  add_car (scenario_car "VIN2" "1") ;;;
  add_car (scenario_car "VIN4" "2") ;;;
  add_car (scenario_car "VIN5" "1") ;;;
  sell_car (scenario_sale "S1" "VIN1") ;;;
  sell_car (scenario_sale "S2" "VIN2") ;;;
  sell_car (scenario_sale "S3" "VIN3") ;;;
  sell_car (scenario_sale "S4" "VIN4") ;;;
  sell_car (scenario_sale "S5" "VIN5") ;;;
  revert_sale (txt "S5").

Definition scenario_fs : FS := snd (scenario empty_fs).

(** ** Definitions for the other methods *)

(** The record of a model, as [add_model] renders it. *)
Definition model_data (model : Model.t) : text :=
  Model.id model ++ "|" :: Model.name model ++ "|" :: Model.brand model.

(** A model that the storage format can hold: the id is a sound key and
    field, the name is a sound field, the brand has no carriage return
    and no whitespace around it, and the record fits a slot. *)
Definition model_ok (model : Model.t) : Prop :=
  vin_ok (Model.id model) /\ field_ok (Model.name model)
  /\ lacks "013" (Model.brand model) /\ stripped (Model.brand model)
  /\ length (model_data model) <= RECORD_SIZE.

(** The file system after [add_model], when the index loads as [idx]. *)
Definition fs_add_model (model : Model.t) (idx : index_t) (fs : FS) : FS :=
  setf models_index_file
    (text_of_index
       (index_insert idx (Model.id model) (Z.of_nat (slot_count (fs_models fs)))))
    (setf models_file (append_record (fs_models fs) (model_data model)) fs).

(** The test of [_find_active_sale_by_vin] on a record: five fields, the
    vin asked for, the flag "False". *)
Definition is_active_sale_of (vin : text) (record : text) : bool :=
  let fields := split "|" 4 record in
  (length fields =? 5)%nat && text_eqb (strip (nth 1 fields [])) vin
  && text_eqb (strip (nth 4 fields [])) (txt "False").

(** The records of the slots of a data file, slot by slot. *)
Definition slot_records (file : text) : list text :=
  map (read_slot file) (range (slot_count file)).

(** A sound model. *)
Definition sample_model : Model.t :=
  Model.mk (txt "1") (txt "Vesta") (txt "Lada").

(** An index file with a position that is no integer. *)
Definition corrupt_index_fs : FS :=
  setf cars_index_file (txt "XTA21099:first") empty_fs.

(** Parsers for the examples: every text is accepted as it is. *)
Definition accept_text (s : text) : option text := Some s.

(** A computation of [get_car_info] that leaves the files as they are. *)
Definition info_read_only {A : Type} (c : IM A) : Prop :=
  forall fs, snd (c fs) = fs.

(** The setting of a sale that goes through: the cars index loads and has
    an entry for the vin of the sale at a position that is not negative,
    whose slot holds the five [fields], with room for the status
    "available"; the sales index loads and does not have the sales number;
    the sale is one the format can hold. *)
Definition sellable (sale : Sale.t) (fs : FS) (cidx sidx : index_t) (p : Z)
  (fields : list text) : Prop :=
  index_of_text (fs_cars_index fs) = Return cidx
  /\ find_position (Sale.car_vin sale) cidx = Some p /\ (0 <= p)%Z
  /\ split "|" 4 (read_slot (fs_cars fs) p) = fields
  /\ length fields = 5
  /\ length (join "|" (list_set 4 CarStatus.available fields)) <= RECORD_SIZE
  /\ index_of_text (fs_sales_index fs) = Return sidx
  /\ ~ In (Sale.sales_number sale) (map fst sidx)
  /\ sale_ok sale.

(** The fields of the record of a sale, with its flag. *)
Definition sale_fields (sale : Sale.t) (flag : text) : list text :=
  [Sale.sales_number sale; Sale.car_vin sale; Sale.cost sale;
   Sale.sales_date sale; flag].

(** The file system after [sell_car] went through. *)
Definition fs_sold (sale : Sale.t) (sidx : index_t) (p : Z) (fields : list text)
  (fs : FS) : FS :=
  fs_status_set fields CarStatus.sold p (fs_sale_written sale sidx fs).

(** The file system after [revert_sale] of that sale went through. *)
Definition fs_reverted (sale : Sale.t) (sidx : index_t) (p : Z)
  (fields : list text) (fs : FS) : FS :=
  fs_status_set (list_set 4 CarStatus.sold fields) CarStatus.available p
    (fs_sale_flagged (sale_fields sale (txt "False"))
       (Z.of_nat (slot_count (fs_sales fs))) (fs_sold sale sidx p fields fs)).

(** The car that the fields of a record decode to, with a given status. *)
Definition car_with_status (fields : list text) (status : text) : Car.t :=
  Car.mk (strip (nth 0 fields [])) (strip (nth 1 fields []))
         (strip (nth 2 fields [])) (strip (nth 3 fields [])) status.

(** The repository after [sample_model] and [sample_car] were added to the
    empty one. *)
Definition model_car_fs : FS :=
  snd ((add_model sample_model ;;; add_car sample_car) empty_fs).

(** The distinct elements of a list in the order of their first
    occurrence, those already [seen] left out. *)
Fixpoint first_seen (seen : list text) (l : list text) : list text :=
  match l with
  | [] => []
  | x :: t =>
      if existsb (text_eqb x) seen then first_seen seen t
      else x :: first_seen (seen ++ [x]) t
  end.

(** A computation that leaves the file at a path as it is, whatever it
    returns or raises. *)
Definition preserves {A : Type} (p : path) (c : M A) : Prop :=
  forall fs, getf p (snd (c fs)) = getf p fs.

(** ** Definitions for the repositories of the models and of the sales,
    and inputs that the storage format cannot hold *)

(** The invariant [index_invariant], for the data file and the index file
    of any of the three repositories. *)
Definition repo_invariant (data_file index_file : path) (fs : FS) : Prop :=
  exists idx : index_t,
    getf index_file fs = text_of_index idx
    /\ index_of_text (getf index_file fs) = Return idx
    /\ keys_sorted idx
    /\ Permutation (map snd idx) (range (slot_count (getf data_file fs)))
    /\ length (getf data_file fs)
       = slot_count (getf data_file fs) * RECORD_SIZE_WITH_NL.

(** The file system that a sequence of [add_model] calls leaves, whatever
    they return. *)
Definition run_add_models (models : list Model.t) (fs : FS) : FS :=
  fold_left (fun fs model => snd (add_model model fs)) models fs.

(** The file system that a sequence of [sell_car] calls leaves, whatever
    they return. *)
Definition run_sell_cars (sales : list Sale.t) (fs : FS) : FS :=
  fold_left (fun fs sale => snd (sell_car sale fs)) sales fs.

(** The key is sound and the record fits a slot. *)
Definition entry_ok (key data : text) : Prop :=
  key_ok key /\ length data <= RECORD_SIZE.

(** The data file after a record is appended at the free position, as a
    prefix of the old file followed by the record. *)
Definition appended (file record : text) : text :=
  firstn (slot_count file * RECORD_SIZE_WITH_NL) file ++ record.

(** A sale of [sample_car] whose sales number has a colon. *)
Definition colon_sale : Sale.t :=
  Sale.mk (txt "S:1") (txt "XTA21099") (txt "990.00")
          (txt "2024-09-03T00:00:00").

(** A sale of [sample_car] whose record has 505 characters. *)
Definition long_sale : Sale.t :=
  Sale.mk (repeat "7" 463) (txt "XTA21099") (txt "990.00")
          (txt "2024-09-03T00:00:00").

(** A car whose vin has a colon. *)
Definition colon_car : Car.t :=
  Car.mk (txt "AB:CD") (txt "1") (txt "1000.50")
         (txt "2024-02-03T00:00:00") (txt "available").

(** A car whose vin has a colon and a line feed: "A:5", line feed, "B". *)
Definition split_key_car : Car.t :=
  Car.mk ["A"; ":"; "5"; "010"; "B"] (txt "1") (txt "1000.50")
         (txt "2024-02-03T00:00:00") (txt "available").

(** A car whose record has 1100 characters. *)
Definition huge_car : Car.t :=
  Car.mk (repeat "x" 1092) (txt "m") (txt "1") (txt "d") (txt "s").


(** The repository after [sample_car] and [other_car] were added to the
    empty one. *)
Definition two_cars_fs : FS :=
  snd ((add_car sample_car ;;; add_car other_car) empty_fs).

(** ** Proof automation *)

(** Decides the closed side conditions of the examples by evaluation. *)
Ltac decide_ok :=
  repeat match goal with
         | |- _ /\ _ => split
         | |- ~ _ => let H := fresh in intros H; simpl in H; intuition discriminate
         | |- _ = _ => vm_compute; reflexivity
         | |- (_ <= _)%nat => vm_compute; repeat constructor
         | |- True => exact I
         end.

(** Reduces the projections of the file systems that the methods build. *)
Ltac files :=
  cbn [fs_sale_written fs_status_set fs_sale_flagged setf
       fs_models fs_models_index fs_cars fs_cars_index fs_sales fs_sales_index].


(** ** Facts about the text primitives *)

Section TextFacts.

Lemma text_eqb_spec (a b : text) : reflect (a = b) (text_eqb a b).
Proof.
  revert b; induction a as [|x a IH]; intros [|y b]; simpl;
    try (constructor; congruence).
  destruct (Ascii.eqb_spec x y) as [->|N]; simpl.
  - destruct (IH b) as [->|N]; constructor; congruence.
  - constructor; congruence.
Qed.

Lemma text_eqb_refl (a : text) : text_eqb a a = true.
Proof. destruct (text_eqb_spec a a); congruence. Qed.

Lemma text_eqb_eq (a b : text) : text_eqb a b = true <-> a = b.
Proof. destruct (text_eqb_spec a b); split; congruence. Qed.

Lemma text_eqb_neq (a b : text) : text_eqb a b = false <-> a <> b.
Proof. destruct (text_eqb_spec a b); split; congruence. Qed.

Lemma ascii_ltb_total (x y : ascii) :
  Ascii.ltb x y = false -> Ascii.eqb x y = false -> Ascii.ltb y x = true.
Proof.
  unfold Ascii.ltb; rewrite (Ascii.compare_antisym y x).
  destruct (Ascii.compare x y) eqn:E; simpl; try congruence.
  apply Ascii.compare_eq_iff in E; subst; rewrite Ascii.eqb_refl; congruence.
Qed.

Lemma text_leb_total (a b : text) : text_leb a b = false -> text_leb b a = true.
Proof.
  revert b; induction a as [|x a IH]; intros [|y b]; simpl; try congruence.
  destruct (Ascii.ltb x y) eqn:L; [congruence|].
  destruct (Ascii.eqb x y) eqn:E.
  - apply Ascii.eqb_eq in E; subst y. rewrite L, Ascii.eqb_refl. apply IH.
  - intros _. now rewrite (ascii_ltb_total x y L E).
Qed.

Lemma text_leb_refl (a : text) : text_leb a a = true.
Proof.
  pose proof (text_leb_total a a) as H.
  destruct (text_leb a a); [reflexivity | now apply H].
Qed.

Lemma lacks_cons c x s : lacks c (x :: s) <-> Ascii.eqb c x = false /\ lacks c s.
Proof. unfold lacks; simpl. apply orb_false_iff. Qed.

Lemma lacks_app c s t : lacks c (s ++ t) <-> lacks c s /\ lacks c t.
Proof.
  unfold lacks, contains. rewrite existsb_app. apply orb_false_iff.
Qed.

Lemma lacks_repeat c x n : c <> x -> lacks c (repeat x n).
Proof.
  intros N; induction n; simpl; [reflexivity|].
  apply lacks_cons; split; [now apply Ascii.eqb_neq | assumption].
Qed.

Lemma contains_In c s : contains c s = true <-> In c s.
Proof.
  unfold contains; rewrite existsb_exists; split.
  - intros (x & Hx & E). apply Ascii.eqb_eq in E; now subst.
  - intros H; exists c; split; [assumption | apply Ascii.eqb_refl].
Qed.

(** *** [rstrip], [lstrip], [strip] *)

Lemma rstrip_app_nonempty s t :
  rstrip t <> [] -> rstrip (s ++ t) = s ++ rstrip t.
Proof.
  intros N; induction s as [|c s IH]; simpl; [reflexivity|].
  rewrite IH. destruct (s ++ rstrip t) eqn:E; [|reflexivity].
  destruct s; simpl in E; congruence.
Qed.

Lemma rstrip_app_empty s t : rstrip t = [] -> rstrip (s ++ t) = rstrip s.
Proof.
  intros N; induction s as [|c s IH]; simpl; [assumption|]. now rewrite IH.
Qed.

Lemma rstrip_repeat_space n : rstrip (repeat " " n) = [].
Proof. induction n; simpl; [reflexivity|]. now rewrite IHn. Qed.

Lemma rstrip_last s c : is_space c = false -> rstrip (s ++ [c]) = s ++ [c].
Proof.
  intros H. rewrite rstrip_app_nonempty; simpl; rewrite H; [reflexivity|].
  discriminate.
Qed.

Lemma rstrip_idem s : rstrip (rstrip s) = rstrip s.
Proof.
  induction s as [|c s IH]; simpl; [reflexivity|].
  destruct (rstrip s) as [|d r] eqn:E.
  - destruct (is_space c) eqn:S; simpl; [reflexivity | now rewrite S].
  - simpl in *. rewrite IH. reflexivity.
Qed.

Lemma rstrip_length s : length (rstrip s) <= length s.
Proof.
  induction s as [|c s IH]; simpl; [lia|].
  destruct (rstrip s); [destruct (is_space c)|]; simpl in *; lia.
Qed.

Lemma rstrip_lacks c s : lacks c s -> lacks c (rstrip s).
Proof.
  induction s as [|x s IH]; simpl; [trivial|].
  intros H; apply lacks_cons in H as [H1 H2].
  destruct (rstrip s) eqn:E.
  - destruct (is_space x); [reflexivity|]. apply lacks_cons; split; easy.
  - apply lacks_cons; split; [assumption | now apply IH].
Qed.

Lemma lstrip_lacks c s : lacks c s -> lacks c (lstrip s).
Proof.
  induction s as [|x s IH]; simpl; [trivial|].
  intros H. destruct (is_space x); [|assumption].
  apply lacks_cons in H as [_ H]. now apply IH.
Qed.

Lemma strip_lacks c s : lacks c s -> lacks c (strip s).
Proof. intros H; unfold strip. now apply rstrip_lacks, lstrip_lacks. Qed.

Lemma lstrip_head s :
  match lstrip s with [] => True | c :: _ => is_space c = false end.
Proof.
  induction s as [|x s IH]; simpl; [exact I|].
  destruct (is_space x) eqn:E; [assumption | exact E].
Qed.

Lemma lstrip_rstrip_comm s : lstrip (rstrip s) = rstrip (lstrip s).
Proof.
  induction s as [|c s IH]; [reflexivity|].
  cbn [lstrip rstrip]. destruct (is_space c) eqn:S.
  - rewrite <- IH. destruct (rstrip s) eqn:E; [reflexivity|].
    cbn [lstrip]. now rewrite S.
  - cbn [rstrip]. destruct (rstrip s) eqn:E; cbn [lstrip]; now rewrite S.
Qed.

Lemma strip_idem s : strip (strip s) = strip s.
Proof.
  assert (L : forall u, lstrip (lstrip u) = lstrip u).
  { induction u as [|x u IH]; simpl; [reflexivity|].
    destruct (is_space x) eqn:E; [assumption | simpl; now rewrite E]. }
  unfold strip. now rewrite (lstrip_rstrip_comm (lstrip s)), L, rstrip_idem.
Qed.

Lemma rstrip_no_space s : Forall (fun c => is_space c = false) s -> rstrip s = s.
Proof.
  induction 1 as [|c s Hc _ IH]; simpl; [reflexivity|].
  rewrite IH. destruct s; [now rewrite Hc | reflexivity].
Qed.

Lemma strip_no_space s : Forall (fun c => is_space c = false) s -> strip s = s.
Proof.
  intros H. unfold strip.
  replace (lstrip s) with s; [now apply rstrip_no_space|].
  destruct H as [|c s Hc _]; simpl; [|rewrite Hc]; reflexivity.
Qed.

End TextFacts.

(** *** [split] and [join] *)

Section SplitJoin.

Lemma stripped_rstrip s : stripped s -> rstrip s = s.
Proof.
  unfold stripped, strip. intros H.
  rewrite <- H at 1. rewrite rstrip_idem. exact H.
Qed.

Lemma rstrip_app_fixed s t : t <> [] -> rstrip t = t -> rstrip (s ++ t) = s ++ t.
Proof.
  intros N E. rewrite rstrip_app_nonempty; rewrite E; [reflexivity | assumption].
Qed.

Lemma rstrip_cons_fixed c t :
  is_space c = false -> rstrip t = t -> rstrip (c :: t) = c :: t.
Proof. intros Hc E. simpl. rewrite E. destruct t; [now rewrite Hc | reflexivity]. Qed.

Lemma rstrip_cons_nonspace c t : is_space c = false -> rstrip (c :: t) <> [].
Proof.
  intros Hc. simpl. destruct (rstrip t); [rewrite Hc|]; discriminate.
Qed.

Lemma partition_at_app sep a b :
  lacks sep a -> partition_at sep (a ++ sep :: b) = Some (a, b).
Proof.
  induction a as [|x a IH]; simpl; intros H.
  - now rewrite Ascii.eqb_refl.
  - apply lacks_cons in H as [H1 H2].
    rewrite Ascii.eqb_sym, H1, (IH H2). reflexivity.
Qed.

Lemma partition_at_None sep s : lacks sep s -> partition_at sep s = None.
Proof.
  induction s as [|x s IH]; simpl; intros H; [reflexivity|].
  apply lacks_cons in H as [H1 H2]. now rewrite Ascii.eqb_sym, H1, (IH H2).
Qed.

Lemma partition_at_Some sep s a b :
  partition_at sep s = Some (a, b) -> s = a ++ sep :: b /\ lacks sep a.
Proof.
  revert a; induction s as [|x s IH]; simpl; intros a H; [discriminate|].
  destruct (Ascii.eqb_spec x sep) as [->|N].
  - inversion H; subst. split; reflexivity.
  - destruct (partition_at sep s) as [[a' b']|]; [|discriminate].
    inversion H; subst. destruct (IH a' eq_refl) as [-> L].
    split; [reflexivity|]. apply lacks_cons; split; [|assumption].
    apply Ascii.eqb_neq; congruence.
Qed.

Lemma partition_at_contains sep s :
  contains sep s = true -> exists a b, partition_at sep s = Some (a, b).
Proof.
  induction s as [|x s IH]; simpl; [discriminate|].
  rewrite (Ascii.eqb_sym sep x). destruct (Ascii.eqb x sep); simpl.
  - intros _; now exists [], s.
  - intros H. destruct (IH H) as (a & b & ->). now exists (x :: a), b.
Qed.

Lemma join_split sep n s : join sep (split sep n s) = s.
Proof.
  revert s; induction n as [|n IH]; intros s; simpl; [reflexivity|].
  destruct (partition_at sep s) as [[a b]|] eqn:E; [|reflexivity].
  apply partition_at_Some in E as [-> _].
  specialize (IH b). simpl.
  destruct (split sep n b) eqn:S.
  - destruct n; simpl in S; [discriminate|].
    destruct (partition_at sep b) as [[? ?]|]; discriminate.
  - rewrite IH. reflexivity.
Qed.

Lemma split_nonempty sep n s : split sep n s <> [].
Proof.
  destruct n; simpl; [discriminate|].
  destruct (partition_at sep s) as [[? ?]|]; discriminate.
Qed.

Lemma split_length sep n s : 1 <= length (split sep n s) <= S n.
Proof.
  revert s; induction n as [|n IH]; intros s; simpl; [lia|].
  destruct (partition_at sep s) as [[a b]|]; simpl; [|lia].
  specialize (IH b). lia.
Qed.

(** All the fields that [split] cut off are free of the separator. *)
Lemma split_lacks sep n s :
  Forall (lacks sep) (removelast (split sep n s)).
Proof.
  revert s; induction n as [|n IH]; intros s; simpl; [constructor|].
  destruct (partition_at sep s) as [[a b]|] eqn:E; [|constructor].
  apply partition_at_Some in E as [_ L].
  pose proof (split_nonempty sep n b) as N.
  simpl. destruct (split sep n b) eqn:S; [congruence|].
  rewrite <- S. constructor; [assumption | apply IH].
Qed.

Lemma split_join sep n (l : list text) :
  length l = S n -> Forall (lacks sep) (removelast l) ->
  split sep n (join sep l) = l.
Proof.
  revert l; induction n as [|n IH]; intros l Hl Hf.
  - destruct l as [|f [|g l]]; simpl in *; try discriminate. reflexivity.
  - destruct l as [|f [|g l]]; simpl in Hl; try discriminate.
    change (join sep (f :: g :: l)) with (f ++ sep :: join sep (g :: l)).
    change (removelast (f :: g :: l)) with (f :: removelast (g :: l)) in Hf.
    inversion Hf; subst.
    cbn [split]. rewrite partition_at_app by assumption.
    rewrite IH; [reflexivity | simpl; lia | assumption].
Qed.

Lemma lacks_join sep c (l : list text) :
  c <> sep -> Forall (lacks c) l -> lacks c (join sep l).
Proof.
  intros N H; induction H as [|f l Hf Hl IH]; [reflexivity|].
  destruct l as [|g l]; [exact Hf|].
  change (join sep (f :: g :: l)) with (f ++ sep :: join sep (g :: l)).
  apply lacks_app; split; [assumption|].
  apply lacks_cons; split; [now apply Ascii.eqb_neq | assumption].
Qed.

Lemma lacks_split sep c n s :
  lacks c s -> Forall (lacks c) (split sep n s).
Proof.
  revert s; induction n as [|n IH]; intros s H; simpl; [now repeat constructor|].
  destruct (partition_at sep s) as [[a b]|] eqn:E; [|now repeat constructor].
  apply partition_at_Some in E as [-> _].
  apply lacks_app in H as [Ha Hb]. apply lacks_cons in Hb as [_ Hb].
  constructor; [assumption | now apply IH].
Qed.

End SplitJoin.

(** *** Reading a text-mode file *)

Section Reading.

Lemma universal_newlines_clean s r :
  lacks "013" s -> universal_newlines (s ++ r) = s ++ universal_newlines r.
Proof.
  induction s as [|c s IH]; intros H; [reflexivity|].
  apply lacks_cons in H as [H1 H2].
  cbn [app universal_newlines]. rewrite Ascii.eqb_sym, H1, (IH H2). reflexivity.
Qed.

Lemma universal_newlines_id s : lacks "013" s -> universal_newlines s = s.
Proof.
  intros H. rewrite <- (app_nil_r s) at 1.
  rewrite universal_newlines_clean by assumption. simpl. apply app_nil_r.
Qed.

(** What is read never holds a carriage return. *)
Lemma universal_newlines_lacks s : lacks "013" (universal_newlines s).
Proof.
  assert (G : forall n s, length s <= n -> lacks "013" (universal_newlines s)).
  { clear s. induction n as [|n IH]; intros [|c s] Hn; simpl in *;
      try reflexivity; try lia.
    destruct (Ascii.eqb_spec c "013") as [->|N].
    - apply lacks_cons; split; [reflexivity|].
      destruct s as [|c' s]; [reflexivity|].
      destruct (Ascii.eqb c' "010"); apply IH; simpl in *; lia.
    - apply lacks_cons; split.
      + apply Ascii.eqb_neq; congruence.
      + apply IH; lia. }
  now apply (G (length s)).
Qed.

Lemma readlines_line body rest :
  lacks "010" body ->
  readlines (body ++ "010" :: rest) = (body ++ ["010"]) :: readlines rest.
Proof.
  induction body as [|c body IH]; intros H; [reflexivity|].
  apply lacks_cons in H as [H1 H2].
  cbn [app readlines]. rewrite Ascii.eqb_sym, H1, (IH H2). reflexivity.
Qed.

(** A line that [readlines] yields has no line feed but at its end. *)
Lemma readlines_shape s :
  Forall (fun line => exists body,
            lacks "010" body /\ (line = body ++ ["010"] \/ line = body))
         (readlines s).
Proof.
  induction s as [|c s IH]; simpl; [constructor|].
  destruct (Ascii.eqb_spec c "010") as [->|N].
  - constructor; [|assumption]. exists []. split; [reflexivity | now left].
  - assert (Hc : Ascii.eqb "010" c = false) by (apply Ascii.eqb_neq; congruence).
    destruct (readlines s) as [|l ls].
    + constructor; [|constructor]. exists [c]. split; [|now right].
      apply lacks_cons; split; [assumption | reflexivity].
    + inversion IH as [|? ? (body & Hb & Hl) Hls]; subst.
      constructor; [|assumption]. exists (c :: body). split.
      * apply lacks_cons; split; assumption.
      * destruct Hl as [->| ->]; [now left | now right].
Qed.

End Reading.

(** *** [str] and [int] on integers *)

Section Integers.

Lemma digit_char_ok d :
  (0 <= d < 10)%Z ->
  is_digit (digit_char d) = true /\ digit_val (digit_char d) = d.
Proof.
  intros H.
  assert (C : (d = 0 \/ d = 1 \/ d = 2 \/ d = 3 \/ d = 4 \/ d = 5 \/ d = 6
              \/ d = 7 \/ d = 8 \/ d = 9)%Z) by lia.
  repeat (destruct C as [->|C]; [split; reflexivity|]). subst; split; reflexivity.
Qed.

Lemma digits_acc_digits ds : forall acc b,
  Forall (fun c => is_digit c = true) ds -> (ds <> [] \/ b = true) ->
  digits_acc acc b ds = Some (fold_left digit_step ds acc).
Proof.
  induction ds as [|c ds IH]; intros acc b Hd Hn; simpl.
  - destruct Hn as [Hn| ->]; [congruence | reflexivity].
  - inversion Hd; subst.
    match goal with h : is_digit c = true |- _ => rewrite h end.
    apply IH; [assumption | now right].
Qed.

Lemma dec_digits_value fuel : forall n,
  (0 <= n)%Z -> (Z.log2 n < Z.of_nat fuel)%Z ->
  Forall (fun c => is_digit c = true) (dec_digits fuel n)
  /\ dec_digits fuel n <> []
  /\ fold_left digit_step (dec_digits fuel n) 0%Z = n.
Proof.
  induction fuel as [|f IH]; intros n Hn Hf.
  - pose proof (Z.log2_nonneg n). lia.
  - simpl. destruct (Z.ltb_spec n 10) as [L|L].
    + destruct (digit_char_ok n) as [D V]; [lia|].
      split; [now repeat constructor|]. split; [discriminate|].
      simpl. unfold digit_step. rewrite V. lia.
    + assert (Hq : (0 < n / 10)%Z) by (apply Z.div_str_pos; lia).
      assert (Hlt : (Z.log2 (n / 10) < Z.log2 n)%Z).
      { apply Z.log2_lt_pow2; [assumption|].
        pose proof (Z.log2_spec n ltac:(lia)) as [_ Hu].
        rewrite Z.pow_succ_r in Hu by apply Z.log2_nonneg.
        apply Z.div_lt_upper_bound; lia. }
      destruct (IH (n / 10)%Z) as (D & N & V); [lia | lia |].
      destruct (digit_char_ok (n mod 10)) as [D' V'];
        [apply Z.mod_pos_bound; lia|].
      split; [apply Forall_app; split; [assumption | now repeat constructor]|].
      split; [destruct (dec_digits f (n / 10)); discriminate|].
      rewrite fold_left_app, V. simpl. unfold digit_step. rewrite V'.
      pose proof (Z.div_mod n 10 ltac:(lia)). lia.
Qed.

Lemma str_of_nonneg_ok n :
  (0 <= n)%Z ->
  Forall (fun c => is_digit c = true) (str_of_nonneg n)
  /\ str_of_nonneg n <> []
  /\ digits_acc 0 false (str_of_nonneg n) = Some n.
Proof.
  intros H. unfold str_of_nonneg.
  destruct (dec_digits_value (S (Z.to_nat (Z.log2 n))) n) as (D & N & V);
    [assumption | pose proof (Z.log2_nonneg n); lia |].
  split; [assumption|]. split; [assumption|].
  rewrite digits_acc_digits; [now rewrite V | assumption | now left].
Qed.

Lemma is_digit_props c :
  is_digit c = true ->
  is_space c = false /\ Ascii.eqb c "-" = false /\ Ascii.eqb c "+" = false
  /\ Ascii.eqb ":" c = false /\ Ascii.eqb "010" c = false
  /\ Ascii.eqb "013" c = false /\ Ascii.eqb "|" c = false.
Proof.
  destruct c as [[] [] [] [] [] [] [] []]; cbv; intros H;
    try discriminate H; repeat split; reflexivity.
Qed.

Lemma str_of_int_chars n :
  Forall (fun c => is_int_char c = true) (str_of_int n) /\ str_of_int n <> [].
Proof.
  unfold str_of_int. destruct (Z.ltb_spec n 0).
  - destruct (str_of_nonneg_ok (- n)%Z) as (D & _ & _); [lia|].
    split; [|discriminate]. constructor; [reflexivity|].
    eapply Forall_impl; [|exact D]. intros c Hc. unfold is_int_char. now rewrite Hc.
  - destruct (str_of_nonneg_ok n) as (D & N & _); [lia|].
    split; [|assumption].
    eapply Forall_impl; [|exact D]. intros c Hc. unfold is_int_char. now rewrite Hc.
Qed.

Lemma is_int_char_props c :
  is_int_char c = true ->
  is_space c = false /\ Ascii.eqb ":" c = false /\ Ascii.eqb "010" c = false
  /\ Ascii.eqb "013" c = false /\ Ascii.eqb "|" c = false.
Proof.
  destruct c as [[] [] [] [] [] [] [] []]; cbv; intros H;
    try discriminate H; repeat split; reflexivity.
Qed.

Lemma str_of_int_lacks c n :
  (forall x, is_int_char x = true -> Ascii.eqb c x = false) ->
  lacks c (str_of_int n).
Proof.
  intros Hc. destruct (str_of_int_chars n) as [H _].
  induction H as [|x l Hx _ IH]; [reflexivity|].
  apply lacks_cons; split; [now apply Hc | assumption].
Qed.

Lemma skip_c_spaces_fixed s :
  match s with [] => True | c :: _ => is_c_space c = false end ->
  skip_c_spaces s = s.
Proof. destruct s as [|c s]; [reflexivity|]. cbn. now intros ->. Qed.

Lemma c_strip_no_space s :
  Forall (fun c => is_c_space c = false) s -> c_strip s = s.
Proof.
  intros H. unfold c_strip.
  rewrite (skip_c_spaces_fixed s) by (destruct H; [exact I | assumption]).
  rewrite skip_c_spaces_fixed; [apply rev_involutive|].
  apply Forall_rev in H. destruct H; [exact I | assumption].
Qed.

Lemma is_int_char_c_space c : is_int_char c = true -> is_c_space c = false.
Proof.
  destruct c as [[] [] [] [] [] [] [] []]; cbv; intros H;
    try discriminate H; reflexivity.
Qed.

Lemma str_of_int_strip n : strip (str_of_int n) = str_of_int n.
Proof.
  apply strip_no_space. destruct (str_of_int_chars n) as [H _].
  eapply Forall_impl; [|exact H]. intros c Hc. now apply is_int_char_props.
Qed.

Lemma str_of_int_c_strip n : c_strip (str_of_int n) = str_of_int n.
Proof.
  apply c_strip_no_space. destruct (str_of_int_chars n) as [H _].
  eapply Forall_impl; [|exact H]. intros c Hc. now apply is_int_char_c_space.
Qed.

(** [int(str(n)) == n]. *)
Lemma int_of_str_of_int n : int_of_str (str_of_int n) = Some n.
Proof.
  unfold int_of_str. rewrite str_of_int_c_strip. unfold str_of_int.
  destruct (Z.ltb_spec n 0).
  - rewrite Ascii.eqb_refl.
    destruct (str_of_nonneg_ok (- n)%Z) as (_ & _ & V); [lia|].
    rewrite V. simpl. f_equal. lia.
  - destruct (str_of_nonneg_ok n) as (D & N & V); [lia|].
    destruct (str_of_nonneg n) as [|c t] eqn:E; [congruence|].
    inversion D; subst.
    match goal with h : is_digit c = true |- _ =>
      destruct (is_digit_props c h) as (_ & -> & -> & _) end.
    exact V.
Qed.

End Integers.

(** *** The stable sort *)

Section SortFacts.
Context {A : Type} (le : A -> A -> bool).
Hypothesis le_total : forall x y, le x y = false -> le y x = true.

Lemma insert_sorted_perm x l : Permutation (insert_sorted le x l) (x :: l).
Proof.
  induction l as [|y l IH]; simpl; [reflexivity|].
  destruct (le x y); [reflexivity|].
  rewrite IH. apply perm_swap.
Qed.

Lemma sorted_perm l : Permutation (sorted le l) l.
Proof.
  induction l as [|x l IH]; simpl; [reflexivity|].
  rewrite insert_sorted_perm. now constructor.
Qed.

Lemma sorted_length l : length (sorted le l) = length l.
Proof. apply Permutation_length, sorted_perm. Qed.

Lemma insert_sorted_Sorted x l : Sorted (fun x y => le x y = true) l ->
  Sorted (fun x y => le x y = true) (insert_sorted le x l).
Proof.
  induction 1 as [|y l Hl IH Hy]; simpl; [repeat constructor|].
  destruct (le x y) eqn:E.
  - constructor; [now constructor | now constructor].
  - constructor; [assumption|].
    destruct Hy as [|z l Hz]; simpl.
    + constructor. now apply le_total.
    + destruct (le x z); constructor; [now apply le_total | assumption].
Qed.

Lemma sorted_Sorted l : Sorted (fun x y => le x y = true) (sorted le l).
Proof.
  induction l as [|x l IH]; simpl; [constructor|].
  now apply insert_sorted_Sorted.
Qed.

Lemma sorted_id l : Sorted (fun x y => le x y = true) l -> sorted le l = l.
Proof.
  induction 1 as [|x l Hl IH Hx]; simpl; [reflexivity|].
  rewrite IH. destruct Hx as [|y l Hy]; simpl; [reflexivity|].
  cbv beta in Hy. now rewrite Hy.
Qed.

(** Stability: elements that [le] does not tell apart keep their order. *)
Section Stable.
Variable p : A -> bool.
Hypothesis p_le : forall x y, p x = true -> p y = true -> le x y = true.

Lemma filter_insert_sorted x l :
  filter p (insert_sorted le x l) = filter p (x :: l).
Proof.
  induction l as [|y l IH]; [reflexivity|].
  cbn [insert_sorted]. destruct (le x y) eqn:E; [reflexivity|].
  cbn [filter] in *. rewrite IH.
  destruct (p x) eqn:Px, (p y) eqn:Py; try reflexivity.
  rewrite (p_le x y Px Py) in E. discriminate.
Qed.

Lemma filter_sorted l : filter p (sorted le l) = filter p l.
Proof.
  induction l as [|x l IH]; [reflexivity|].
  cbn [sorted]. rewrite filter_insert_sorted. cbn [filter]. now rewrite IH.
Qed.
End Stable.
End SortFacts.

Section IndexFacts.

Lemma key_le_total x y : key_le x y = false -> key_le y x = true.
Proof. apply text_leb_total. Qed.

Lemma entries_of_sorted k idx : entries_of k (sorted key_le idx) = entries_of k idx.
Proof.
  apply filter_sorted. intros x y Hx Hy.
  apply text_eqb_eq in Hx, Hy. unfold key_le. rewrite Hx, Hy.
  apply text_leb_refl.
Qed.

Lemma entries_of_app k a b : entries_of k (a ++ b) = entries_of k a ++ entries_of k b.
Proof. apply filter_app. Qed.

Lemma find_position_entries k idx :
  find_position k idx = option_map snd (hd_error (entries_of k idx)).
Proof.
  induction idx as [|[k' pos] idx IH]; simpl; [reflexivity|].
  destruct (text_eqb k' k); [reflexivity | assumption].
Qed.

Lemma find_position_sorted k idx :
  find_position k (sorted key_le idx) = find_position k idx.
Proof. now rewrite !find_position_entries, entries_of_sorted. Qed.

Lemma find_entry_position k idx i :
  option_map snd (find_entry k i idx) = find_position k idx.
Proof.
  revert i; induction idx as [|[k' pos] idx IH]; intros i; simpl; [reflexivity|].
  destruct (text_eqb k' k); [reflexivity | apply IH].
Qed.

Lemma find_position_None k idx :
  find_position k idx = None <-> ~ In k (map fst idx).
Proof.
  induction idx as [|[k' pos] idx IH]; simpl; [tauto|].
  destruct (text_eqb_spec k' k) as [->|N].
  - split; [discriminate | tauto].
  - rewrite IH. tauto.
Qed.

Lemma entries_of_fresh k idx : ~ In k (map fst idx) -> entries_of k idx = [].
Proof.
  induction idx as [|[k' pos] idx IH]; simpl; intros H; [reflexivity|].
  destruct (text_eqb_spec k' k) as [->|N]; [tauto|]. apply IH. tauto.
Qed.

(** The loops of the service that search the index stop at the first
    entry of the key. *)
Lemma find_car_loop_eq vin idx fs :
  find_car_loop vin idx fs =
  match find_position vin idx with
  | Some pos => (record <- _read_record cars_file pos ;; ret (Some record)) fs
  | None => (Return None, fs)
  end.
Proof.
  induction idx as [|[v pos] idx IH]; simpl; [reflexivity|].
  destruct (text_eqb v vin); [reflexivity | assumption].
Qed.

Lemma update_car_status_loop_eq vin status idx fs :
  update_car_status_loop vin status idx fs =
  match find_position vin idx with
  | Some pos =>
      (record <- _read_record cars_file pos ;;
       let fields := split "|" 4 record in
       if (length fields =? 5)%nat then
         _write_record cars_file pos
           (_format_record (join "|" (list_set 4 status fields)))
       else ret tt) fs
  | None => (Return tt, fs)
  end.
Proof.
  induction idx as [|[v pos] idx IH]; simpl; [reflexivity|].
  destruct (text_eqb v vin); [reflexivity | assumption].
Qed.

End IndexFacts.

(** *** Writing an index file and reading it back *)

Section IndexFile.

Lemma readlines_lacks c s : lacks c s -> Forall (lacks c) (readlines s).
Proof.
  induction s as [|x s IH]; simpl; intros H; [constructor|].
  apply lacks_cons in H as [H1 H2]. specialize (IH H2).
  destruct (Ascii.eqb x "010").
  - constructor; [|assumption]. apply lacks_cons; split; [assumption | reflexivity].
  - destruct (readlines s) as [|l ls].
    + constructor; [|constructor]. apply lacks_cons; split; [assumption | reflexivity].
    + inversion IH; subst. constructor; [|assumption].
      apply lacks_cons; split; assumption.
Qed.

Lemma strip_line_feed body : strip (body ++ ["010"]) = strip body.
Proof.
  unfold strip. rewrite <- !lstrip_rstrip_comm.
  now rewrite rstrip_app_empty by reflexivity.
Qed.

Lemma lstrip_fixed_app k t :
  lstrip k = k -> (k = [] -> lstrip t = t) -> lstrip (k ++ t) = k ++ t.
Proof.
  destruct k as [|c k]; simpl; intros H Ht; [now apply Ht|].
  destruct (is_space c) eqn:E; [|reflexivity].
  exfalso. pose proof (lstrip_head k) as Hh. rewrite H in Hh. congruence.
Qed.

(** The key read from a line of an index file is well formed. *)
Lemma line_key_ok line body key pos_str :
  lacks "013" line -> lacks "010" body ->
  line = body ++ ["010"] \/ line = body ->
  split ":" 1 (strip line) = [key; pos_str] -> key_ok key.
Proof.
  intros Hcr Hlf Hshape Hsplit.
  assert (Hs : strip line = strip body)
    by (destruct Hshape as [->| ->]; [apply strip_line_feed | reflexivity]).
  assert (Hcr' : lacks "013" body).
  { destruct Hshape as [->| ->]; [|assumption]. now apply lacks_app in Hcr. }
  rewrite Hs in Hsplit. cbn [split] in Hsplit.
  destruct (partition_at ":" (strip body)) as [[a b]|] eqn:E; [|discriminate].
  inversion Hsplit; subst a b.
  apply partition_at_Some in E as [E Hcolon].
  pose proof (strip_lacks _ _ Hlf) as H1. pose proof (strip_lacks _ _ Hcr') as H2.
  rewrite E in H1, H2. apply lacks_app in H1 as [H1 _], H2 as [H2 _].
  repeat split; try assumption.
  pose proof (lstrip_head (rstrip body)) as Hh.
  rewrite lstrip_rstrip_comm in Hh. fold (strip body) in Hh. rewrite E in Hh.
  destruct key as [|c key]; [reflexivity|]. simpl in *. now rewrite Hh.
Qed.

Lemma parse_lines_keys_ok lines : forall acc idx,
  Forall (lacks "013") lines ->
  Forall (fun line => exists body,
            lacks "010" body /\ (line = body ++ ["010"] \/ line = body)) lines ->
  Forall key_ok (map fst acc) ->
  parse_lines lines acc = Return idx -> Forall key_ok (map fst idx).
Proof.
  induction lines as [|line lines IH]; intros acc idx Hcr Hsh Hacc H;
    cbn [parse_lines] in H.
  - now inversion H; subst.
  - inversion Hcr; subst. inversion Hsh as [|? ? (body & Hb & Hl) Hsh']; subst.
    destruct (contains ":" line); [|now apply (IH acc)].
    destruct (split ":" 1 (strip line)) as [|key [|pos_str [|? ?]]] eqn:S;
      try (cbv iota in H; discriminate H).
    destruct (int_of_str pos_str) as [pos|]; [|discriminate].
    apply (IH (acc ++ [(key, pos)])); try assumption.
    rewrite map_app. apply Forall_app; split; [assumption|].
    constructor; [|constructor]. simpl. eapply line_key_ok; eauto.
Qed.

Lemma sorted_keys_ok idx :
  Forall key_ok (map fst idx) -> Forall key_ok (map fst (sorted key_le idx)).
Proof.
  intros H. eapply Permutation_Forall; [|exact H].
  apply Permutation_map, Permutation_sym, sorted_perm.
Qed.

(** Every key of a loaded index is well formed. *)
Lemma load_index_keys_ok p fs idx fs' :
  _load_index p fs = (Return idx, fs') -> Forall key_ok (map fst idx).
Proof.
  unfold _load_index. intros H.
  destruct (parse_lines _ []) as [parsed|e] eqn:E; inversion H; subst.
  apply sorted_keys_ok.
  eapply (parse_lines_keys_ok _ []); [| |constructor|exact E].
  - apply readlines_lacks, universal_newlines_lacks.
  - apply readlines_shape.
Qed.

Lemma load_index_state p fs o fs' : _load_index p fs = (o, fs') -> fs' = fs.
Proof.
  unfold _load_index. destruct (parse_lines _ _); intros H; now inversion H.
Qed.

Lemma index_line_shape k pos :
  key_ok k ->
  let body := k ++ ":" :: str_of_int pos in
  index_line (k, pos) = body ++ ["010"]
  /\ lacks "010" body /\ lacks "013" body
  /\ contains ":" (body ++ ["010"]) = true
  /\ strip (body ++ ["010"]) = body
  /\ split ":" 1 body = [k; str_of_int pos].
Proof.
  intros (Hc & Hlf & Hcr & Hl) body. subst body.
  split; [unfold index_line; simpl; now rewrite <- app_assoc|].
  split; [|split; [|split; [|split]]].
  - apply lacks_app; split; [assumption|]. apply lacks_cons; split; [reflexivity|].
    apply str_of_int_lacks. intros x Hx. now apply is_int_char_props.
  - apply lacks_app; split; [assumption|]. apply lacks_cons; split; [reflexivity|].
    apply str_of_int_lacks. intros x Hx. now apply is_int_char_props.
  - apply contains_In. apply in_or_app; left. apply in_or_app; right. now left.
  - rewrite strip_line_feed. unfold strip.
    rewrite lstrip_fixed_app by (assumption || reflexivity).
    apply rstrip_app_fixed; [discriminate|].
    apply rstrip_cons_fixed; [reflexivity|].
    pose proof (str_of_int_strip pos) as S. now apply stripped_rstrip.
  - cbn [split]. now rewrite partition_at_app.
Qed.

Lemma parse_lines_saved idx : forall acc,
  Forall key_ok (map fst idx) ->
  parse_lines (readlines (universal_newlines (flat_map index_line idx))) acc
  = Return (acc ++ idx).
Proof.
  induction idx as [|[k pos] idx IH]; intros acc H; simpl.
  - now rewrite app_nil_r.
  - inversion H; subst.
    destruct (index_line_shape k pos) as (E & Hlf & Hcr & Hin & Hs & Hsp);
      [assumption|].
    rewrite E, <- app_assoc. cbn [app].
    rewrite universal_newlines_clean by assumption.
    cbn [universal_newlines]. change (Ascii.eqb "010" "013") with false. cbv iota.
    rewrite readlines_line by assumption.
    cbn [parse_lines]. rewrite Hin, Hs, Hsp, int_of_str_of_int.
    rewrite IH by assumption. now rewrite <- app_assoc.
Qed.

(** Loading the file that [_save_index] wrote gives the saved entries. *)
Lemma load_saved_index p idx fs :
  Forall key_ok (map fst idx) ->
  _load_index p (setf p (flat_map index_line idx) fs)
  = (Return (sorted key_le idx), setf p (flat_map index_line idx) fs).
Proof.
  intros H. unfold _load_index.
  replace (getf p (setf p (flat_map index_line idx) fs))
    with (flat_map index_line idx) by (destruct p; reflexivity).
  now rewrite parse_lines_saved.
Qed.

End IndexFile.

(** *** The record store *)

Section RecordStore.

Lemma format_record_length data :
  length (_format_record data) = Nat.max (length data) RECORD_SIZE + 1.
Proof.
  unfold _format_record, ljust, RECORD_SIZE.
  rewrite !length_app, repeat_length. cbn [length]. lia.
Qed.

Lemma format_record_fits data :
  length data <= RECORD_SIZE -> length (_format_record data) = RECORD_SIZE_WITH_NL.
Proof.
  intros H. rewrite format_record_length. unfold RECORD_SIZE_WITH_NL, RECORD_SIZE in *. lia.
Qed.

Lemma write_at_length off data file :
  length (write_at off data file) = Nat.max (off + length data) (length file).
Proof.
  unfold write_at. rewrite !length_app, length_firstn, repeat_length, length_skipn. lia.
Qed.

Lemma write_at_prefix_length off (file : text) :
  length (firstn off file ++ repeat "000" (off - length file)) = off.
Proof. rewrite length_app, length_firstn, repeat_length. lia. Qed.

Lemma skipn_write_at off data file :
  skipn off (write_at off data file) = data ++ skipn (off + length data) file.
Proof.
  unfold write_at. rewrite app_assoc.
  rewrite skipn_app, write_at_prefix_length, Nat.sub_diag. cbn [skipn].
  rewrite skipn_all2; [reflexivity | rewrite write_at_prefix_length; lia].
Qed.

(** A write leaves what lies behind it as it was. *)
Lemma skipn_write_at_after off data file n :
  off + length data <= n -> skipn n (write_at off data file) = skipn n file.
Proof.
  intros H. replace n with ((n - off) + off) at 1 by lia.
  rewrite <- skipn_skipn, skipn_write_at.
  rewrite skipn_app.
  rewrite (skipn_all2 data) by lia. cbn [app].
  rewrite skipn_skipn. f_equal. lia.
Qed.

Lemma read_slot_written file position data :
  (0 <= position)%Z -> length data <= RECORD_SIZE -> lacks "013" data ->
  read_slot (write_at (slot_offset position) (_format_record data) file) position
  = rstrip data.
Proof.
  intros Hp Hl Hcr. unfold read_slot. rewrite skipn_write_at.
  unfold _format_record, ljust. rewrite <- !app_assoc.
  rewrite universal_newlines_clean by assumption.
  rewrite universal_newlines_clean by (apply lacks_repeat; discriminate).
  rewrite app_assoc, firstn_app.
  replace (RECORD_SIZE - length (data ++ repeat " " (RECORD_SIZE - length data)))
    with 0 by (rewrite length_app, repeat_length; lia).
  rewrite firstn_all2 by (rewrite length_app, repeat_length; lia).
  cbn [firstn]. rewrite app_nil_r.
  apply rstrip_app_empty, rstrip_repeat_space.
Qed.

Lemma read_slot_after file position data position' :
  (0 <= position < position')%Z -> length data <= RECORD_SIZE ->
  read_slot (write_at (slot_offset position) (_format_record data) file) position'
  = read_slot file position'.
Proof.
  intros Hp Hl. unfold read_slot. rewrite skipn_write_at_after; [reflexivity|].
  rewrite format_record_fits by assumption. unfold slot_offset.
  assert (Z.to_nat position < Z.to_nat position') by lia.
  unfold RECORD_SIZE_WITH_NL. nia.
Qed.

(** A record that was read has no carriage return, no trailing
    whitespace, and fits a slot. *)
Lemma read_slot_clean file position :
  let r := read_slot file position in
  lacks "013" r /\ rstrip r = r /\ length r <= RECORD_SIZE.
Proof.
  unfold read_slot. split; [|split].
  - apply rstrip_lacks.
    pose proof (universal_newlines_lacks (skipn (slot_offset position) file)) as H.
    rewrite <- (firstn_skipn RECORD_SIZE) in H. now apply lacks_app in H.
  - apply rstrip_idem.
  - etransitivity; [apply rstrip_length|]. rewrite length_firstn. lia.
Qed.

Lemma getf_setf_same p v fs : getf p (setf p v fs) = v.
Proof. destruct p; reflexivity. Qed.

Lemma getf_setf_other p q v fs : p <> q -> getf p (setf q v fs) = getf p fs.
Proof. destruct p, q; congruence || reflexivity. Qed.

Lemma load_index_eq p fs : _load_index p fs = (index_of_text (getf p fs), fs).
Proof.
  unfold _load_index, index_of_text. now destruct (parse_lines _ _).
Qed.

Lemma read_record_eq p position fs :
  (0 <= position)%Z ->
  _read_record p position fs = (Return (read_slot (getf p fs) position), fs).
Proof.
  intros H. unfold _read_record.
  destruct (Z.ltb_spec position 0); [lia | reflexivity].
Qed.

Lemma write_record_eq p position record fs :
  (0 <= position)%Z ->
  _write_record p position record fs
  = (Return tt, setf p (write_at (slot_offset position) record (getf p fs)) fs).
Proof.
  intros H. unfold _write_record.
  destruct (Z.ltb_spec position 0); [lia | reflexivity].
Qed.

Lemma index_of_text_saved idx :
  Forall key_ok (map fst idx) ->
  index_of_text (text_of_index idx) = Return (sorted key_le idx).
Proof.
  intros H. unfold index_of_text, text_of_index. now rewrite parse_lines_saved.
Qed.

Lemma index_of_text_keys_ok file idx :
  index_of_text file = Return idx -> Forall key_ok (map fst idx).
Proof.
  intros H. apply (load_index_keys_ok models_index_file (mkFS [] file [] [] [] []) idx
                     (mkFS [] file [] [] [] [])).
  rewrite load_index_eq. cbn [getf fs_models_index]. now rewrite H.
Qed.

Lemma index_of_text_Sorted file idx :
  index_of_text file = Return idx -> keys_sorted idx.
Proof.
  unfold index_of_text. destruct (parse_lines _ _); intros H; inversion H; subst.
  apply sorted_Sorted, key_le_total.
Qed.

End RecordStore.

(** ** Running the methods *)

Section Running.

Lemma bind_return {A B} (c : M A) (k : A -> M B) fs a fs' :
  c fs = (Return a, fs') -> bind c k fs = k a fs'.
Proof. unfold bind. now intros ->. Qed.

Lemma bind_raise {A B} (c : M A) (k : A -> M B) fs e fs' :
  c fs = (Raise e, fs') -> bind c k fs = (Raise e, fs').
Proof. unfold bind. now intros ->. Qed.

Lemma range_nonneg n : Forall (fun pos => (0 <= pos)%Z) (range n).
Proof. unfold range. apply Forall_map, Forall_forall. intros; lia. Qed.

Lemma range_ascending n : StronglySorted Z.lt (range n).
Proof.
  unfold range. generalize 0. induction n as [|n IH]; intros k; simpl; constructor.
  - apply IH.
  - apply Forall_map, Forall_forall. intros x Hx. apply in_seq in Hx. lia.
Qed.

End Running.

(** ** The scan of [get_cars] *)

Section StatusFilter.

(** A record is blank when it has nothing but whitespace; such a record
    has no separator and decodes to nothing. *)
Lemma strip_nil_lacks c s : strip s = [] -> is_space c = false -> lacks c s.
Proof.
  unfold strip. intros H Hc.
  induction s as [|x s IH]; [reflexivity|].
  cbn [lstrip] in H. destruct (is_space x) eqn:E.
  - apply lacks_cons; split; [|now apply IH].
    apply Ascii.eqb_neq. intros ->. congruence.
  - exfalso. pose proof (rstrip_cons_nonspace x s E). congruence.
Qed.

Lemma decode_blank record : strip record = [] -> decode_car record = None.
Proof.
  intros H. unfold decode_car. cbn [split].
  now rewrite (partition_at_None "|" record) by (now apply strip_nil_lacks).
Qed.

Lemma split_five record :
  (length (split "|" 4 record) =? 5)%nat = true ->
  exists f0 f1 f2 f3 f4, split "|" 4 record = [f0; f1; f2; f3; f4].
Proof.
  intros H. apply Nat.eqb_eq in H.
  destruct (split "|" 4 record) as [|f0 [|f1 [|f2 [|f3 [|f4 [|? ?]]]]]];
    try discriminate. now exists f0, f1, f2, f3, f4.
Qed.

(** One turn of the scan adds the car of the slot when its status is the
    one asked for. *)
Lemma get_cars_step_eq status pos cars fs :
  (0 <= pos)%Z ->
  get_cars_step status pos cars fs
  = (Return (cars ++ map snd
       (filter (fun pc => text_eqb (Car.status (snd pc)) status)
          match decode_car (read_slot (fs_cars fs) pos) with
          | Some c => [(pos, c)]
          | None => []
          end)), fs).
Proof.
  intros Hp. unfold get_cars_step.
  rewrite (bind_return _ _ _ _ _ (read_record_eq cars_file pos fs Hp)).
  cbn [getf]. set (record := read_slot (fs_cars fs) pos).
  destruct (strip record) eqn:Es.
  - rewrite decode_blank by assumption. cbn. now rewrite app_nil_r.
  - clear Es. unfold decode_car.
    destruct (length (split "|" 4 record) =? 5)%nat eqn:El.
    + destruct (split_five record El) as (f0 & f1 & f2 & f3 & f4 & ->).
      cbn [nth andb filter snd Car.status map].
      destruct (text_eqb (strip f4) status); cbn [map snd]; [reflexivity|].
      now rewrite app_nil_r.
    + cbn [andb]. apply Nat.eqb_neq in El.
      destruct (split "|" 4 record) as [|f0 [|f1 [|f2 [|f3 [|f4 [|? ?]]]]]];
        cbn [filter map]; rewrite ?app_nil_r; try reflexivity.
      cbn [length] in El. congruence.
Qed.

Lemma get_cars_scan status fs : forall positions cars,
  Forall (fun pos => (0 <= pos)%Z) positions ->
  for_each positions (get_cars_step status) cars fs
  = (Return (cars ++ map snd
       (filter (fun pc => text_eqb (Car.status (snd pc)) status)
          (flat_map (fun pos => match decode_car (read_slot (fs_cars fs) pos) with
                                | Some c => [(pos, c)]
                                | None => []
                                end) positions))), fs).
Proof.
  induction positions as [|pos positions IH]; intros cars H; cbn [for_each flat_map].
  - cbn. now rewrite app_nil_r.
  - inversion H; subst.
    rewrite (bind_return _ _ _ _ _ (get_cars_step_eq status pos cars fs ltac:(assumption))).
    rewrite IH by assumption.
    now rewrite filter_app, map_app, app_assoc.
Qed.

Lemma flat_map_sorted_fst {B} (f : Z -> option B) (l : list Z) :
  StronglySorted Z.lt l ->
  StronglySorted Z.lt
    (map fst (flat_map (fun pos => match f pos with
                                   | Some c => [(pos, c)]
                                   | None => []
                                   end) l)).
Proof.
  induction 1 as [|x l Hl IH Hx]; cbn [flat_map map]; [constructor|].
  destruct (f x); cbn [app map fst]; [|assumption].
  constructor; [assumption|].
  apply Forall_forall. intros y Hy. apply in_map_iff in Hy as ([p c] & <- & Hin).
  apply in_flat_map in Hin as (z & Hz & Hin).
  destruct (f z); [|contradiction]. destruct Hin as [Hin|[]]. inversion Hin; subst.
  cbn. rewrite Forall_forall in Hx. now apply Hx.
Qed.

Lemma filter_sorted_fst {B} (p : Z * B -> bool) (l : list (Z * B)) :
  StronglySorted Z.lt (map fst l) -> StronglySorted Z.lt (map fst (filter p l)).
Proof.
  induction l as [|x l IH]; cbn [filter map]; intros H; [constructor|].
  inversion H; subst. destruct (p x); cbn [map]; [|now apply IH].
  constructor; [now apply IH|].
  apply Forall_forall. intros y Hy. apply in_map_iff in Hy as (z & <- & Hz).
  apply filter_In in Hz as [Hz _].
  match goal with h : Forall _ (map fst l) |- _ => rewrite Forall_forall in h; apply h end.
  now apply in_map.
Qed.

End StatusFilter.

(** ** The specified properties *)

(** C7.  Status filter: for every status and every state of the cars file,
    [get_cars] returns, without failing and without touching any file, the
    cars of [list_by_status]: the cars of the slots [0 .. slot_count - 1]
    whose stored record decodes and whose decoded status is the status
    asked for, each slot once, in ascending order of the slots.  The scan
    reads the data file slot by slot; it never loads the index. *)
Theorem get_cars_status_filter (status : text) (fs : FS) :
  get_cars status fs
    = (Return (map snd (list_by_status (fs_cars fs) status)), fs)
  /\ StronglySorted Z.lt (map fst (list_by_status (fs_cars fs) status))
  /\ (forall pos c,
        In (pos, c) (list_by_status (fs_cars fs) status) <->
        (0 <= pos < Z.of_nat (slot_count (fs_cars fs)))%Z
        /\ decode_car (read_slot (fs_cars fs) pos) = Some c
        /\ Car.status c = status).
Proof.
  split; [|split].
  - unfold get_cars, list_by_status, cars_by_slot, slot_count. cbn [getf].
    destruct (length (fs_cars fs) =? 0)%nat eqn:E.
    + apply Nat.eqb_eq in E. rewrite E. reflexivity.
    + rewrite get_cars_scan by apply range_nonneg. reflexivity.
  - unfold list_by_status, cars_by_slot.
    apply filter_sorted_fst.
    apply (flat_map_sorted_fst (fun pos => decode_car (read_slot (fs_cars fs) pos))).
    apply range_ascending.
  - intros pos c. unfold list_by_status, cars_by_slot.
    rewrite filter_In, in_flat_map. cbn [snd]. rewrite text_eqb_eq.
    split.
    + intros [(x & Hx & Hin) Hs].
      destruct (decode_car (read_slot (fs_cars fs) x)) eqn:D; [|contradiction].
      destruct Hin as [Hin|[]]. inversion Hin; subst.
      unfold range in Hx. apply in_map_iff in Hx as (n & <- & Hn).
      apply in_seq in Hn. repeat split; try lia. assumption.
    + intros (Hp & D & Hs). split; [|assumption].
      exists pos. split.
      * unfold range. apply in_map_iff. exists (Z.to_nat pos).
        split; [lia|]. apply in_seq. lia.
      * rewrite D. now left.
Qed.

(** ** Adding a car and finding it *)

Section AddAndFind.

Lemma stripped_lstrip s : stripped s -> lstrip s = s.
Proof.
  unfold stripped, strip. intros H.
  pose proof (lstrip_head (rstrip s)) as Hh.
  rewrite lstrip_rstrip_comm, H in Hh.
  destruct s as [|c s]; [reflexivity|]. cbn [lstrip]. now rewrite Hh.
Qed.

Lemma vin_ok_key_ok v : vin_ok v -> key_ok v.
Proof.
  intros (Hc & Hlf & _ & Hcr & Hs). repeat split; try assumption.
  now apply stripped_lstrip.
Qed.

Lemma add_car_eq car fs idx :
  index_of_text (fs_cars_index fs) = Return idx ->
  add_car car fs = (Return car, fs_add_car car idx fs).
Proof.
  intros Hload. unfold add_car.
  rewrite (bind_return _ _ fs (Z.of_nat (slot_count (fs_cars fs))) fs) by reflexivity.
  erewrite bind_return by (apply write_record_eq; lia).
  erewrite bind_return
    by (rewrite load_index_eq; cbn [getf setf fs_cars_index]; rewrite Hload; reflexivity).
  reflexivity.
Qed.

Lemma find_position_insert idx key position k :
  find_position k (index_insert idx key position)
  = match find_position k idx with
    | Some p => Some p
    | None => if text_eqb key k then Some position else None
    end.
Proof.
  unfold index_insert. rewrite find_position_sorted, !find_position_entries.
  rewrite entries_of_app. cbn [entries_of filter fst].
  destruct (entries_of k idx); [|reflexivity].
  cbn [app]. destruct (text_eqb key k); reflexivity.
Qed.

Lemma index_insert_keys_ok idx key position :
  Forall key_ok (map fst idx) -> key_ok key ->
  Forall key_ok (map fst (index_insert idx key position)).
Proof.
  intros H Hk. apply sorted_keys_ok. rewrite map_app.
  apply Forall_app; split; [assumption|]. constructor; [assumption | constructor].
Qed.

Lemma find_car_by_vin_eq vin fs idx :
  index_of_text (fs_cars_index fs) = Return idx ->
  _find_car_by_vin vin fs
  = match find_position vin idx with
    | Some pos =>
        if (pos <? 0)%Z then (Raise (NegativeSeek pos), fs)
        else (Return (Some (read_slot (fs_cars fs) pos)), fs)
    | None => (Return None, fs)
    end.
Proof.
  intros Hload. unfold _find_car_by_vin.
  erewrite bind_return by (rewrite load_index_eq; cbn [getf]; rewrite Hload; reflexivity).
  rewrite find_car_loop_eq. destruct (find_position vin idx) as [pos|]; [|reflexivity].
  unfold bind, _read_record. destruct (pos <? 0)%Z; reflexivity.
Qed.

Lemma decode_car_nonempty data c : decode_car data = Some c -> data <> [].
Proof. intros H ->. discriminate H. Qed.

Lemma get_car_by_vin_eq vin fs data c :
  _find_car_by_vin vin fs = (Return (Some data), fs) ->
  decode_car data = Some c ->
  _get_car_by_vin vin fs = (Return c, fs).
Proof.
  intros Hfind Hdec. unfold _get_car_by_vin. rewrite (bind_return _ _ _ _ _ Hfind).
  pose proof (decode_car_nonempty _ _ Hdec) as N.
  destruct data as [|x data]; [congruence|].
  unfold decode_car in Hdec.
  destruct (split "|" 4 (x :: data)) as [|f0 [|f1 [|f2 [|f3 [|f4 [|? ?]]]]]];
    try discriminate.
  inversion Hdec; subst. reflexivity.
Qed.

(** The record of a sound car is read back and decoded as the car. *)
Lemma car_data_clean car :
  car_ok car ->
  lacks "013" (car_data car) /\ rstrip (car_data car) = car_data car
  /\ decode_car (car_data car) = Some car.
Proof.
  destruct car as [vin model price date_start status].
  intros ((_ & _ & Hv1 & Hv2 & Hv3) & (Hm1 & Hm2 & Hm3) & (Hp1 & Hp2 & Hp3)
          & (Hd1 & Hd2 & Hd3) & Hs2 & Hs3 & _).
  unfold car_data; cbn [Car.vin Car.model Car.price Car.date_start Car.status] in *.
  split; [|split].
  - repeat (apply lacks_app; split; [assumption|];
            apply lacks_cons; split; [reflexivity|]). assumption.
  - repeat (apply rstrip_app_fixed; [discriminate|];
            apply rstrip_cons_fixed; [reflexivity|]).
    now apply stripped_rstrip.
  - unfold decode_car.
    change (vin ++ "|" :: model ++ "|" :: price ++ "|" :: date_start ++ "|" :: status)
      with (join "|" [vin; model; price; date_start; status]).
    rewrite split_join by (reflexivity || now repeat constructor).
    unfold stripped in *. now rewrite Hv3, Hm3, Hp3, Hd3, Hs3.
Qed.

End AddAndFind.

Lemma load_index_inv p fs idx fs' :
  _load_index p fs = (Return idx, fs') -> index_of_text (getf p fs) = Return idx.
Proof. rewrite load_index_eq. now intros [= -> _]. Qed.

Lemma fs_add_car_files car idx fs :
  fs_cars (fs_add_car car idx fs) = append_record (fs_cars fs) (car_data car)
  /\ fs_cars_index (fs_add_car car idx fs)
     = text_of_index
         (index_insert idx (Car.vin car) (Z.of_nat (slot_count (fs_cars fs))))
  /\ fs_models (fs_add_car car idx fs) = fs_models fs
  /\ fs_models_index (fs_add_car car idx fs) = fs_models_index fs
  /\ fs_sales (fs_add_car car idx fs) = fs_sales fs
  /\ fs_sales_index (fs_add_car car idx fs) = fs_sales_index fs.
Proof. repeat split. Qed.

(** After [add_car] of a sound car, the index loads, and the slot of the
    car holds its record. *)
Lemma fs_add_car_loaded car idx fs :
  index_of_text (fs_cars_index fs) = Return idx -> car_ok car ->
  index_of_text (fs_cars_index (fs_add_car car idx fs))
    = Return (index_insert idx (Car.vin car) (Z.of_nat (slot_count (fs_cars fs))))
  /\ read_slot (fs_cars (fs_add_car car idx fs)) (Z.of_nat (slot_count (fs_cars fs)))
     = car_data car.
Proof.
  intros Hload Hok.
  destruct (fs_add_car_files car idx fs) as (-> & -> & _).
  destruct (car_data_clean car Hok) as (Hcr & Hrs & _).
  split.
  - rewrite index_of_text_saved.
    + f_equal. apply sorted_id, sorted_Sorted, key_le_total.
    + apply index_insert_keys_ok; [now apply (index_of_text_keys_ok _ _ Hload)|].
      apply vin_ok_key_ok, Hok.
  - unfold append_record. rewrite read_slot_written; try assumption; [lia|].
    apply Hok.
Qed.

(** C3, inputs that refute it.  The car whose record has 501 characters
    is added to the empty repository and returned; the lookup by its vin
    then returns a car whose status is empty, not the status "s" that was
    added.  The car with the vin "AB:CD" is added and returned; the lookup
    by its vin then raises the [ValueError] of [int] on "CD:0" while it
    loads the index. *)
Lemma add_car_round_trip_broken_by_car :
  (let fs := snd (add_car long_car empty_fs) in
   fst (add_car long_car empty_fs) = Return long_car
   /\ Car.status long_car = txt "s"
   /\ _get_car_by_vin (Car.vin long_car) fs
      = (Return (Car.mk (Car.vin long_car) (txt "m") (txt "1") (txt "d") []), fs))
  /\ (let fs := snd (add_car colon_car empty_fs) in
      fst (add_car colon_car empty_fs) = Return colon_car
      /\ _get_car_by_vin (Car.vin colon_car) fs
         = (Raise (IntValueError (txt "CD:0")), fs)).
Proof. vm_compute. repeat split; reflexivity. Qed.

(** C3, amended.  Round trip: when the cars index loads, the vin of the car is not
    in it, and the car is one the format can hold (its fields have no
    separator, no carriage return and no whitespace around them, its vin
    is a sound index key, and its record fits the 500 characters of a
    slot), [add_car] returns the car, and a lookup by its vin in the state
    it leaves reads the record of the car and decodes it to a car with the
    same vin, model, price, date_start and status. *)
Theorem add_car_round_trip (car : Car.t) (fs : FS) (idx : index_t) :
  _load_index cars_index_file fs = (Return idx, fs) ->
  ~ In (Car.vin car) (map fst idx) ->
  car_ok car ->
  exists fs',
    add_car car fs = (Return car, fs')
    /\ _find_car_by_vin (Car.vin car) fs' = (Return (Some (car_data car)), fs')
    /\ _get_car_by_vin (Car.vin car) fs' = (Return car, fs').
Proof.
  intros Hload Hfresh Hok. apply load_index_inv in Hload. cbn [getf] in Hload.
  exists (fs_add_car car idx fs).
  destruct (fs_add_car_loaded car idx fs Hload Hok) as [Hidx Hrec].
  assert (Hfind : _find_car_by_vin (Car.vin car) (fs_add_car car idx fs)
                  = (Return (Some (car_data car)), fs_add_car car idx fs)).
  { rewrite (find_car_by_vin_eq _ _ _ Hidx), find_position_insert.
    apply find_position_None in Hfresh. rewrite Hfresh, text_eqb_refl.
    destruct (Z.ltb_spec (Z.of_nat (slot_count (fs_cars fs))) 0); [lia|].
    now rewrite Hrec. }
  split; [now apply add_car_eq|]. split; [assumption|].
  apply (get_car_by_vin_eq _ _ _ _ Hfind). now apply car_data_clean.
Qed.

Lemma sample_car_ok : car_ok sample_car.
Proof. unfold car_ok, vin_ok, field_ok, lacks, stripped. decide_ok. Qed.

Lemma add_car_round_trip_witness :
  exists fs',
    add_car sample_car empty_fs = (Return sample_car, fs')
    /\ _find_car_by_vin (Car.vin sample_car) fs'
       = (Return (Some (car_data sample_car)), fs')
    /\ _get_car_by_vin (Car.vin sample_car) fs' = (Return sample_car, fs').
Proof.
  apply (add_car_round_trip sample_car empty_fs []).
  - reflexivity.
  - intros [].
  - exact sample_car_ok.
Defined.

(** ** Computations that only read *)

Section ReadOnly.

Lemma read_only_ret {A} (a : A) : read_only (ret a).
Proof. intros fs; reflexivity. Qed.

Lemma read_only_raise {A} e : read_only (@raise A e).
Proof. intros fs; reflexivity. Qed.

Lemma read_only_bind {A B} (c : M A) (k : A -> M B) :
  read_only c -> (forall a, read_only (k a)) -> read_only (bind c k).
Proof.
  intros Hc Hk fs. unfold bind. specialize (Hc fs).
  destruct (c fs) as [[a|e] fs']; cbn [snd] in *; subst; [apply Hk | reflexivity].
Qed.

Lemma read_only_load_index p : read_only (_load_index p).
Proof. intros fs. now rewrite load_index_eq. Qed.

Lemma read_only_read_record p pos : read_only (_read_record p pos).
Proof. intros fs. unfold _read_record. now destruct (pos <? 0)%Z. Qed.

Lemma read_only_field_strip fields i : read_only (field_strip fields i).
Proof.
  unfold field_strip. destruct (nth_error fields i);
    [apply read_only_ret | apply read_only_raise].
Qed.

Lemma read_only_find_car_loop vin idx : read_only (find_car_loop vin idx).
Proof.
  induction idx as [|[v pos] idx IH]; cbn [find_car_loop]; [apply read_only_ret|].
  destruct (text_eqb v vin); [|assumption].
  apply read_only_bind; [apply read_only_read_record|].
  intros; apply read_only_ret.
Qed.

Lemma read_only_find_car_by_vin vin : read_only (_find_car_by_vin vin).
Proof.
  apply read_only_bind; [apply read_only_load_index|].
  intros; apply read_only_find_car_loop.
Qed.

Lemma read_only_get_car_by_vin vin : read_only (_get_car_by_vin vin).
Proof.
  apply read_only_bind; [apply read_only_find_car_by_vin|].
  intros [[|x data]|]; try apply read_only_raise.
  repeat (apply read_only_bind; [apply read_only_field_strip | intros]).
  apply read_only_ret.
Qed.

Lemma read_only_eq {A} (c : M A) fs : read_only c -> c fs = (fst (c fs), fs).
Proof. intros H. specialize (H fs). destruct (c fs); cbn in *; now subst. Qed.

End ReadOnly.

(** ** Renaming a key *)

Section Rename.

Lemma find_entry_split vin idx : forall k i pos,
  find_entry vin k idx = Some (i, pos) ->
  exists pre post,
    idx = pre ++ (vin, pos) :: post
    /\ i = k + length pre
    /\ ~ In vin (map fst pre).
Proof.
  induction idx as [|[v p] idx IH]; intros k i pos H; cbn [find_entry] in H;
    [discriminate|].
  destruct (text_eqb_spec v vin) as [->|N].
  - inversion H; subst. exists [], idx. cbn. repeat split; [lia | tauto].
  - destruct (IH _ _ _ H) as (pre & post & -> & -> & Hpre).
    exists ((v, p) :: pre), post. cbn. repeat split; [lia | tauto].
Qed.

Lemma list_set_middle {A} (pre post : list A) x y :
  list_set (length pre) x (pre ++ y :: post) = pre ++ x :: post.
Proof. induction pre as [|z pre IH]; cbn; [reflexivity | now rewrite IH]. Qed.

Lemma find_entry_Some vin idx i pos :
  find_entry vin 0 idx = Some (i, pos) -> find_position vin idx = Some pos.
Proof. intros H. now rewrite <- (find_entry_position vin idx 0), H. Qed.

Lemma find_entry_None vin idx :
  find_entry vin 0 idx = None -> find_position vin idx = None.
Proof. intros H. now rewrite <- (find_entry_position vin idx 0), H. Qed.

Lemma update_vin_not_found vin new_vin fs idx :
  index_of_text (fs_cars_index fs) = Return idx ->
  find_position vin idx = None ->
  update_vin vin new_vin fs = (Raise (CarNotFound vin), fs).
Proof.
  intros Hload Hfind. unfold update_vin.
  erewrite bind_return by (rewrite load_index_eq; cbn [getf]; rewrite Hload; reflexivity).
  destruct (find_entry vin 0 idx) as [[i pos]|] eqn:E; [|reflexivity].
  apply find_entry_Some in E. congruence.
Qed.

Lemma update_vin_eq vin new_vin fs idx i pos :
  index_of_text (fs_cars_index fs) = Return idx ->
  find_entry vin 0 idx = Some (i, pos) -> (0 <= pos)%Z ->
  update_vin vin new_vin fs
  = _get_car_by_vin new_vin (fs_update_vin new_vin idx i pos fs).
Proof.
  intros Hload Hfind Hpos. unfold update_vin.
  erewrite bind_return by (rewrite load_index_eq; cbn [getf]; rewrite Hload; reflexivity).
  rewrite Hfind.
  erewrite bind_return by (now apply read_record_eq).
  cbn [getf]. unfold fs_update_vin.
  destruct (length (split "|" 4 (read_slot (fs_cars fs) pos)) =? 5)%nat.
  - erewrite bind_return by (now apply write_record_eq). reflexivity.
  - reflexivity.
Qed.

End Rename.

(** ** The invariant of the index file *)

Section IndexInvariant.

Lemma slot_count_whole (file : text) k :
  length file = k * RECORD_SIZE_WITH_NL -> slot_count file = k.
Proof.
  intros H. unfold slot_count. rewrite H. apply Nat.div_mul. discriminate.
Qed.

Lemma range_succ n : range (S n) = range n ++ [Z.of_nat n].
Proof. unfold range. now rewrite seq_S, map_app. Qed.

Lemma append_record_length file data :
  length file = slot_count file * RECORD_SIZE_WITH_NL ->
  length data <= RECORD_SIZE ->
  length (append_record file data) = S (slot_count file) * RECORD_SIZE_WITH_NL.
Proof.
  intros Hw Hd. unfold append_record.
  rewrite write_at_length, format_record_fits by assumption.
  unfold slot_offset. rewrite Nat2Z.id. lia.
Qed.

Lemma index_invariant_empty : index_invariant empty_fs.
Proof.
  exists []. repeat split; try reflexivity; constructor.
Qed.

Lemma index_invariant_rename vin new_vin fs :
  index_invariant fs -> key_ok new_vin -> rename_fits fs vin new_vin = true ->
  index_invariant (snd (update_vin vin new_vin fs)).
Proof.
  intros (idx & Htext & Hload & Hsorted & Hperm & Hlen) Hkey Hfits.
  destruct (find_entry vin 0 idx) as [[i pos]|] eqn:Hfind.
  2:{ rewrite (update_vin_not_found vin new_vin fs idx Hload)
        by (now apply find_entry_None).
      now exists idx. }
  pose proof (find_entry_Some _ _ _ _ Hfind) as Hpos.
  destruct (find_entry_split _ _ _ _ _ Hfind) as (pre & post & Eidx & Ei & _).
  cbn in Ei. subst i.
  assert (Hin : In pos (range (slot_count (fs_cars fs)))).
  { eapply Permutation_in; [exact Hperm|]. rewrite Eidx, map_app.
    apply in_or_app; right; now left. }
  unfold range in Hin. apply in_map_iff in Hin as (n & <- & Hn). apply in_seq in Hn.
  rewrite (update_vin_eq vin new_vin fs idx _ _ Hload Hfind) by lia.
  rewrite (read_only_get_car_by_vin new_vin).
  unfold rename_fits in Hfits. rewrite Hload, Hpos in Hfits. apply Nat.leb_le in Hfits.
  set (idx' := sorted key_le (list_set (length pre) (new_vin, Z.of_nat n) idx)).
  assert (Hkeys : Forall key_ok (map fst idx')).
  { apply sorted_keys_ok. rewrite Eidx, list_set_middle.
    pose proof (index_of_text_keys_ok _ _ Hload) as K. rewrite Eidx in K.
    rewrite map_app in *. apply Forall_app in K as [K1 K2]. inversion K2; subst.
    apply Forall_app; split; [assumption|]. now constructor. }
  assert (Hcars : length (fs_cars (fs_update_vin new_vin idx (length pre) (Z.of_nat n) fs))
                  = length (fs_cars fs)).
  { unfold fs_update_vin.
    destruct (length (split "|" 4 (read_slot (fs_cars fs) (Z.of_nat n))) =? 5)%nat;
      cbn [setf fs_cars]; [|reflexivity].
    rewrite write_at_length, format_record_fits by assumption.
    unfold slot_offset. rewrite Nat2Z.id, Hlen. unfold RECORD_SIZE_WITH_NL. nia. }
  exists idx'. split; [reflexivity|]. split.
  - unfold fs_update_vin. cbn [setf fs_cars_index].
    destruct (length (split "|" 4 (read_slot (fs_cars fs) (Z.of_nat n))) =? 5)%nat;
      cbn [setf fs_cars_index];
      rewrite index_of_text_saved by assumption;
      f_equal; apply sorted_id, sorted_Sorted, key_le_total.
  - split; [apply sorted_Sorted, key_le_total|].
    unfold slot_count in *. rewrite Hcars. split; [|assumption].
    unfold idx'. rewrite (sorted_perm key_le), Eidx, list_set_middle.
    rewrite Eidx in Hperm. rewrite map_app in *. exact Hperm.
Qed.

End IndexInvariant.

Section RenameStability.

Lemma rstrip_suffix_fixed s t : rstrip (s ++ t) = s ++ t -> rstrip t = t.
Proof.
  induction s as [|c s IH]; [trivial|]. cbn [app rstrip].
  destruct (rstrip (s ++ t)) as [|d r] eqn:E.
  - destruct (is_space c); intros H; inversion H as [H'].
    symmetry in H'. apply app_eq_nil in H' as [_ ->]. reflexivity.
  - intros H. inversion H as [H']. apply IH. congruence.
Qed.

Lemma find_position_middle k pre pos post :
  ~ In k (map fst pre) -> find_position k (pre ++ (k, pos) :: post) = Some pos.
Proof.
  intros H. rewrite find_position_entries, entries_of_app, entries_of_fresh by assumption.
  cbn. now rewrite text_eqb_refl.
Qed.

(** The record that a rename writes, read back. *)
Lemma renamed_record_clean record new_vin f0 f1 f2 f3 f4 :
  lacks "013" record -> rstrip record = record ->
  split "|" 4 record = [f0; f1; f2; f3; f4] ->
  lacks "|" new_vin -> lacks "013" new_vin ->
  let data := join "|" [new_vin; f1; f2; f3; f4] in
  lacks "013" data /\ rstrip data = data
  /\ split "|" 4 data = [new_vin; f1; f2; f3; f4].
Proof.
  intros Hcr Hrs Hsplit Hbar Hncr data.
  pose proof (split_lacks "|" 4 record) as Hl. rewrite Hsplit in Hl.
  cbn [removelast] in Hl.
  pose proof (lacks_split "|" "013" 4 record Hcr) as Hc. rewrite Hsplit in Hc.
  pose proof (join_split "|" 4 record) as Hj. rewrite Hsplit in Hj.
  apply Forall_inv_tail in Hl, Hc.
  split; [|split].
  - apply lacks_join; [discriminate|]. now constructor.
  - rewrite <- Hj in Hrs. cbn [join] in Hrs. apply rstrip_suffix_fixed in Hrs.
    subst data. cbn [join]. apply rstrip_app_fixed; [discriminate | exact Hrs].
  - apply split_join; [reflexivity|]. cbn [removelast]. now constructor.
Qed.

End RenameStability.

(** What [update_vin] does to the entry and the slot of the renamed car. *)
Lemma update_vin_effect
  (vin new_vin : text) (fs : FS) (idx : index_t) (pos : Z) (f0 f1 f2 f3 f4 : text) :
  _load_index cars_index_file fs = (Return idx, fs) ->
  find_position vin idx = Some pos -> (0 <= pos)%Z ->
  split "|" 4 (read_slot (fs_cars fs) pos) = [f0; f1; f2; f3; f4] ->
  vin_ok new_vin ->
  length (join "|" [new_vin; f1; f2; f3; f4]) <= RECORD_SIZE ->
  exists o fs' pre post,
    update_vin vin new_vin fs = (o, fs')
    /\ idx = pre ++ (vin, pos) :: post
    /\ ~ In vin (map fst pre)
    /\ _load_index cars_index_file fs'
       = (Return (sorted key_le (pre ++ (new_vin, pos) :: post)), fs')
    /\ In (new_vin, pos) (sorted key_le (pre ++ (new_vin, pos) :: post))
    /\ Permutation (map snd (sorted key_le (pre ++ (new_vin, pos) :: post)))
                   (map snd idx)
    /\ fs_cars fs'
       = write_at (slot_offset pos)
           (_format_record (join "|" [new_vin; f1; f2; f3; f4])) (fs_cars fs)
    /\ length (fs_cars fs') = Nat.max (slot_offset pos + RECORD_SIZE_WITH_NL)
                                      (length (fs_cars fs))
    /\ split "|" 4 (read_slot (fs_cars fs') pos) = [new_vin; f1; f2; f3; f4]
    /\ (~ In new_vin (map fst idx) ->
        o = Return (Car.mk new_vin (strip f1) (strip f2) (strip f3) (strip f4))).
Proof.
  intros Hload Hpos Hnn Hsplit Hnew Hfit.
  apply load_index_inv in Hload. cbn [getf] in Hload.
  destruct (find_entry vin 0 idx) as [[i p]|] eqn:Hfind;
    [|apply find_entry_None in Hfind; congruence].
  pose proof (find_entry_Some _ _ _ _ Hfind) as Hp.
  assert (p = pos) by congruence. subst p.
  destruct (find_entry_split _ _ _ _ _ Hfind) as (pre & post & Eidx & Ei & Hpre).
  cbn in Ei. subst i.
  pose proof (update_vin_eq vin new_vin fs idx _ _ Hload Hfind Hnn) as Hrun.
  rewrite (read_only_eq _ _ (read_only_get_car_by_vin new_vin)) in Hrun.
  set (fs' := fs_update_vin new_vin idx (length pre) pos fs) in *.
  set (idx' := sorted key_le (pre ++ (new_vin, pos) :: post)).
  destruct (read_slot_clean (fs_cars fs) pos) as (Hcr & Hrs & _).
  destruct Hnew as (Hcolon & Hlf & Hbar & Hncr & Hstr).
  destruct (renamed_record_clean _ new_vin _ _ _ _ _ Hcr Hrs Hsplit Hbar Hncr)
    as (Dcr & Drs & Dsplit).
  assert (Hcars : fs_cars fs'
                  = write_at (slot_offset pos)
                      (_format_record (join "|" [new_vin; f1; f2; f3; f4]))
                      (fs_cars fs)).
  { unfold fs', fs_update_vin. rewrite Hsplit. reflexivity. }
  assert (Hindex : index_of_text (fs_cars_index fs') = Return idx').
  { unfold fs', fs_update_vin. rewrite Hsplit. cbn [length Nat.eqb setf fs_cars_index].
    rewrite Eidx, list_set_middle. fold idx'.
    assert (Hkeys : Forall key_ok (map fst idx')).
    { apply sorted_keys_ok.
      pose proof (index_of_text_keys_ok _ _ Hload) as K. rewrite Eidx in K.
      rewrite map_app in *. apply Forall_app in K as [K1 K2]. inversion K2; subst.
      apply Forall_app; split; [assumption|]. constructor; [|assumption].
      apply vin_ok_key_ok. repeat split; assumption. }
    rewrite index_of_text_saved by assumption.
    f_equal. apply sorted_id, sorted_Sorted, key_le_total. }
  assert (Hread : read_slot (fs_cars fs') pos = join "|" [new_vin; f1; f2; f3; f4]).
  { rewrite Hcars, read_slot_written by assumption. exact Drs. }
  exists (fst (_get_car_by_vin new_vin fs')), fs', pre, post.
  split; [exact Hrun|]. split; [exact Eidx|]. split; [exact Hpre|].
  split; [rewrite load_index_eq; cbn [getf]; now rewrite Hindex|].
  split; [|split; [|split; [|split; [|split]]]].
  - eapply Permutation_in; [apply Permutation_sym, sorted_perm|].
    apply in_or_app; right; now left.
  - unfold idx'. rewrite (sorted_perm key_le), Eidx, !map_app. reflexivity.
  - exact Hcars.
  - rewrite Hcars, write_at_length, format_record_fits by assumption. reflexivity.
  - now rewrite Hread.
  - intros Hfresh.
    assert (Hfind' : _find_car_by_vin new_vin fs'
                     = (Return (Some (join "|" [new_vin; f1; f2; f3; f4])), fs')).
    { rewrite (find_car_by_vin_eq _ _ _ Hindex).
      unfold idx'. rewrite find_position_sorted, find_position_middle.
      - destruct (Z.ltb_spec pos 0); [lia|]. now rewrite Hread.
      - intros Hin. apply Hfresh. rewrite Eidx, map_app. apply in_or_app; now left. }
    rewrite (get_car_by_vin_eq _ _ _
               (Car.mk new_vin (strip f1) (strip f2) (strip f3) (strip f4)) Hfind');
      [reflexivity|].
    unfold decode_car. rewrite Dsplit. unfold stripped in Hstr. now rewrite Hstr.
Qed.

(** C5, inputs that refute it.  [sample_car] is in the index of
    [one_car_fs]; its rename to "AAA|0001" returns a car whose model is
    "0001", whose price is "1" and whose date is "1000.50": every field
    behind the vin has changed.  In [two_cars_fs], which also holds
    [other_car] in the next slot, the rename of [sample_car] to a vin of
    462 characters returns the car with the status "availab", and the
    record of [other_car] then reads with another vin. *)
Lemma update_vin_position_stable_broken_by_vin :
  _get_car_by_vin (Car.vin sample_car) one_car_fs = (Return sample_car, one_car_fs)
  /\ (let r := update_vin (Car.vin sample_car) (txt "AAA|0001") one_car_fs in
      fst r = Return (Car.mk (txt "AAA") (txt "0001") (txt "1") (txt "1000.50")
                             (txt "2024-02-03T00:00:00|available"))
      /\ read_slot (fs_cars (snd r)) 0
         = txt "AAA|0001|1|1000.50|2024-02-03T00:00:00|available")
  /\ _get_car_by_vin (Car.vin sample_car) two_cars_fs = (Return sample_car, two_cars_fs)
  /\ _get_car_by_vin (Car.vin other_car) two_cars_fs = (Return other_car, two_cars_fs)
  /\ (let r := update_vin (Car.vin sample_car) (repeat "x" 462) two_cars_fs in
      fst r = Return (Car.mk (repeat "x" 462) (txt "1") (txt "1000.50")
                             (txt "2024-02-03T00:00:00") (txt "availab"))
      /\ fst (_get_car_by_vin (Car.vin other_car) (snd r))
         = Return (Car.mk ["e"; "010"; "A"; "G"; "M"; "4"; "A"; "7"] (txt "2")
                          (txt "2000") (txt "2024-02-04T00:00:00") (txt "reserve"))).
Proof. vm_compute. repeat split; reflexivity. Qed.

(** C5, amended.  Positional stability under key rename: when the cars index loads,
    the vin has an entry whose slot (at a position that is not negative)
    holds a record of five fields, the new vin is a sound key and field,
    and the renamed record fits a slot, [update_vin] rewrites that slot
    only, in place: afterwards the index is the old one with the key of
    that entry (the first of the vin) replaced and the position kept
    (sorted again), so the positions of the index are the same; the slot at that position holds
    the new vin followed by the same model, price, date_start and status
    fields.  When the new vin is not yet a key of the index, the call
    returns the car decoded from that slot. *)
Theorem update_vin_position_stable
  (vin new_vin : text) (fs : FS) (idx : index_t) (pos : Z) (f0 f1 f2 f3 f4 : text) :
  _load_index cars_index_file fs = (Return idx, fs) ->
  find_position vin idx = Some pos -> (0 <= pos)%Z ->
  split "|" 4 (read_slot (fs_cars fs) pos) = [f0; f1; f2; f3; f4] ->
  vin_ok new_vin ->
  length (join "|" [new_vin; f1; f2; f3; f4]) <= RECORD_SIZE ->
  exists o fs' pre post,
    update_vin vin new_vin fs = (o, fs')
    /\ idx = pre ++ (vin, pos) :: post
    /\ ~ In vin (map fst pre)
    /\ _load_index cars_index_file fs'
       = (Return (sorted key_le (pre ++ (new_vin, pos) :: post)), fs')
    /\ In (new_vin, pos) (sorted key_le (pre ++ (new_vin, pos) :: post))
    /\ Permutation (map snd (sorted key_le (pre ++ (new_vin, pos) :: post)))
                   (map snd idx)
    /\ fs_cars fs'
       = write_at (slot_offset pos)
           (_format_record (join "|" [new_vin; f1; f2; f3; f4])) (fs_cars fs)
    /\ length (fs_cars fs') = Nat.max (slot_offset pos + RECORD_SIZE_WITH_NL)
                                      (length (fs_cars fs))
    /\ split "|" 4 (read_slot (fs_cars fs') pos) = [new_vin; f1; f2; f3; f4]
    /\ (~ In new_vin (map fst idx) ->
        o = Return (Car.mk new_vin (strip f1) (strip f2) (strip f3) (strip f4))).
Proof. exact (update_vin_effect vin new_vin fs idx pos f0 f1 f2 f3 f4). Qed.

Lemma update_vin_position_stable_witness :
  exists o fs',
    update_vin (Car.vin sample_car) (txt "AAA00001") one_car_fs = (o, fs')
    /\ split "|" 4 (read_slot (fs_cars fs') 0)
       = [txt "AAA00001"; txt "1"; txt "1000.50"; txt "2024-02-03T00:00:00";
          txt "available"]
    /\ o = Return (Car.mk (txt "AAA00001") (txt "1") (txt "1000.50")
                          (txt "2024-02-03T00:00:00") (txt "available")).
Proof.
  destruct (update_vin_position_stable (Car.vin sample_car) (txt "AAA00001")
              one_car_fs [(Car.vin sample_car, 0%Z)] 0%Z
              (Car.vin sample_car) (txt "1") (txt "1000.50")
              (txt "2024-02-03T00:00:00") (txt "available"))
    as (o & fs' & pre & post & Hrun & _ & _ & _ & _ & _ & _ & _ & Hsplit & Hret).
  - vm_compute; reflexivity.
  - reflexivity.
  - lia.
  - vm_compute; reflexivity.
  - unfold vin_ok, field_ok, lacks, stripped. decide_ok.
  - vm_compute; repeat constructor.
  - exists o, fs'. split; [exact Hrun|]. split; [exact Hsplit|].
    apply Hret. vm_compute. intuition discriminate.
Defined.

(** ** Selling and reverting *)

Section SellAndRevert.

Lemma update_car_status_absent vin status fs idx :
  index_of_text (fs_cars_index fs) = Return idx ->
  find_position vin idx = None ->
  _update_car_status vin status fs = (Return tt, fs).
Proof.
  intros Hload Hfind. unfold _update_car_status.
  erewrite bind_return by (rewrite load_index_eq; cbn [getf]; rewrite Hload; reflexivity).
  now rewrite update_car_status_loop_eq, Hfind.
Qed.

Lemma update_car_status_eq vin status fs idx pos :
  index_of_text (fs_cars_index fs) = Return idx ->
  find_position vin idx = Some pos -> (0 <= pos)%Z ->
  length (split "|" 4 (read_slot (fs_cars fs) pos)) = 5 ->
  _update_car_status vin status fs
  = (Return tt,
     fs_status_set (split "|" 4 (read_slot (fs_cars fs) pos)) status pos fs).
Proof.
  intros Hload Hfind Hpos Hlen. unfold _update_car_status.
  erewrite bind_return by (rewrite load_index_eq; cbn [getf]; rewrite Hload; reflexivity).
  rewrite update_car_status_loop_eq, Hfind.
  erewrite bind_return by (now apply read_record_eq).
  cbn [getf]. rewrite Hlen. cbn [Nat.eqb].
  now rewrite write_record_eq.
Qed.

(** The record that a status update writes, read back. *)
Lemma status_record_clean record status f0 f1 f2 f3 f4 :
  lacks "013" record ->
  split "|" 4 record = [f0; f1; f2; f3; f4] ->
  lacks "013" status -> stripped status ->
  let data := join "|" [f0; f1; f2; f3; status] in
  lacks "013" data /\ rstrip data = data
  /\ split "|" 4 data = [f0; f1; f2; f3; status].
Proof.
  intros Hcr Hsplit Hscr Hstr data.
  pose proof (split_lacks "|" 4 record) as Hl. rewrite Hsplit in Hl.
  cbn [removelast] in Hl.
  pose proof (lacks_split "|" "013" 4 record Hcr) as Hc. rewrite Hsplit in Hc.
  split; [|split].
  - apply lacks_join; [discriminate|].
    inversion Hc as [|? ? C0 Hc1]; inversion Hc1 as [|? ? C1 Hc2];
      inversion Hc2 as [|? ? C2 Hc3]; inversion Hc3 as [|? ? C3 _].
    repeat constructor; assumption.
  - subst data. cbn [join].
    repeat (apply rstrip_app_fixed; [discriminate|];
            apply rstrip_cons_fixed; [reflexivity|]).
    now apply stripped_rstrip.
  - apply split_join; [reflexivity | exact Hl].
Qed.

(** Setting the status of a stored car and reading the car. *)
Lemma set_status_and_get vin status fs idx pos f0 f1 f2 f3 f4 :
  index_of_text (fs_cars_index fs) = Return idx ->
  find_position vin idx = Some pos -> (0 <= pos)%Z ->
  split "|" 4 (read_slot (fs_cars fs) pos) = [f0; f1; f2; f3; f4] ->
  lacks "013" status -> stripped status ->
  length (join "|" [f0; f1; f2; f3; status]) <= RECORD_SIZE ->
  let fs' := fs_status_set [f0; f1; f2; f3; f4] status pos fs in
  (_update_car_status vin status ;;; _get_car_by_vin vin) fs
    = (Return (Car.mk (strip f0) (strip f1) (strip f2) (strip f3) status), fs')
  /\ split "|" 4 (read_slot (fs_cars fs') pos) = [f0; f1; f2; f3; status].
Proof.
  intros Hload Hfind Hpos Hsplit Hscr Hstr Hfit fs'.
  destruct (read_slot_clean (fs_cars fs) pos) as (Hcr & _ & _).
  destruct (status_record_clean _ status _ _ _ _ _ Hcr Hsplit Hscr Hstr)
    as (Dcr & Drs & Dsplit).
  assert (Hread : read_slot (fs_cars fs') pos = join "|" [f0; f1; f2; f3; status]).
  { unfold fs', fs_status_set. cbn [setf fs_cars list_set].
    rewrite read_slot_written by assumption. exact Drs. }
  split; [|now rewrite Hread].
  erewrite bind_return
    by (rewrite (update_car_status_eq vin status fs idx pos Hload Hfind Hpos);
        [rewrite Hsplit; reflexivity | now rewrite Hsplit]).
  fold fs'.
  assert (Hfind' : _find_car_by_vin vin fs'
                   = (Return (Some (join "|" [f0; f1; f2; f3; status])), fs')).
  { rewrite (find_car_by_vin_eq vin fs' idx) by exact Hload.
    rewrite Hfind. destruct (Z.ltb_spec pos 0); [lia|]. now rewrite Hread. }
  apply (get_car_by_vin_eq _ _ _ _ Hfind').
  unfold decode_car. rewrite Dsplit. unfold stripped in Hstr. now rewrite Hstr.
Qed.

Lemma sell_car_eq sale fs idx :
  index_of_text (fs_sales_index fs) = Return idx ->
  sell_car sale fs
  = (_update_car_status (Sale.car_vin sale) CarStatus.sold ;;;
     _get_car_by_vin (Sale.car_vin sale)) (fs_sale_written sale idx fs).
Proof.
  intros Hload. unfold sell_car.
  rewrite (bind_return _ _ fs (Z.of_nat (slot_count (fs_sales fs))) fs) by reflexivity.
  erewrite bind_return by (apply write_record_eq; lia).
  erewrite bind_return
    by (rewrite load_index_eq; cbn [getf setf fs_sales_index]; rewrite Hload; reflexivity).
  erewrite bind_return by reflexivity.
  reflexivity.
Qed.

Lemma revert_sale_eq sales_number fs idx pos g0 g1 g2 g3 g4 :
  index_of_text (fs_sales_index fs) = Return idx ->
  find_position sales_number idx = Some pos -> (0 <= pos)%Z ->
  split "|" 4 (read_slot (fs_sales fs) pos) = [g0; g1; g2; g3; g4] ->
  revert_sale sales_number fs
  = if text_eqb (strip g4) (txt "True") then
      (Raise (SaleAlreadyDeleted sales_number), fs)
    else
      (_update_car_status (strip g1) CarStatus.available ;;;
       _get_car_by_vin (strip g1)) (fs_sale_flagged [g0; g1; g2; g3; g4] pos fs).
Proof.
  intros Hload Hfind Hpos Hsplit. unfold revert_sale.
  erewrite bind_return by (rewrite load_index_eq; cbn [getf]; rewrite Hload; reflexivity).
  rewrite Hfind.
  erewrite bind_return by (now apply read_record_eq).
  cbn [getf]. rewrite Hsplit. cbn [length Nat.eqb negb nth].
  destruct (text_eqb (strip g4) (txt "True")); [reflexivity|].
  erewrite bind_return by (now apply write_record_eq).
  reflexivity.
Qed.

(** The record of a sound sale, and the record with the flag set. *)
Lemma sale_data_clean sale flag :
  sale_ok sale -> flag = txt "False" \/ flag = txt "True" ->
  let fields := [Sale.sales_number sale; Sale.car_vin sale; Sale.cost sale;
                 Sale.sales_date sale; flag] in
  lacks "013" (join "|" fields) /\ rstrip (join "|" fields) = join "|" fields
  /\ split "|" 4 (join "|" fields) = fields
  /\ length (join "|" fields) <= RECORD_SIZE.
Proof.
  destruct sale as [n v c d].
  intros ((_ & _ & Hn & _) & Hnb & (Hvb & Hvc & _) & Hcb & Hcc & Hdb & Hdc & Hlen)
         Hflag fields.
  cbn [Sale.sales_number Sale.car_vin Sale.cost Sale.sales_date] in *.
  assert (Hf : lacks "013" flag /\ rstrip flag = flag)
    by (destruct Hflag as [->| ->]; split; reflexivity).
  destruct Hf as [Hf1 Hf2].
  split; [|split; [|split]].
  - apply lacks_join; [discriminate|]. subst fields.
    repeat constructor; assumption.
  - subst fields. cbn [join].
    repeat (apply rstrip_app_fixed; [discriminate|];
            apply rstrip_cons_fixed; [reflexivity|]).
    exact Hf2.
  - apply split_join; [reflexivity|]. subst fields. cbn [removelast].
    repeat constructor; assumption.
  - unfold sale_data in Hlen. cbn [Sale.sales_number Sale.car_vin Sale.cost
                                    Sale.sales_date] in Hlen.
    subst fields. cbn [join].
    rewrite !length_app in *. cbn [length] in *. rewrite !length_app in *.
    cbn [length] in *. rewrite !length_app in *. cbn [length] in *.
    rewrite !length_app in *. cbn [length] in *.
    destruct Hflag as [->| ->]; cbn [txt list_ascii_of_string length] in *; lia.
Qed.

End SellAndRevert.

(** C2, inputs that refute it.  [sample_car] exists in [one_car_fs] and the
    sales index there is empty, so every sale of the car is fresh.  The
    sale with the number "S:1" is sold: [sell_car] returns the car as
    sold; [revert_sale] of that number then raises the [ValueError] of
    [int] on "1:0" while it loads the sales index, and the car stays sold.
    The sale whose record has 505 characters is sold and reverted; the
    second [revert_sale] of its number returns the car again and raises
    nothing. *)
Lemma sale_lifecycle_broken_by_sale :
  let sold_car :=
    Car.mk (txt "XTA21099") (txt "1") (txt "1000.50")
           (txt "2024-02-03T00:00:00") CarStatus.sold in
  _get_car_by_vin (txt "XTA21099") one_car_fs = (Return sample_car, one_car_fs)
  /\ _load_index sales_index_file one_car_fs = (Return [], one_car_fs)
  /\ (let fs1 := snd (sell_car colon_sale one_car_fs) in
      fst (sell_car colon_sale one_car_fs) = Return sold_car
      /\ revert_sale (Sale.sales_number colon_sale) fs1
         = (Raise (IntValueError (txt "1:0")), fs1)
      /\ _get_car_by_vin (txt "XTA21099") fs1 = (Return sold_car, fs1))
  /\ (let fs1 := snd (sell_car long_sale one_car_fs) in
      let fs2 := snd (revert_sale (Sale.sales_number long_sale) fs1) in
      length (sale_data long_sale) = 505
      /\ fst (sell_car long_sale one_car_fs) = Return sold_car
      /\ fst (revert_sale (Sale.sales_number long_sale) fs1) = Return sample_car
      /\ fst (revert_sale (Sale.sales_number long_sale) fs2) = Return sample_car).
Proof. vm_compute. repeat split; reflexivity. Qed.

(** C2, amended.  Sale lifecycle.  Take a car that exists (the cars index loads and
    has an entry for the vin whose slot, at a position that is not
    negative, holds a record of five fields, with room in the slot for the
    status "available") and a sale of that car that is fresh (the sales
    index loads and does not have the sales number) and that the format
    can hold.  Then [sell_car] returns the car with the status "sold",
    rewrites the status field of the slot of the car to "sold", and appends
    the record of the sale, its flag "False", in the first free slot, with
    an index entry for it; [revert_sale] of the sales number then returns
    the car with the status "available", writes the flag "True" in the
    slot of the sale and the status "available" in the slot of the car; and
    a second [revert_sale] of the sales number raises
    [ValueError("Sale ... already deleted")], distinct from the other
    errors, and changes no file. *)
Theorem sale_lifecycle
  (sale : Sale.t) (fs : FS) (cidx sidx : index_t) (p : Z) (f0 f1 f2 f3 f4 : text) :
  _load_index cars_index_file fs = (Return cidx, fs) ->
  find_position (Sale.car_vin sale) cidx = Some p -> (0 <= p)%Z ->
  split "|" 4 (read_slot (fs_cars fs) p) = [f0; f1; f2; f3; f4] ->
  length (join "|" [f0; f1; f2; f3; CarStatus.available]) <= RECORD_SIZE ->
  _load_index sales_index_file fs = (Return sidx, fs) ->
  ~ In (Sale.sales_number sale) (map fst sidx) ->
  sale_ok sale ->
  let q := Z.of_nat (slot_count (fs_sales fs)) in
  let sold_car := Car.mk (strip f0) (strip f1) (strip f2) (strip f3) CarStatus.sold in
  let available_car :=
    Car.mk (strip f0) (strip f1) (strip f2) (strip f3) CarStatus.available in
  exists fs1 fs2 sidx1,
    sell_car sale fs = (Return sold_car, fs1)
    /\ split "|" 4 (read_slot (fs_cars fs1) p) = [f0; f1; f2; f3; CarStatus.sold]
    /\ _load_index sales_index_file fs1 = (Return sidx1, fs1)
    /\ find_position (Sale.sales_number sale) sidx1 = Some q
    /\ read_slot (fs_sales fs1) q = sale_data sale
    /\ revert_sale (Sale.sales_number sale) fs1 = (Return available_car, fs2)
    /\ read_slot (fs_sales fs2) q
       = join "|" [Sale.sales_number sale; Sale.car_vin sale; Sale.cost sale;
                   Sale.sales_date sale; txt "True"]
    /\ split "|" 4 (read_slot (fs_cars fs2) p)
       = [f0; f1; f2; f3; CarStatus.available]
    /\ revert_sale (Sale.sales_number sale) fs2
       = (Raise (SaleAlreadyDeleted (Sale.sales_number sale)), fs2).
Proof.
  intros Hcload Hcfind Hp Hsplit Hroom Hsload Hfresh Hok q sold_car available_car.
  apply load_index_inv in Hcload, Hsload. cbn [getf] in Hcload, Hsload.
  set (n := Sale.sales_number sale) in *. set (v := Sale.car_vin sale) in *.
  destruct (sale_data_clean sale (txt "False") Hok ltac:(now left))
    as (Fcr & Frs & Fsplit & Flen).
  destruct (sale_data_clean sale (txt "True") Hok ltac:(now right))
    as (Tcr & Trs & Tsplit & Tlen).
  fold n v in Fcr, Frs, Fsplit, Flen, Tcr, Trs, Tsplit, Tlen.
  change (join "|" [n; v; Sale.cost sale; Sale.sales_date sale; txt "False"])
    with (sale_data sale) in *.
  assert (Hv : strip v = v) by apply Hok.
  (* the sale is written *)
  set (fsa := fs_sale_written sale sidx fs).
  set (sidx1 := index_insert sidx n q).
  assert (Hsold_fit : length (join "|" [f0; f1; f2; f3; CarStatus.sold]) <= RECORD_SIZE).
  { cbn [join] in *. rewrite !length_app in *. cbn [length] in *.
    rewrite !length_app in *. cbn [length] in *. rewrite !length_app in *.
    cbn [length] in *. rewrite !length_app in *.
    cbn [length CarStatus.sold CarStatus.available txt list_ascii_of_string] in *. lia. }
  destruct (set_status_and_get v CarStatus.sold fsa cidx p f0 f1 f2 f3 f4)
    as [Hsell Hsold]; try assumption; try reflexivity.
  set (fs1 := fs_status_set [f0; f1; f2; f3; f4] CarStatus.sold p fsa) in *.
  assert (Hs1 : index_of_text (fs_sales_index fs1) = Return sidx1).
  { unfold fs1, fsa. files. fold n q sidx1.
    rewrite index_of_text_saved.
    - f_equal. apply sorted_id, sorted_Sorted, key_le_total.
    - apply index_insert_keys_ok; [now apply (index_of_text_keys_ok _ _ Hsload)|].
      apply Hok. }
  assert (Hq : find_position n sidx1 = Some q).
  { unfold sidx1. rewrite find_position_insert.
    apply find_position_None in Hfresh. now rewrite Hfresh, text_eqb_refl. }
  assert (Hr1 : read_slot (fs_sales fs1) q = sale_data sale).
  { unfold fs1, fsa. files. unfold append_record. fold q.
    rewrite read_slot_written; [exact Frs | lia | exact Flen | exact Fcr]. }
  (* the sale is reverted *)
  set (g := [n; v; Sale.cost sale; Sale.sales_date sale; txt "False"]).
  set (fsb := fs_sale_flagged g q fs1).
  destruct (set_status_and_get v CarStatus.available fsb cidx p f0 f1 f2 f3
              CarStatus.sold)
    as [Hrevert Havail]; try assumption; try reflexivity.
  set (fs2 := fs_status_set [f0; f1; f2; f3; CarStatus.sold] CarStatus.available p fsb)
    in *.
  assert (Hr2 : read_slot (fs_sales fs2) q
                = join "|" [n; v; Sale.cost sale; Sale.sales_date sale; txt "True"]).
  { unfold fs2, fsb. files. unfold g. cbn [list_set].
    rewrite read_slot_written; [exact Trs | lia | exact Tlen | exact Tcr]. }
  exists fs1, fs2, sidx1.
  split; [rewrite (sell_car_eq sale fs sidx Hsload); exact Hsell|].
  split; [exact Hsold|].
  split; [rewrite load_index_eq; cbn [getf]; now rewrite Hs1|].
  split; [exact Hq|]. split; [exact Hr1|].
  split; [|split; [exact Hr2|split; [exact Havail|]]].
  - rewrite (revert_sale_eq n fs1 sidx1 q n v (Sale.cost sale) (Sale.sales_date sale)
               (txt "False") Hs1 Hq ltac:(lia)) by (rewrite Hr1; exact Fsplit).
    change (text_eqb (strip (txt "False")) (txt "True")) with false. cbv iota.
    rewrite Hv. exact Hrevert.
  - rewrite (revert_sale_eq n fs2 sidx1 q n v (Sale.cost sale) (Sale.sales_date sale)
               (txt "True") Hs1 Hq ltac:(lia)) by (rewrite Hr2; exact Tsplit).
    reflexivity.
Qed.

Lemma sample_sale_ok : sale_ok sample_sale.
Proof. unfold sale_ok, key_ok, field_ok, lacks, stripped. decide_ok. Qed.

Lemma sale_lifecycle_witness :
  exists fs1 fs2,
    sell_car sample_sale one_car_fs
      = (Return (Car.mk (txt "XTA21099") (txt "1") (txt "1000.50")
                        (txt "2024-02-03T00:00:00") CarStatus.sold), fs1)
    /\ read_slot (fs_sales fs1) 0 = sale_data sample_sale
    /\ revert_sale (Sale.sales_number sample_sale) fs1
       = (Return (Car.mk (txt "XTA21099") (txt "1") (txt "1000.50")
                         (txt "2024-02-03T00:00:00") CarStatus.available), fs2)
    /\ revert_sale (Sale.sales_number sample_sale) fs2
       = (Raise (SaleAlreadyDeleted (Sale.sales_number sample_sale)), fs2).
Proof.
  destruct (sale_lifecycle sample_sale one_car_fs [(Car.vin sample_car, 0%Z)] [] 0%Z
              (txt "XTA21099") (txt "1") (txt "1000.50")
              (txt "2024-02-03T00:00:00") (txt "available"))
    as (fs1 & fs2 & sidx1 & H1 & _ & _ & _ & H2 & H3 & _ & _ & H4).
  - vm_compute; reflexivity.
  - reflexivity.
  - lia.
  - vm_compute; reflexivity.
  - vm_compute; repeat constructor.
  - reflexivity.
  - intros [].
  - exact sample_sale_ok.
  - exists fs1, fs2. repeat split; assumption.
Defined.

(** C9.  Selling a car that is not in the index: when both indexes load
    and the cars index has no entry for the vin of the sale, [sell_car]
    raises [ValueError("Car ... not found")], and the state it leaves is
    the one in which the sale is written: the sales file has the record of
    the sale, which ends with the flag "False", in the first free slot, the
    sales index has the entry of the sale, and the files of the cars are as
    they were.  When the sale is one the format can hold and its number
    is fresh, the sale is found and read back in that state. *)
Theorem sell_missing_car_not_atomic (sale : Sale.t) (fs : FS) (cidx sidx : index_t) :
  _load_index sales_index_file fs = (Return sidx, fs) ->
  _load_index cars_index_file fs = (Return cidx, fs) ->
  ~ In (Sale.car_vin sale) (map fst cidx) ->
  let q := Z.of_nat (slot_count (fs_sales fs)) in
  exists fs',
    sell_car sale fs = (Raise (CarNotFound (Sale.car_vin sale)), fs')
    /\ fs_sales fs'
       = write_at (slot_offset q) (_format_record (sale_data sale)) (fs_sales fs)
    /\ sale_data sale
       = Sale.sales_number sale ++ "|" :: Sale.car_vin sale ++ "|" :: Sale.cost sale
           ++ "|" :: Sale.sales_date sale ++ txt "|False"
    /\ fs_sales_index fs'
       = text_of_index (sorted key_le (sidx ++ [(Sale.sales_number sale, q)]))
    /\ fs_cars fs' = fs_cars fs /\ fs_cars_index fs' = fs_cars_index fs
    /\ fs_models fs' = fs_models fs /\ fs_models_index fs' = fs_models_index fs
    /\ (sale_ok sale -> ~ In (Sale.sales_number sale) (map fst sidx) ->
        exists sidx',
          _load_index sales_index_file fs' = (Return sidx', fs')
          /\ find_position (Sale.sales_number sale) sidx' = Some q
          /\ read_slot (fs_sales fs') q = sale_data sale).
Proof.
  intros Hsload Hcload Habsent q.
  apply load_index_inv in Hcload, Hsload. cbn [getf] in Hcload, Hsload.
  exists (fs_sale_written sale sidx fs).
  apply find_position_None in Habsent.
  split.
  - rewrite (sell_car_eq sale fs sidx Hsload).
    erewrite bind_return
      by (apply (update_car_status_absent _ _ _ cidx); assumption).
    unfold _get_car_by_vin.
    erewrite bind_return
      by (rewrite (find_car_by_vin_eq _ _ cidx) by assumption;
          rewrite Habsent; reflexivity).
    reflexivity.
  - repeat (split; [reflexivity|]).
    intros Hok Hfresh.
    destruct (sale_data_clean sale (txt "False") Hok ltac:(now left))
      as (Fcr & Frs & _ & Flen).
    exists (index_insert sidx (Sale.sales_number sale) q). split; [|split].
    + rewrite load_index_eq. files. cbn [getf fs_sales_index]. fold q.
      rewrite index_of_text_saved.
      * do 2 f_equal. apply sorted_id, sorted_Sorted, key_le_total.
      * apply index_insert_keys_ok; [now apply (index_of_text_keys_ok _ _ Hsload)|].
        apply Hok.
    + rewrite find_position_insert.
      apply find_position_None in Hfresh. now rewrite Hfresh, text_eqb_refl.
    + files. unfold append_record. fold q.
      rewrite read_slot_written; [exact Frs | lia | exact Flen | exact Fcr].
Qed.

Lemma sell_missing_car_not_atomic_witness :
  exists fs',
    sell_car sample_sale empty_fs
      = (Raise (CarNotFound (Sale.car_vin sample_sale)), fs')
    /\ read_slot (fs_sales fs') 0 = sale_data sample_sale
    /\ fs_cars fs' = [].
Proof.
  destruct (sell_missing_car_not_atomic sample_sale empty_fs [] [])
    as (fs' & H1 & _ & _ & _ & H2 & _ & _ & _ & H3).
  - reflexivity.
  - reflexivity.
  - intros [].
  - destruct (H3 sample_sale_ok) as (sidx' & _ & _ & H4); [intros []|].
    exists fs'. repeat split; assumption.
Defined.

(** ** Two cars with one vin *)

Section DuplicateKey.



(** Appending a record that fits makes the file one slot longer, whatever
    its size was. *)
Lemma append_record_slots file data :
  length data <= RECORD_SIZE ->
  length (append_record file data) = S (slot_count file) * RECORD_SIZE_WITH_NL
  /\ slot_count (append_record file data) = S (slot_count file).
Proof.
  intros Hd.
  assert (L : length (append_record file data)
              = S (slot_count file) * RECORD_SIZE_WITH_NL).
  { unfold append_record.
    rewrite write_at_length, format_record_fits by assumption.
    unfold slot_offset, slot_count, RECORD_SIZE_WITH_NL. rewrite Nat2Z.id.
    pose proof (Nat.div_mod_eq (length file) 501) as E.
    pose proof (Nat.mod_upper_bound (length file) 501 ltac:(lia)) as B. lia. }
  split; [exact L | now apply slot_count_whole].
Qed.



End DuplicateKey.




(** ** The aggregation *)

Section Aggregation.

Lemma split_blank sep n record :
  is_space sep = false -> strip record = [] -> split sep n record = [record].
Proof.
  intros Hs H. destruct n; [reflexivity|]. cbn [split].
  now rewrite (partition_at_None sep record) by (now apply strip_nil_lacks).
Qed.

Lemma count_sale_step_eq pos model_sales fs cidx :
  index_of_text (fs_cars_index fs) = Return cidx -> positions_ok cidx ->
  (0 <= pos)%Z ->
  count_sale_step pos model_sales fs
  = (Return match sale_model cidx (fs_cars fs) (fs_sales fs) pos with
            | Some m => dict_incr m model_sales
            | None => model_sales
            end, fs).
Proof.
  intros Hload Hpos Hp. unfold count_sale_step, sale_model.
  rewrite (bind_return _ _ _ _ _ (read_record_eq sales_file pos fs Hp)).
  cbn [getf]. set (record := read_slot (fs_sales fs) pos).
  destruct (strip record) eqn:Es.
  { now rewrite (split_blank "|" 4 record eq_refl Es). }
  clear Es.
  destruct (split "|" 4 record) as [|g0 [|g1 [|g2 [|g3 [|g4 [|? ?]]]]]];
    try reflexivity.
  cbn [length Nat.eqb andb nth].
  destruct (text_eqb (strip g4) (txt "False")); [|reflexivity].
  unfold bind. rewrite (find_car_by_vin_eq (strip g1) fs cidx Hload).
  destruct (find_position (strip g1) cidx) as [cpos|] eqn:Ef; [|reflexivity].
  assert (Hc : (0 <= cpos)%Z).
  { rewrite find_position_entries in Ef.
    destruct (entries_of (strip g1) cidx) as [|[k c] tl] eqn:Ee; [discriminate|].
    injection Ef as <-.
    assert (Hin : In (k, c) (entries_of (strip g1) cidx)) by (rewrite Ee; now left).
    apply filter_In in Hin as [Hin _].
    unfold positions_ok in Hpos. rewrite Forall_forall in Hpos.
    apply (Hpos _ Hin). }
  destruct (Z.ltb_spec cpos 0); [lia|].
  destruct (read_slot (fs_cars fs) cpos) as [|x car_record] eqn:Er; [reflexivity|].
  destruct (split "|" 4 (x :: car_record)) as [|c0 [|c1 [|c2 [|c3 [|c4 [|? ?]]]]]];
    reflexivity.
Qed.

Lemma count_sales_scan fs cidx :
  index_of_text (fs_cars_index fs) = Return cidx -> positions_ok cidx ->
  forall positions model_sales,
    Forall (fun pos => (0 <= pos)%Z) positions ->
    for_each positions count_sale_step model_sales fs
    = (Return (fold_left (fun d m => dict_incr m d)
                 (flat_map (fun pos =>
                              match sale_model cidx (fs_cars fs) (fs_sales fs) pos with
                              | Some m => [m]
                              | None => []
                              end) positions)
                 model_sales), fs).
Proof.
  intros Hload Hpos. induction positions as [|pos positions IH];
    intros model_sales H; cbn [for_each flat_map]; [reflexivity|].
  inversion H; subst.
  rewrite (bind_return _ _ _ _ _
             (count_sale_step_eq pos model_sales fs cidx Hload Hpos ltac:(assumption))).
  rewrite IH by assumption. rewrite fold_left_app.
  destruct (sale_model cidx (fs_cars fs) (fs_sales fs) pos); reflexivity.
Qed.

Lemma model_data_step_eq entry models_data fs :
  (0 <= snd entry)%Z ->
  model_data_step entry models_data fs
  = (Return match model_entry (fs_models fs) entry with
            | Some nb => dict_set (fst entry) nb models_data
            | None => models_data
            end, fs).
Proof.
  destruct entry as [model_id pos]. cbn [fst snd]. intros Hp.
  unfold model_data_step, model_entry. cbn [snd].
  rewrite (bind_return _ _ _ _ _ (read_record_eq models_file pos fs Hp)).
  cbn [getf]. set (record := read_slot (fs_models fs) pos).
  destruct (strip record) eqn:Es.
  { now rewrite (split_blank "|" 2 record eq_refl Es). }
  clear Es.
  destruct (split "|" 2 record) as [|m0 [|m1 [|m2 [|? ?]]]]; reflexivity.
Qed.

Lemma models_data_scan fs : forall models_index models_data,
  positions_ok models_index ->
  for_each models_index model_data_step models_data fs
  = (Return (fold_left (fun d e => match model_entry (fs_models fs) e with
                                   | Some nb => dict_set (fst e) nb d
                                   | None => d
                                   end) models_index models_data), fs).
Proof.
  induction models_index as [|entry models_index IH]; intros models_data H;
    cbn [for_each fold_left]; [reflexivity|].
  inversion H; subst.
  rewrite (bind_return _ _ _ _ _ (model_data_step_eq entry models_data fs ltac:(assumption))).
  now apply IH.
Qed.

Lemma top_models_by_sales_eq fs cidx midx :
  index_of_text (fs_cars_index fs) = Return cidx -> positions_ok cidx ->
  index_of_text (fs_models_index fs) = Return midx -> positions_ok midx ->
  top_models_by_sales fs
  = (Return (stats_of (models_data_of (fs_models fs) midx)
               (firstn 3 (sorted count_ge
                  (tally (counted_models cidx (fs_cars fs) (fs_sales fs)))))), fs).
Proof.
  intros Hc Hcp Hm Hmp. unfold top_models_by_sales. cbn [getf].
  destruct (length (fs_sales fs) =? 0)%nat eqn:E.
  - apply Nat.eqb_eq in E. unfold counted_models, slot_count. rewrite E. reflexivity.
  - rewrite (bind_return _ _ _ _ _
               (count_sales_scan fs cidx Hc Hcp _ [] (range_nonneg _))).
    erewrite bind_return by (rewrite load_index_eq; cbn [getf]; rewrite Hm; reflexivity).
    rewrite (bind_return _ _ _ _ _ (models_data_scan fs midx [] Hmp)).
    reflexivity.
Qed.

End Aggregation.

Section Counting.

Lemma text_eqb_sym a b : text_eqb a b = text_eqb b a.
Proof.
  destruct (text_eqb_spec a b) as [->|N]; [now rewrite text_eqb_refl|].
  symmetry. apply text_eqb_neq. congruence.
Qed.















End Counting.



Lemma get_cars_status_filter_witness :
  get_cars CarStatus.available one_car_fs
  = (Return (map snd (list_by_status (fs_cars one_car_fs) CarStatus.available)),
     one_car_fs).
Proof. exact (proj1 (get_cars_status_filter CarStatus.available one_car_fs)). Defined.

(** ** Further properties of the record store and of the index store *)

Section StoreProperties.

Lemma lacks_firstn c n s : lacks c s -> lacks c (firstn n s).
Proof.
  intros H. rewrite <- (firstn_skipn n s) in H. now apply lacks_app in H.
Qed.

Lemma lacks_skipn c n s : lacks c s -> lacks c (skipn n s).
Proof.
  intros H. rewrite <- (firstn_skipn n s) in H. now apply lacks_app in H.
Qed.

Lemma write_at_lacks c off data file :
  c <> "000" -> lacks c data -> lacks c file -> lacks c (write_at off data file).
Proof.
  intros Hc Hd Hf. unfold write_at.
  repeat (apply lacks_app; split);
    [now apply lacks_firstn | now apply lacks_repeat | assumption
     | now apply lacks_skipn].
Qed.

Lemma format_record_lacks c data :
  c <> " " -> c <> "010" -> lacks c data -> lacks c (_format_record data).
Proof.
  intros H1 H2 Hd. unfold _format_record, ljust.
  repeat (apply lacks_app; split); [assumption | now apply lacks_repeat |].
  apply lacks_cons; split; [now apply Ascii.eqb_neq | reflexivity].
Qed.

Lemma read_slot_no_cr file position :
  lacks "013" file ->
  read_slot file position = rstrip (firstn RECORD_SIZE (skipn (slot_offset position) file)).
Proof.
  intros H. unfold read_slot.
  now rewrite universal_newlines_id by (now apply lacks_skipn).
Qed.

(** A write leaves the slots before it as they were, in a file without
    carriage returns. *)
Lemma read_slot_before file position data position' :
  lacks "013" file -> lacks "013" data ->
  (0 <= position' < position)%Z -> slot_offset position <= length file ->
  read_slot (write_at (slot_offset position) data file) position'
  = read_slot file position'.
Proof.
  intros Hf Hd Hp Hlen.
  rewrite !read_slot_no_cr by (assumption || (apply write_at_lacks; easy)).
  f_equal. unfold write_at.
  replace (slot_offset position - length file) with 0 by lia. cbn [repeat app].
  assert (Ho : slot_offset position' + RECORD_SIZE <= slot_offset position).
  { unfold slot_offset, RECORD_SIZE_WITH_NL, RECORD_SIZE.
    assert (Z.to_nat position' < Z.to_nat position) by lia. nia. }
  rewrite skipn_app, firstn_app.
  rewrite length_skipn, length_firstn.
  replace (RECORD_SIZE - (Nat.min (slot_offset position) (length file)
                          - slot_offset position')) with 0 by lia.
  cbn [firstn]. rewrite app_nil_r.
  rewrite <- (firstn_skipn (slot_offset position) file) at 2.
  rewrite skipn_app, firstn_app, length_skipn, length_firstn.
  replace (RECORD_SIZE - (Nat.min (slot_offset position) (length file)
                          - slot_offset position')) with 0 by lia.
  cbn [firstn]. now rewrite app_nil_r.
Qed.

End StoreProperties.

(** X1.  Record store round trip: writing the formatted record of a
    payload of at most 500 characters without carriage return at a
    position that is not negative, then reading that position, returns the
    payload without its trailing whitespace; the file then reaches at
    least to the end of that slot, and every slot behind it reads as
    before. *)
Theorem write_then_read_record (p : path) (pos : Z) (data : text) (fs : FS) :
  (0 <= pos)%Z -> length data <= RECORD_SIZE -> lacks "013" data ->
  exists fs',
    (_write_record p pos (_format_record data) ;;; _read_record p pos) fs
      = (Return (rstrip data), fs')
    /\ length (getf p fs')
       = Nat.max (slot_offset pos + RECORD_SIZE_WITH_NL) (length (getf p fs))
    /\ (forall q, q <> p -> getf q fs' = getf q fs)
    /\ (forall pos', (pos < pos')%Z ->
          _read_record p pos' fs' = (Return (read_slot (getf p fs) pos'), fs')).
Proof.
  intros Hp Hl Hcr.
  exists (setf p (write_at (slot_offset pos) (_format_record data) (getf p fs)) fs).
  split; [|split; [|split]].
  - erewrite bind_return by (now apply write_record_eq).
    rewrite read_record_eq by assumption.
    now rewrite getf_setf_same, read_slot_written.
  - rewrite getf_setf_same, write_at_length, format_record_fits by assumption.
    reflexivity.
  - intros q Hq. now apply getf_setf_other.
  - intros pos' Hlt. rewrite read_record_eq by lia.
    rewrite getf_setf_same, read_slot_after by (assumption || lia). reflexivity.
Qed.

Lemma write_then_read_record_witness :
  exists fs',
    (_write_record cars_file 2 (_format_record (txt "a|b|c|d|e  ")) ;;;
     _read_record cars_file 2) empty_fs
    = (Return (txt "a|b|c|d|e"), fs').
Proof.
  destruct (write_then_read_record cars_file 2 (txt "a|b|c|d|e  ") empty_fs)
    as (fs' & H & _).
  - lia.
  - vm_compute; repeat constructor.
  - reflexivity.
  - exists fs'. exact H.
Defined.

(** X2.  Bounds of the record store: a negative position makes
    [_read_record] and [_write_record] raise (the seek fails) without
    touching the file; a position at or behind the end of the file is no
    error for [_read_record], which returns the empty string. *)
Theorem record_store_bounds (p : path) (pos : Z) (record : text) (fs : FS) :
  ((pos < 0)%Z ->
     _read_record p pos fs = (Raise (NegativeSeek pos), fs)
     /\ _write_record p pos record fs = (Raise (NegativeSeek pos), fs))
  /\ ((0 <= pos)%Z -> length (getf p fs) <= slot_offset pos ->
        _read_record p pos fs = (Return [], fs)).
Proof.
  split.
  - intros H. unfold _read_record, _write_record.
    destruct (Z.ltb_spec pos 0); [split; reflexivity | lia].
  - intros H Hlen. rewrite read_record_eq by assumption.
    unfold read_slot. now rewrite skipn_all2 by assumption.
Qed.

Lemma record_store_bounds_witness :
  _read_record cars_file (-1) one_car_fs = (Raise (NegativeSeek (-1)), one_car_fs)
  /\ _read_record cars_file 1 one_car_fs = (Return [], one_car_fs).
Proof.
  destruct (record_store_bounds cars_file (-1) [] one_car_fs) as [H1 _].
  destruct (record_store_bounds cars_file 1 [] one_car_fs) as [_ H2].
  split.
  - apply H1. lia.
  - apply H2; [lia | vm_compute; repeat constructor].
Defined.

(** X3.  Index store round trip: saving an index whose keys are sound (no
    colon, no line break, no leading whitespace) and loading the file
    returns the saved entries in ascending order of their keys, entries
    with equal keys in the order they were saved: nothing is lost or
    added, and the first position of every key is kept. *)
Theorem save_then_load_index (p : path) (idx : index_t) (fs : FS) :
  Forall key_ok (map fst idx) ->
  exists loaded fs',
    (_save_index idx p ;;; _load_index p) fs = (Return loaded, fs')
    /\ getf p fs' = text_of_index idx
    /\ (forall q, q <> p -> getf q fs' = getf q fs)
    /\ Permutation loaded idx
    /\ keys_sorted loaded
    /\ (forall k, entries_of k loaded = entries_of k idx)
    /\ (forall k, find_position k loaded = find_position k idx)
    /\ (keys_sorted idx -> loaded = idx).
Proof.
  intros H. exists (sorted key_le idx), (setf p (text_of_index idx) fs).
  split; [|split; [|split; [|split; [|split; [|split; [|split]]]]]].
  - erewrite bind_return by reflexivity.
    rewrite load_index_eq, getf_setf_same. now rewrite index_of_text_saved.
  - apply getf_setf_same.
  - intros q Hq. now apply getf_setf_other.
  - apply sorted_perm.
  - apply sorted_Sorted, key_le_total.
  - intros k. apply entries_of_sorted.
  - intros k. apply find_position_sorted.
  - intros Hs. now apply sorted_id.
Qed.

Lemma save_then_load_index_witness :
  exists fs',
    (_save_index [(txt "b", 0%Z); (txt "a", 2%Z); (txt "b", 1%Z)] cars_index_file ;;;
     _load_index cars_index_file) empty_fs
    = (Return [(txt "a", 2%Z); (txt "b", 0%Z); (txt "b", 1%Z)], fs').
Proof.
  destruct (save_then_load_index cars_index_file
              [(txt "b", 0%Z); (txt "a", 2%Z); (txt "b", 1%Z)] empty_fs)
    as (loaded & fs' & H & _).
  - unfold key_ok, lacks. repeat constructor.
  - exists fs'. rewrite H. f_equal. f_equal.
    vm_compute in H. now injection H as <- _.
Defined.

(** X4.  Whatever an index file holds, an index that [_load_index] returns
    is in ascending order of its keys, its keys have no colon, no line
    break and no leading whitespace, and loading changes no file; the
    empty file loads as the empty index. *)
Theorem load_index_result_sound (p : path) (fs fs' : FS) (idx : index_t) :
  _load_index p fs = (Return idx, fs') ->
  fs' = fs /\ keys_sorted idx /\ Forall key_ok (map fst idx)
  /\ (getf p fs = [] -> idx = []).
Proof.
  intros H. pose proof (load_index_state _ _ _ _ H) as ->.
  pose proof (load_index_inv _ _ _ _ H) as Hi.
  split; [reflexivity|]. split; [now apply (index_of_text_Sorted _ _ Hi)|].
  split; [now apply (index_of_text_keys_ok _ _ Hi)|].
  intros E. rewrite E in Hi. cbv in Hi. now injection Hi as <-.
Qed.

Lemma load_index_result_sound_witness :
  keys_sorted [(txt "a", 5%Z); (txt "b", (-3)%Z)].
Proof.
  apply (load_index_result_sound cars_index_file
           (setf cars_index_file (txt " b: -3
junk
a:0_5") empty_fs)
           (setf cars_index_file (txt " b: -3
junk
a:0_5") empty_fs)).
  vm_compute. reflexivity.
Defined.

(** ** Error paths of the repository methods *)

(** X5.  [add_car] writes before it loads the index: when the cars index
    does not load (a line with a colon whose position is no integer),
    [add_car] raises the error of the load after the record of the car was
    appended to the data file, and the index file is left as it was, so
    the new slot has no index entry. *)
Theorem add_car_unloadable_index (car : Car.t) (fs : FS) (e : exn) :
  _load_index cars_index_file fs = (Raise e, fs) ->
  exists fs',
    add_car car fs = (Raise e, fs')
    /\ fs_cars fs' = append_record (fs_cars fs) (car_data car)
    /\ length (fs_cars fs') >= length (fs_cars fs) + 1
    /\ fs_cars_index fs' = fs_cars_index fs
    /\ fs_models fs' = fs_models fs /\ fs_models_index fs' = fs_models_index fs
    /\ fs_sales fs' = fs_sales fs /\ fs_sales_index fs' = fs_sales_index fs.
Proof.
  intros Hload. rewrite load_index_eq in Hload. cbn [getf] in Hload.
  injection Hload as Hload.
  exists (setf cars_file (append_record (fs_cars fs) (car_data car)) fs).
  split.
  - unfold add_car.
    rewrite (bind_return _ _ fs (Z.of_nat (slot_count (fs_cars fs))) fs) by reflexivity.
    erewrite bind_return by (apply write_record_eq; lia).
    erewrite bind_raise
      by (rewrite load_index_eq; cbn [getf setf fs_cars_index]; rewrite Hload;
          reflexivity).
    reflexivity.
  - cbn [setf fs_cars fs_cars_index fs_models fs_models_index fs_sales fs_sales_index].
    repeat split.
    unfold append_record. rewrite write_at_length, format_record_length.
    unfold slot_offset, slot_count, RECORD_SIZE_WITH_NL, RECORD_SIZE.
    rewrite Nat2Z.id.
    pose proof (Nat.div_mod_eq (length (fs_cars fs)) 501) as E.
    pose proof (Nat.mod_upper_bound (length (fs_cars fs)) 501 ltac:(lia)) as B. lia.
Qed.

Lemma add_car_unloadable_index_witness :
  exists fs',
    add_car sample_car corrupt_index_fs = (Raise (IntValueError (txt "first")), fs')
    /\ fs_cars fs' = append_record [] (car_data sample_car)
    /\ fs_cars_index fs' = txt "XTA21099:first".
Proof.
  destruct (add_car_unloadable_index sample_car corrupt_index_fs
              (IntValueError (txt "first")))
    as (fs' & H1 & H2 & _ & H3 & _).
  - vm_compute. reflexivity.
  - exists fs'. repeat split; assumption.
Defined.

(** X6.  [update_vin] of a vin that has no entry in the loaded cars index
    raises [ValueError("Car ... not found")] and changes no file. *)
Theorem update_vin_missing (vin new_vin : text) (fs : FS) (idx : index_t) :
  _load_index cars_index_file fs = (Return idx, fs) ->
  ~ In vin (map fst idx) ->
  update_vin vin new_vin fs = (Raise (CarNotFound vin), fs).
Proof.
  intros Hload Habsent. apply load_index_inv in Hload. cbn [getf] in Hload.
  apply (update_vin_not_found vin new_vin fs idx Hload).
  now apply find_position_None.
Qed.

Lemma update_vin_missing_witness :
  update_vin (txt "KNAGM4A7") (txt "AAA00001") one_car_fs
  = (Raise (CarNotFound (txt "KNAGM4A7")), one_car_fs).
Proof.
  apply (update_vin_missing _ _ _ [(Car.vin sample_car, 0%Z)]).
  - vm_compute. reflexivity.
  - vm_compute. intuition discriminate.
Defined.

(** X7.  [revert_sale] of a sales number that has no entry in the loaded
    sales index raises [ValueError("Sale ... not found")]; when the entry
    points to a slot whose record does not split into five fields, it
    raises [ValueError("Invalid sale format")].  Neither changes a file. *)
Theorem revert_sale_errors (sales_number : text) (fs : FS) (idx : index_t) :
  _load_index sales_index_file fs = (Return idx, fs) ->
  (~ In sales_number (map fst idx) ->
     revert_sale sales_number fs = (Raise (SaleNotFound sales_number), fs))
  /\ (forall pos,
        find_position sales_number idx = Some pos -> (0 <= pos)%Z ->
        length (split "|" 4 (read_slot (fs_sales fs) pos)) <> 5 ->
        revert_sale sales_number fs = (Raise InvalidSaleFormat, fs)).
Proof.
  intros Hload. apply load_index_inv in Hload. cbn [getf] in Hload.
  split.
  - intros Habsent. apply find_position_None in Habsent. unfold revert_sale.
    erewrite bind_return
      by (rewrite load_index_eq; cbn [getf]; rewrite Hload; reflexivity).
    now rewrite Habsent.
  - intros pos Hfind Hpos Hlen. unfold revert_sale.
    erewrite bind_return
      by (rewrite load_index_eq; cbn [getf]; rewrite Hload; reflexivity).
    rewrite Hfind.
    erewrite bind_return by (now apply read_record_eq).
    cbn [getf]. apply Nat.eqb_neq in Hlen. now rewrite Hlen.
Qed.

Lemma revert_sale_errors_witness :
  revert_sale (txt "S1") one_car_fs = (Raise (SaleNotFound (txt "S1")), one_car_fs).
Proof.
  destruct (revert_sale_errors (txt "S1") one_car_fs []) as [H _].
  - reflexivity.
  - apply H. intros [].
Defined.

(** X8.  [_update_car_status] never reports a missing car: for a vin that
    has no entry in the loaded cars index, and for a vin whose slot does
    not hold five fields, it returns normally and changes no file. *)
Theorem update_car_status_silent (vin status : text) (fs : FS) (idx : index_t) :
  _load_index cars_index_file fs = (Return idx, fs) ->
  (~ In vin (map fst idx) -> _update_car_status vin status fs = (Return tt, fs))
  /\ (forall pos,
        find_position vin idx = Some pos -> (0 <= pos)%Z ->
        length (split "|" 4 (read_slot (fs_cars fs) pos)) <> 5 ->
        _update_car_status vin status fs = (Return tt, fs)).
Proof.
  intros Hload. apply load_index_inv in Hload. cbn [getf] in Hload.
  split.
  - intros Habsent. apply (update_car_status_absent _ _ _ idx Hload).
    now apply find_position_None.
  - intros pos Hfind Hpos Hlen. unfold _update_car_status.
    erewrite bind_return
      by (rewrite load_index_eq; cbn [getf]; rewrite Hload; reflexivity).
    rewrite update_car_status_loop_eq, Hfind.
    erewrite bind_return by (now apply read_record_eq).
    cbn [getf]. apply Nat.eqb_neq in Hlen. now rewrite Hlen.
Qed.

Lemma update_car_status_silent_witness :
  _update_car_status (txt "KNAGM4A7") CarStatus.sold one_car_fs
  = (Return tt, one_car_fs).
Proof.
  destruct (update_car_status_silent (txt "KNAGM4A7") CarStatus.sold one_car_fs
              [(Car.vin sample_car, 0%Z)]) as [H _].
  - vm_compute. reflexivity.
  - apply H. vm_compute. intuition discriminate.
Defined.

(** X9.  Errors of [_get_car_by_vin]: a vin without entry in the loaded
    cars index, and a vin whose slot reads as the empty string (a blank
    slot or a position behind the end of the file), raise
    [ValueError("Car ... not found")]; a vin whose slot holds a record
    that is not empty and has fewer than five fields raises [IndexError].
    No file is changed. *)
Theorem get_car_by_vin_errors (vin : text) (fs : FS) (idx : index_t) :
  _load_index cars_index_file fs = (Return idx, fs) ->
  (~ In vin (map fst idx) -> _get_car_by_vin vin fs = (Raise (CarNotFound vin), fs))
  /\ (forall pos,
        find_position vin idx = Some pos -> (0 <= pos)%Z ->
        (read_slot (fs_cars fs) pos = [] ->
           _get_car_by_vin vin fs = (Raise (CarNotFound vin), fs))
        /\ (read_slot (fs_cars fs) pos <> [] ->
            length (split "|" 4 (read_slot (fs_cars fs) pos)) < 5 ->
            _get_car_by_vin vin fs = (Raise IndexError, fs))).
Proof.
  intros Hload. apply load_index_inv in Hload. cbn [getf] in Hload.
  split.
  - intros Habsent. apply find_position_None in Habsent. unfold _get_car_by_vin.
    erewrite bind_return
      by (rewrite (find_car_by_vin_eq _ _ idx) by assumption;
          rewrite Habsent; reflexivity).
    reflexivity.
  - intros pos Hfind Hpos.
    assert (Hf : _find_car_by_vin vin fs
                 = (Return (Some (read_slot (fs_cars fs) pos)), fs)).
    { rewrite (find_car_by_vin_eq _ _ idx) by assumption. rewrite Hfind.
      destruct (Z.ltb_spec pos 0); [lia | reflexivity]. }
    split.
    + intros E. unfold _get_car_by_vin. rewrite (bind_return _ _ _ _ _ Hf).
      now rewrite E.
    + intros N Hlen. unfold _get_car_by_vin. rewrite (bind_return _ _ _ _ _ Hf).
      destruct (read_slot (fs_cars fs) pos) as [|x data] eqn:E; [congruence|].
      destruct (split "|" 4 (x :: data)) as [|f0 [|f1 [|f2 [|f3 [|f4 l]]]]];
        cbn [length] in Hlen; try lia; reflexivity.
Qed.

Lemma get_car_by_vin_errors_witness :
  _get_car_by_vin (txt "KNAGM4A7") one_car_fs
  = (Raise (CarNotFound (txt "KNAGM4A7")), one_car_fs).
Proof.
  destruct (get_car_by_vin_errors (txt "KNAGM4A7") one_car_fs
              [(Car.vin sample_car, 0%Z)]) as [H _].
  - vm_compute. reflexivity.
  - apply H. vm_compute. intuition discriminate.
Defined.

(** ** The read paths change no file *)

Section ReadPaths.

Lemma read_only_for_each {X S} (xs : list X) (body : X -> S -> M S) :
  (forall x acc, read_only (body x acc)) ->
  forall acc, read_only (for_each xs body acc).
Proof.
  intros Hb. induction xs as [|x xs IH]; intros acc; cbn [for_each].
  - apply read_only_ret.
  - apply read_only_bind; [apply Hb | intros; apply IH].
Qed.

Lemma read_only_if {A} (b : bool) (c d : M A) :
  read_only c -> read_only d -> read_only (if b then c else d).
Proof. now destruct b. Qed.

Lemma read_only_get_cars_step status pos cars :
  read_only (get_cars_step status pos cars).
Proof.
  apply read_only_bind; [apply read_only_read_record|]. intros record.
  destruct (strip record); [apply read_only_ret|].
  apply read_only_if; apply read_only_ret.
Qed.

Lemma read_only_get_cars status : read_only (get_cars status).
Proof.
  intros fs. unfold get_cars.
  destruct (length (getf cars_file fs) =? 0)%nat; [reflexivity|].
  apply read_only_for_each. intros; apply read_only_get_cars_step.
Qed.

Lemma read_only_count_sale_step pos model_sales :
  read_only (count_sale_step pos model_sales).
Proof.
  apply read_only_bind; [apply read_only_read_record|]. intros record.
  destruct (strip record); [apply read_only_ret|].
  apply read_only_if; [|apply read_only_ret].
  apply read_only_bind; [apply read_only_find_car_by_vin|].
  intros [[|x data]|]; try apply read_only_ret.
  apply read_only_if; apply read_only_ret.
Qed.

Lemma read_only_model_data_step entry models_data :
  read_only (model_data_step entry models_data).
Proof.
  destruct entry as [model_id pos]. cbn [model_data_step].
  apply read_only_bind; [apply read_only_read_record|]. intros record.
  destruct (strip record); [apply read_only_ret|].
  apply read_only_if; apply read_only_ret.
Qed.

Lemma read_only_top_models_by_sales : read_only top_models_by_sales.
Proof.
  intros fs. unfold top_models_by_sales.
  destruct (length (getf sales_file fs) =? 0)%nat; [reflexivity|].
  apply read_only_bind.
  - apply read_only_for_each. intros; apply read_only_count_sale_step.
  - intros model_sales. apply read_only_bind; [apply read_only_load_index|].
    intros models_index. apply read_only_bind.
    + apply read_only_for_each. intros; apply read_only_model_data_step.
    + intros; apply read_only_ret.
Qed.

Lemma read_only_find_model_loop model_id idx :
  read_only (find_model_loop model_id idx).
Proof.
  induction idx as [|[m pos] idx IH]; cbn [find_model_loop]; [apply read_only_ret|].
  destruct (text_eqb m model_id); [|assumption].
  apply read_only_bind; [apply read_only_read_record|].
  intros; apply read_only_ret.
Qed.

Lemma read_only_find_model_by_id model_id : read_only (_find_model_by_id model_id).
Proof.
  apply read_only_bind; [apply read_only_load_index|].
  intros; apply read_only_find_model_loop.
Qed.

Lemma read_only_find_active_sale_loop vin positions :
  read_only (find_active_sale_loop vin positions).
Proof.
  induction positions as [|pos positions IH]; cbn [find_active_sale_loop];
    [apply read_only_ret|].
  apply read_only_bind; [apply read_only_read_record|]. intros record.
  apply read_only_if; [apply read_only_ret | assumption].
Qed.

Lemma read_only_find_active_sale_by_vin vin :
  read_only (_find_active_sale_by_vin vin).
Proof.
  intros fs. unfold _find_active_sale_by_vin.
  destruct (length (getf sales_file fs) =? 0)%nat; [reflexivity|].
  apply read_only_find_active_sale_loop.
Qed.

Lemma info_read_only_iret {A} (a : A) : info_read_only (iret a).
Proof. intros fs; reflexivity. Qed.

Lemma info_read_only_lift_bind {A B} (c : M A) (k : A -> IM B) :
  read_only c -> (forall a, info_read_only (k a)) -> info_read_only (lift_bind c k).
Proof.
  intros Hc Hk fs. unfold lift_bind. specialize (Hc fs).
  destruct (c fs) as [[a|e] fs']; cbn [snd] in *; subst; [apply Hk | reflexivity].
Qed.

Lemma info_read_only_parse_bind {T B} (parsed : option T) e (k : T -> IM B) :
  (forall v, info_read_only (k v)) -> info_read_only (parse_bind parsed e k).
Proof. intros Hk. destruct parsed; [apply Hk | intros fs; reflexivity]. Qed.

Lemma info_read_only_if {A} (b : bool) (c d : IM A) :
  info_read_only c -> info_read_only d -> info_read_only (if b then c else d).
Proof. now destruct b. Qed.

Lemma info_read_only_sale_of_sold_car {datetime decimal}
  (fromisoformat : text -> option datetime) (Decimal : text -> option decimal)
  car_vin status_str :
  info_read_only (sale_of_sold_car datetime decimal fromisoformat Decimal
                    car_vin status_str).
Proof.
  unfold sale_of_sold_car.
  apply info_read_only_if; [|apply info_read_only_iret].
  apply info_read_only_lift_bind; [apply read_only_find_active_sale_by_vin|].
  intros [[|x data]|]; try apply info_read_only_iret.
  apply info_read_only_if; [|apply info_read_only_iret].
  apply info_read_only_parse_bind. intros d.
  apply info_read_only_parse_bind. intros c. apply info_read_only_iret.
Qed.

Lemma info_read_only_get_car_info {datetime decimal}
  (fromisoformat : text -> option datetime) (Decimal : text -> option decimal) vin :
  info_read_only (get_car_info datetime decimal fromisoformat Decimal vin).
Proof.
  unfold get_car_info.
  apply info_read_only_lift_bind; [apply read_only_find_car_by_vin|].
  intros [[|x data]|]; try apply info_read_only_iret.
  apply info_read_only_if; [apply info_read_only_iret|].
  apply info_read_only_lift_bind; [apply read_only_find_model_by_id|].
  intros [[|y mdata]|]; try apply info_read_only_iret.
  apply info_read_only_if; [apply info_read_only_iret|].
  intros fs.
  pose proof (info_read_only_sale_of_sold_car fromisoformat Decimal
                (strip (nth 0 (split "|" 4 (x :: data)) []))
                (strip (nth 4 (split "|" 4 (x :: data)) [])) fs) as H.
  destruct (sale_of_sold_car _ _ _ _ _ _ fs) as [[[d c]|e|e] fs'];
    cbn [snd] in *; assumption.
Qed.

End ReadPaths.

(** X10.  The read paths change no file, whatever they return or raise:
    [get_cars], [top_models_by_sales], [_get_car_by_vin],
    [_find_car_by_vin], [_find_model_by_id], [_find_active_sale_by_vin] and
    [get_car_info] (for any behaviour of the date and decimal parsers)
    leave the six files as they found them. *)
Theorem read_paths_change_no_file :
  (forall status fs, snd (get_cars status fs) = fs)
  /\ (forall fs, snd (top_models_by_sales fs) = fs)
  /\ (forall vin fs, snd (_get_car_by_vin vin fs) = fs)
  /\ (forall vin fs, snd (_find_car_by_vin vin fs) = fs)
  /\ (forall model_id fs, snd (_find_model_by_id model_id fs) = fs)
  /\ (forall vin fs, snd (_find_active_sale_by_vin vin fs) = fs)
  /\ (forall (datetime decimal : Type) (fromisoformat : text -> option datetime)
             (Decimal : text -> option decimal) vin fs,
        snd (get_car_info datetime decimal fromisoformat Decimal vin fs) = fs).
Proof.
  repeat split; intros.
  - apply read_only_get_cars.
  - apply read_only_top_models_by_sales.
  - apply read_only_get_car_by_vin.
  - apply read_only_find_car_by_vin.
  - apply read_only_find_model_by_id.
  - apply read_only_find_active_sale_by_vin.
  - apply info_read_only_get_car_info.
Qed.

(** ** The models repository *)

Section Models.

Lemma find_model_loop_eq model_id idx fs :
  find_model_loop model_id idx fs =
  match find_position model_id idx with
  | Some pos => (record <- _read_record models_file pos ;; ret (Some record)) fs
  | None => (Return None, fs)
  end.
Proof.
  induction idx as [|[m pos] idx IH]; simpl; [reflexivity|].
  destruct (text_eqb m model_id); [reflexivity | assumption].
Qed.

Lemma find_model_by_id_eq model_id fs idx :
  index_of_text (fs_models_index fs) = Return idx ->
  _find_model_by_id model_id fs
  = match find_position model_id idx with
    | Some pos =>
        if (pos <? 0)%Z then (Raise (NegativeSeek pos), fs)
        else (Return (Some (read_slot (fs_models fs) pos)), fs)
    | None => (Return None, fs)
    end.
Proof.
  intros Hload. unfold _find_model_by_id.
  erewrite bind_return by (rewrite load_index_eq; cbn [getf]; rewrite Hload; reflexivity).
  rewrite find_model_loop_eq. destruct (find_position model_id idx) as [pos|];
    [|reflexivity].
  unfold bind, _read_record. destruct (pos <? 0)%Z; reflexivity.
Qed.

Lemma add_model_eq model fs idx :
  index_of_text (fs_models_index fs) = Return idx ->
  add_model model fs = (Return model, fs_add_model model idx fs).
Proof.
  intros Hload. unfold add_model.
  rewrite (bind_return _ _ fs (Z.of_nat (slot_count (fs_models fs))) fs) by reflexivity.
  erewrite bind_return by (apply write_record_eq; lia).
  erewrite bind_return
    by (rewrite load_index_eq; cbn [getf setf fs_models_index]; rewrite Hload;
        reflexivity).
  reflexivity.
Qed.

Lemma model_data_clean model :
  model_ok model ->
  lacks "013" (model_data model) /\ rstrip (model_data model) = model_data model
  /\ split "|" 2 (model_data model)
     = [Model.id model; Model.name model; Model.brand model].
Proof.
  destruct model as [id name brand].
  intros ((_ & _ & Hi1 & Hi2 & _) & (Hn1 & Hn2 & _) & Hb2 & Hb3 & _).
  unfold model_data; cbn [Model.id Model.name Model.brand] in *.
  split; [|split].
  - repeat (apply lacks_app; split; [assumption|];
            apply lacks_cons; split; [reflexivity|]). assumption.
  - repeat (apply rstrip_app_fixed; [discriminate|];
            apply rstrip_cons_fixed; [reflexivity|]).
    now apply stripped_rstrip.
  - change (id ++ "|" :: name ++ "|" :: brand) with (join "|" [id; name; brand]).
    apply split_join; [reflexivity|]. cbn [removelast]. repeat constructor; assumption.
Qed.

(** After [add_model] of a sound model, the index loads, the model is
    found at the slot that was free, and that slot holds its record. *)
Lemma fs_add_model_loaded model idx fs :
  index_of_text (fs_models_index fs) = Return idx -> model_ok model ->
  let pos := Z.of_nat (slot_count (fs_models fs)) in
  index_of_text (fs_models_index (fs_add_model model idx fs))
    = Return (index_insert idx (Model.id model) pos)
  /\ read_slot (fs_models (fs_add_model model idx fs)) pos = model_data model.
Proof.
  intros Hload Hok pos.
  destruct (model_data_clean model Hok) as (Hcr & Hrs & _).
  unfold fs_add_model. cbn [setf fs_models fs_models_index]. fold pos. split.
  - rewrite index_of_text_saved.
    + f_equal. apply sorted_id, sorted_Sorted, key_le_total.
    + apply index_insert_keys_ok; [now apply (index_of_text_keys_ok _ _ Hload)|].
      apply vin_ok_key_ok, Hok.
  - unfold append_record. rewrite read_slot_written; try assumption; [lia|].
    apply Hok.
Qed.

End Models.

(** X11.  Round trip of the models repository: when the models index
    loads, the id of the model is not in it, and the model is one the
    format can hold, [add_model] returns the model, changes only the two
    files of the models, and [_find_model_by_id] of its id then returns
    its record, which splits into its id, name and brand. *)
Theorem add_model_round_trip (model : Model.t) (fs : FS) (idx : index_t) :
  _load_index models_index_file fs = (Return idx, fs) ->
  ~ In (Model.id model) (map fst idx) ->
  model_ok model ->
  exists fs',
    add_model model fs = (Return model, fs')
    /\ _find_model_by_id (Model.id model) fs' = (Return (Some (model_data model)), fs')
    /\ split "|" 2 (model_data model)
       = [Model.id model; Model.name model; Model.brand model]
    /\ fs_cars fs' = fs_cars fs /\ fs_cars_index fs' = fs_cars_index fs
    /\ fs_sales fs' = fs_sales fs /\ fs_sales_index fs' = fs_sales_index fs.
Proof.
  intros Hload Hfresh Hok. apply load_index_inv in Hload. cbn [getf] in Hload.
  exists (fs_add_model model idx fs).
  destruct (fs_add_model_loaded model idx fs Hload Hok) as [Hidx Hrec].
  split; [now apply add_model_eq|]. split.
  - rewrite (find_model_by_id_eq _ _ _ Hidx), find_position_insert.
    apply find_position_None in Hfresh. rewrite Hfresh, text_eqb_refl.
    destruct (Z.ltb_spec (Z.of_nat (slot_count (fs_models fs))) 0); [lia|].
    now rewrite Hrec.
  - split; [now apply model_data_clean|]. repeat split.
Qed.

Lemma sample_model_ok : model_ok sample_model.
Proof. unfold model_ok, vin_ok, field_ok, lacks, stripped. decide_ok. Qed.

Lemma add_model_round_trip_witness :
  exists fs',
    add_model sample_model empty_fs = (Return sample_model, fs')
    /\ _find_model_by_id (txt "1") fs' = (Return (Some (txt "1|Vesta|Lada")), fs').
Proof.
  destruct (add_model_round_trip sample_model empty_fs [])
    as (fs' & H1 & H2 & _).
  - reflexivity.
  - intros [].
  - exact sample_model_ok.
  - exists fs'. split; assumption.
Defined.

(** ** Scans after an append *)

Section ScansAfterAppend.

Lemma slot_count_offset (file : text) :
  slot_offset (Z.of_nat (slot_count file)) <= length file.
Proof.
  unfold slot_offset, slot_count, RECORD_SIZE_WITH_NL. rewrite Nat2Z.id.
  pose proof (Nat.div_mod_eq (length file) 501). lia.
Qed.

(** Appending a record adds one slot and leaves the records of the other
    slots as they were, in a file without carriage returns. *)
Lemma slot_records_append file data :
  lacks "013" file -> lacks "013" data -> length data <= RECORD_SIZE ->
  slot_records (append_record file data) = slot_records file ++ [rstrip data].
Proof.
  intros Hf Hd Hl. unfold slot_records.
  destruct (append_record_slots file data Hl) as [_ ->].
  rewrite range_succ, map_app. cbn [map]. f_equal.
  - apply map_ext_in. intros pos Hpos. unfold range in Hpos.
    apply in_map_iff in Hpos as (n & <- & Hn). apply in_seq in Hn.
    unfold append_record. apply read_slot_before; try assumption.
    + apply format_record_lacks; [discriminate | discriminate | assumption].
    + lia.
    + apply slot_count_offset.
  - f_equal. unfold append_record. apply read_slot_written; [lia | assumption..].
Qed.

Lemma write_at_twice off d1 d2 (file : text) :
  length d1 = length d2 ->
  write_at off d2 (write_at off d1 file) = write_at off d2 file.
Proof.
  intros Hl. unfold write_at at 1.
  rewrite skipn_write_at_after by lia.
  rewrite write_at_length.
  replace (off - Nat.max (off + length d1) (length file)) with 0 by lia.
  cbn [repeat app]. unfold write_at. rewrite firstn_app.
  rewrite firstn_firstn, Nat.min_id.
  rewrite length_firstn.
  rewrite firstn_app, repeat_length.
  rewrite (firstn_all2 (repeat "000" (off - length file)))
    by (rewrite repeat_length; lia).
  replace (off - Nat.min off (length file) - (off - length file)) with 0 by lia.
  cbn [firstn]. now rewrite app_nil_r, <- app_assoc.
Qed.

(** The cars that [get_cars] returns, from the records of the slots. *)
Lemma list_by_status_records file status :
  map snd (list_by_status file status)
  = flat_map (fun record => match decode_car record with
                            | Some c => if text_eqb (Car.status c) status
                                        then [c] else []
                            | None => []
                            end) (slot_records file).
Proof.
  unfold list_by_status, cars_by_slot, slot_records.
  induction (range (slot_count file)) as [|pos l IH]; [reflexivity|].
  cbn [flat_map map]. rewrite filter_app, map_app, IH. f_equal.
  destruct (decode_car (read_slot file pos)); [|reflexivity].
  cbn [filter snd]. destruct (text_eqb (Car.status t) status); reflexivity.
Qed.

Lemma find_active_sale_loop_eq vin fs : forall positions,
  Forall (fun pos => (0 <= pos)%Z) positions ->
  find_active_sale_loop vin positions fs
  = (Return (find (is_active_sale_of vin) (map (read_slot (fs_sales fs)) positions)),
     fs).
Proof.
  induction positions as [|pos positions IH]; intros H; [reflexivity|].
  inversion H; subst. cbn [find_active_sale_loop map find].
  erewrite bind_return by (now apply read_record_eq).
  cbn [getf]. unfold is_active_sale_of at 1.
  destruct (_ && _ && _); [reflexivity | now apply IH].
Qed.

Lemma find_active_sale_by_vin_eq vin fs :
  _find_active_sale_by_vin vin fs
  = (Return (find (is_active_sale_of vin) (slot_records (fs_sales fs))), fs).
Proof.
  unfold _find_active_sale_by_vin, slot_records, slot_count. cbn [getf].
  destruct (length (fs_sales fs) =? 0)%nat eqn:E.
  - apply Nat.eqb_eq in E. rewrite E. reflexivity.
  - apply find_active_sale_loop_eq, range_nonneg.
Qed.

Lemma get_cars_eq status fs :
  get_cars status fs = (Return (map snd (list_by_status (fs_cars fs) status)), fs).
Proof.
  unfold get_cars, list_by_status, cars_by_slot, slot_count. cbn [getf].
  destruct (length (fs_cars fs) =? 0)%nat eqn:E.
  - apply Nat.eqb_eq in E. rewrite E. reflexivity.
  - rewrite get_cars_scan by apply range_nonneg. reflexivity.
Qed.

End ScansAfterAppend.

(** X12.  Listing after an insert: when the cars index loads, the data
    file has no carriage return, and the car is one the format can hold,
    the listing of every status after [add_car] is the listing before it,
    followed by the new car when the status is the status of the car: the
    car comes last in the listing of its status and is in no other. *)
Theorem get_cars_after_add_car (car : Car.t) (fs : FS) (idx : index_t) :
  _load_index cars_index_file fs = (Return idx, fs) ->
  lacks "013" (fs_cars fs) ->
  car_ok car ->
  exists fs',
    add_car car fs = (Return car, fs')
    /\ forall status before,
         get_cars status fs = (Return before, fs) ->
         get_cars status fs'
         = (Return (before ++ if text_eqb (Car.status car) status then [car] else []),
            fs').
Proof.
  intros Hload Hcr Hok. apply load_index_inv in Hload. cbn [getf] in Hload.
  exists (fs_add_car car idx fs). split; [now apply add_car_eq|].
  intros status before Hbefore.
  rewrite get_cars_eq in Hbefore. injection Hbefore as <-.
  rewrite get_cars_eq. f_equal. f_equal.
  rewrite !list_by_status_records.
  destruct (fs_add_car_files car idx fs) as (-> & _).
  destruct (car_data_clean car Hok) as (Dcr & Drs & Ddec).
  rewrite slot_records_append; [|assumption|assumption|apply Hok].
  rewrite flat_map_app. f_equal. cbn [flat_map]. rewrite Drs, Ddec.
  apply app_nil_r.
Qed.

Lemma get_cars_after_add_car_witness :
  exists fs',
    add_car sample_car empty_fs = (Return sample_car, fs')
    /\ get_cars (txt "available") fs' = (Return [sample_car], fs')
    /\ get_cars (txt "sold") fs' = (Return [], fs').
Proof.
  destruct (get_cars_after_add_car sample_car empty_fs []) as (fs' & H1 & H2).
  - reflexivity.
  - reflexivity.
  - exact sample_car_ok.
  - exists fs'. split; [exact H1|]. split.
    + apply (H2 (txt "available") []). reflexivity.
    + apply (H2 (txt "sold") []). reflexivity.
Defined.

(** ** Selling, reverting and the joined view *)

Section SellRevertRun.

Lemma five_fields (fields : list text) :
  length fields = 5 -> exists f0 f1 f2 f3 f4, fields = [f0; f1; f2; f3; f4].
Proof.
  intros H. destruct fields as [|f0 [|f1 [|f2 [|f3 [|f4 [|? ?]]]]]];
    try discriminate. now exists f0, f1, f2, f3, f4.
Qed.

(** [sell_car] and [revert_sale] in the setting of a sale that goes
    through, with the states they leave. *)
Lemma sell_then_revert_run sale fs cidx sidx p fields :
  sellable sale fs cidx sidx p fields ->
  let fs1 := fs_sold sale sidx p fields fs in
  let fs2 := fs_reverted sale sidx p fields fs in
  sell_car sale fs = (Return (car_with_status fields CarStatus.sold), fs1)
  /\ revert_sale (Sale.sales_number sale) fs1
     = (Return (car_with_status fields CarStatus.available), fs2)
  /\ split "|" 4 (read_slot (fs_cars fs1) p) = list_set 4 CarStatus.sold fields
  /\ split "|" 4 (read_slot (fs_cars fs2) p) = list_set 4 CarStatus.available fields.
Proof.
  intros (Hcload & Hcfind & Hp & Hsplit & Hlen & Hroom & Hsload & Hfresh & Hok)
         fs1 fs2.
  destruct (five_fields fields Hlen) as (f0 & f1 & f2 & f3 & f4 & ->).
  cbn [list_set] in *.
  set (n := Sale.sales_number sale) in *. set (v := Sale.car_vin sale) in *.
  set (q := Z.of_nat (slot_count (fs_sales fs))).
  destruct (sale_data_clean sale (txt "False") Hok ltac:(now left))
    as (Fcr & Frs & Fsplit & Flen).
  fold n v in Fcr, Frs, Fsplit, Flen.
  change (join "|" [n; v; Sale.cost sale; Sale.sales_date sale; txt "False"])
    with (sale_data sale) in *.
  assert (Hv : strip v = v) by apply Hok.
  set (fsa := fs_sale_written sale sidx fs).
  set (sidx1 := index_insert sidx n q).
  assert (Hsold_fit : length (join "|" [f0; f1; f2; f3; CarStatus.sold]) <= RECORD_SIZE).
  { cbn [join] in *. rewrite !length_app in *. cbn [length] in *.
    rewrite !length_app in *. cbn [length] in *. rewrite !length_app in *.
    cbn [length] in *. rewrite !length_app in *.
    cbn [length CarStatus.sold CarStatus.available txt list_ascii_of_string] in *. lia. }
  destruct (set_status_and_get v CarStatus.sold fsa cidx p f0 f1 f2 f3 f4)
    as [Hsell Hsold]; try assumption; try reflexivity.
  fold (fs_sold sale sidx p [f0; f1; f2; f3; f4] fs) in Hsell, Hsold. fold fs1 in Hsell, Hsold.
  assert (Hs1 : index_of_text (fs_sales_index fs1) = Return sidx1).
  { unfold fs1, fs_sold, fsa. files. fold n q sidx1.
    rewrite index_of_text_saved.
    - f_equal. apply sorted_id, sorted_Sorted, key_le_total.
    - apply index_insert_keys_ok; [now apply (index_of_text_keys_ok _ _ Hsload)|].
      apply Hok. }
  assert (Hq : find_position n sidx1 = Some q).
  { unfold sidx1. rewrite find_position_insert.
    apply find_position_None in Hfresh. now rewrite Hfresh, text_eqb_refl. }
  assert (Hr1 : read_slot (fs_sales fs1) q = sale_data sale).
  { unfold fs1, fs_sold, fsa. files. unfold append_record. fold q.
    rewrite read_slot_written; [exact Frs | lia | exact Flen | exact Fcr]. }
  set (fsb := fs_sale_flagged (sale_fields sale (txt "False")) q fs1).
  destruct (set_status_and_get v CarStatus.available fsb cidx p f0 f1 f2 f3
              CarStatus.sold)
    as [Hrevert Havail]; try assumption; try reflexivity.
  split; [rewrite (sell_car_eq sale fs sidx Hsload); exact Hsell|].
  split; [|split; [exact Hsold | exact Havail]].
  rewrite (revert_sale_eq n fs1 sidx1 q n v (Sale.cost sale) (Sale.sales_date sale)
             (txt "False") Hs1 Hq ltac:(lia)) by (rewrite Hr1; exact Fsplit).
  change (text_eqb (strip (txt "False")) (txt "True")) with false. cbv iota.
  rewrite Hv. exact Hrevert.
Qed.

Lemma find_app {A} (f : A -> bool) (l1 l2 : list A) :
  find f (l1 ++ l2) = match find f l1 with Some x => Some x | None => find f l2 end.
Proof.
  induction l1 as [|x l1 IH]; [reflexivity|]. cbn [app find].
  destruct (f x); [reflexivity | exact IH].
Qed.

(** The sales file after the sale, and after its revert. *)
Lemma sales_after_sell_and_revert sale fs cidx sidx p fields :
  sellable sale fs cidx sidx p fields ->
  lacks "013" (fs_sales fs) ->
  slot_records (fs_sales (fs_sold sale sidx p fields fs))
    = slot_records (fs_sales fs) ++ [sale_data sale]
  /\ slot_records (fs_sales (fs_reverted sale sidx p fields fs))
     = slot_records (fs_sales fs) ++ [join "|" (sale_fields sale (txt "True"))].
Proof.
  intros (_ & _ & _ & _ & _ & _ & _ & _ & Hok) Hcr.
  destruct (sale_data_clean sale (txt "False") Hok ltac:(now left))
    as (Fcr & Frs & _ & Flen).
  destruct (sale_data_clean sale (txt "True") Hok ltac:(now right))
    as (Tcr & Trs & _ & Tlen).
  change (join "|" [Sale.sales_number sale; Sale.car_vin sale; Sale.cost sale;
                    Sale.sales_date sale; txt "False"])
    with (sale_data sale) in *.
  split.
  - unfold fs_sold. files.
    rewrite slot_records_append by assumption. now rewrite Frs.
  - unfold fs_reverted, fs_sold. files. unfold sale_fields at 1. cbn [list_set].
    unfold append_record at 1.
    rewrite write_at_twice by (now rewrite !format_record_fits).
    fold (append_record (fs_sales fs)
            (join "|" [Sale.sales_number sale; Sale.car_vin sale; Sale.cost sale;
                       Sale.sales_date sale; txt "True"])).
    rewrite slot_records_append by assumption.
    unfold sale_fields. now rewrite Trs.
Qed.

Lemma is_active_sale_of_sale sale :
  sale_ok sale ->
  is_active_sale_of (Sale.car_vin sale) (sale_data sale) = true
  /\ is_active_sale_of (Sale.car_vin sale)
       (join "|" (sale_fields sale (txt "True"))) = false.
Proof.
  intros Hok.
  destruct (sale_data_clean sale (txt "False") Hok ltac:(now left))
    as (_ & _ & Fsplit & _).
  destruct (sale_data_clean sale (txt "True") Hok ltac:(now right))
    as (_ & _ & Tsplit & _).
  assert (Hv : strip (Sale.car_vin sale) = Sale.car_vin sale) by apply Hok.
  unfold is_active_sale_of, sale_fields.
  change (sale_data sale)
    with (join "|" [Sale.sales_number sale; Sale.car_vin sale; Sale.cost sale;
                    Sale.sales_date sale; txt "False"]).
  rewrite Fsplit, Tsplit. cbn [length Nat.eqb nth andb].
  rewrite Hv, text_eqb_refl. split; reflexivity.
Qed.

End SellRevertRun.

(** X13.  The active sale of a car through the lifecycle: in the setting
    of a sale that goes through, when the sales file has no carriage
    return and holds no unflagged sale of the vin, after [sell_car] the
    scan [_find_active_sale_by_vin] returns the record of the sale, and
    after [revert_sale] of it the scan returns nothing. *)
Theorem active_sale_through_lifecycle
  (sale : Sale.t) (fs : FS) (cidx sidx : index_t) (p : Z) (fields : list text) :
  sellable sale fs cidx sidx p fields ->
  lacks "013" (fs_sales fs) ->
  _find_active_sale_by_vin (Sale.car_vin sale) fs = (Return None, fs) ->
  exists car1 car2 fs1 fs2,
    sell_car sale fs = (Return car1, fs1)
    /\ _find_active_sale_by_vin (Sale.car_vin sale) fs1
       = (Return (Some (sale_data sale)), fs1)
    /\ revert_sale (Sale.sales_number sale) fs1 = (Return car2, fs2)
    /\ _find_active_sale_by_vin (Sale.car_vin sale) fs2 = (Return None, fs2).
Proof.
  intros Hs Hcr Hnone.
  destruct (sell_then_revert_run sale fs cidx sidx p fields Hs) as (H1 & H2 & _).
  destruct (sales_after_sell_and_revert sale fs cidx sidx p fields Hs Hcr)
    as (R1 & R2).
  assert (Hok : sale_ok sale) by apply Hs.
  destruct (is_active_sale_of_sale sale Hok) as (A1 & A2).
  rewrite find_active_sale_by_vin_eq in Hnone. injection Hnone as Hnone.
  exists (car_with_status fields CarStatus.sold),
         (car_with_status fields CarStatus.available),
         (fs_sold sale sidx p fields fs), (fs_reverted sale sidx p fields fs).
  split; [exact H1|]. split; [|split; [exact H2|]].
  - rewrite find_active_sale_by_vin_eq, R1, find_app, Hnone. cbn [find].
    now rewrite A1.
  - rewrite find_active_sale_by_vin_eq, R2, find_app, Hnone. cbn [find].
    now rewrite A2.
Qed.

Lemma sample_sale_sellable :
  sellable sample_sale one_car_fs [(Car.vin sample_car, 0%Z)] [] 0%Z
    [txt "XTA21099"; txt "1"; txt "1000.50"; txt "2024-02-03T00:00:00";
     txt "available"].
Proof.
  unfold sellable.
  split; [vm_compute; reflexivity|]. split; [reflexivity|]. split; [lia|].
  split; [vm_compute; reflexivity|]. split; [reflexivity|].
  split; [vm_compute; repeat constructor|]. split; [reflexivity|].
  split; [intros [] | exact sample_sale_ok].
Qed.

Lemma active_sale_through_lifecycle_witness :
  exists car1 car2 fs1 fs2,
    sell_car sample_sale one_car_fs = (Return car1, fs1)
    /\ _find_active_sale_by_vin (txt "XTA21099") fs1
       = (Return (Some (sale_data sample_sale)), fs1)
    /\ revert_sale (Sale.sales_number sample_sale) fs1 = (Return car2, fs2)
    /\ _find_active_sale_by_vin (txt "XTA21099") fs2 = (Return None, fs2).
Proof.
  apply (active_sale_through_lifecycle sample_sale one_car_fs
           [(Car.vin sample_car, 0%Z)] [] 0%Z
           [txt "XTA21099"; txt "1"; txt "1000.50"; txt "2024-02-03T00:00:00";
            txt "available"]).
  - exact sample_sale_sellable.
  - reflexivity.
  - reflexivity.
Defined.

Section CarInfoFacts.

Context {datetime decimal : Type}.
Variable fromisoformat : text -> option datetime.
Variable Decimal : text -> option decimal.

Lemma get_car_info_no_car vin fs cidx :
  index_of_text (fs_cars_index fs) = Return cidx ->
  find_position vin cidx = None ->
  get_car_info datetime decimal fromisoformat Decimal vin fs = (InfoReturn None, fs).
Proof.
  intros Hload Hfind. unfold get_car_info, lift_bind.
  rewrite (find_car_by_vin_eq vin fs cidx Hload), Hfind. reflexivity.
Qed.

Lemma get_car_info_car vin fs cidx p :
  index_of_text (fs_cars_index fs) = Return cidx ->
  find_position vin cidx = Some p -> (0 <= p)%Z ->
  get_car_info datetime decimal fromisoformat Decimal vin fs
  = match read_slot (fs_cars fs) p with
    | [] => (InfoReturn None, fs)
    | car_data =>
        let fields := split "|" 4 car_data in
        if negb (length fields =? 5)%nat then (InfoReturn None, fs)
        else
          lift_bind (_find_model_by_id (strip (nth 1 fields []))) (fun model_data =>
            match model_data with
            | None | Some [] => iret None
            | Some model_data =>
                let m_fields := split "|" 2 model_data in
                if negb (length m_fields =? 3)%nat then iret None
                else
                  fun fs =>
                    match sale_of_sold_car datetime decimal fromisoformat Decimal
                            (strip (nth 0 fields [])) (strip (nth 4 fields [])) fs with
                    | (InfoReturn (sales_date, sales_cost), fs') =>
                        (InfoReturn
                           (Some (CarFullInfo.mk (strip (nth 0 fields []))
                                    (strip (nth 1 m_fields [])) (strip (nth 2 m_fields []))
                                    (strip (nth 2 fields [])) (strip (nth 3 fields []))
                                    (strip (nth 4 fields []))
                                    sales_date sales_cost)), fs')
                    | (InfoRaise e, fs') => (InfoRaise e, fs')
                    | (InfoParseRaise e, fs') => (InfoParseRaise e, fs')
                    end
            end) fs
    end.
Proof.
  intros Hload Hfind Hp. unfold get_car_info at 1, lift_bind at 1.
  rewrite (find_car_by_vin_eq vin fs cidx Hload), Hfind.
  destruct (Z.ltb_spec p 0); [lia|].
  destruct (read_slot (fs_cars fs) p) as [|x data]; [reflexivity|].
  destruct (negb (length (split "|" 4 (x :: data)) =? 5)%nat); reflexivity.
Qed.

(** The joined view of a car whose record and model resolve. *)
Lemma get_car_info_resolved vin fs cidx p f0 f1 f2 f3 f4 midx mp m0 m1 m2 :
  index_of_text (fs_cars_index fs) = Return cidx ->
  find_position vin cidx = Some p -> (0 <= p)%Z ->
  split "|" 4 (read_slot (fs_cars fs) p) = [f0; f1; f2; f3; f4] ->
  index_of_text (fs_models_index fs) = Return midx ->
  find_position (strip f1) midx = Some mp -> (0 <= mp)%Z ->
  split "|" 2 (read_slot (fs_models fs) mp) = [m0; m1; m2] ->
  get_car_info datetime decimal fromisoformat Decimal vin fs
  = match sale_of_sold_car datetime decimal fromisoformat Decimal
            (strip f0) (strip f4) fs with
    | (InfoReturn (sales_date, sales_cost), fs') =>
        (InfoReturn
           (Some (CarFullInfo.mk (strip f0) (strip m1) (strip m2) (strip f2)
                    (strip f3) (strip f4) sales_date sales_cost)), fs')
    | (InfoRaise e, fs') => (InfoRaise e, fs')
    | (InfoParseRaise e, fs') => (InfoParseRaise e, fs')
    end.
Proof.
  intros Hc Hfind Hp Hsplit Hm Hmfind Hmp Hmsplit.
  rewrite (get_car_info_car vin fs cidx p Hc Hfind Hp).
  destruct (read_slot (fs_cars fs) p) as [|x data] eqn:Er; [discriminate Hsplit|].
  cbv zeta. rewrite Hsplit. cbn [length Nat.eqb negb nth].
  unfold lift_bind. rewrite (find_model_by_id_eq _ fs midx Hm), Hmfind.
  destruct (Z.ltb_spec mp 0); [lia|].
  destruct (read_slot (fs_models fs) mp) as [|y mdata] eqn:Em; [discriminate Hmsplit|].
  rewrite Hmsplit. reflexivity.
Qed.

End CarInfoFacts.

(** X14.  [get_car_info] answers [None], without raising and whatever the
    parsers do, when the car or its model does not resolve: the vin has no
    entry in the loaded cars index; or the slot of the vin does not hold a
    record of five fields; or the model id of the record has no entry in
    the loaded models index. *)
Theorem get_car_info_unresolved
  (datetime decimal : Type) (fromisoformat : text -> option datetime)
  (Decimal : text -> option decimal) (vin : text) (fs : FS) (cidx : index_t) :
  _load_index cars_index_file fs = (Return cidx, fs) ->
  (~ In vin (map fst cidx) ->
     get_car_info datetime decimal fromisoformat Decimal vin fs
     = (InfoReturn None, fs))
  /\ (forall p,
        find_position vin cidx = Some p -> (0 <= p)%Z ->
        (length (split "|" 4 (read_slot (fs_cars fs) p)) <> 5 ->
           get_car_info datetime decimal fromisoformat Decimal vin fs
           = (InfoReturn None, fs))
        /\ (forall midx,
              length (split "|" 4 (read_slot (fs_cars fs) p)) = 5 ->
              _load_index models_index_file fs = (Return midx, fs) ->
              ~ In (strip (nth 1 (split "|" 4 (read_slot (fs_cars fs) p)) []))
                   (map fst midx) ->
              get_car_info datetime decimal fromisoformat Decimal vin fs
              = (InfoReturn None, fs))).
Proof.
  intros Hload. apply load_index_inv in Hload. cbn [getf] in Hload.
  split.
  - intros Habsent. apply (get_car_info_no_car _ _ _ _ cidx Hload).
    now apply find_position_None.
  - intros p Hfind Hp.
    pose proof (get_car_info_car fromisoformat Decimal vin fs cidx p Hload Hfind Hp)
      as Hrun.
    split.
    + intros Hlen. rewrite Hrun.
      destruct (read_slot (fs_cars fs) p) as [|x data]; [reflexivity|].
      cbv zeta. apply Nat.eqb_neq in Hlen. now rewrite Hlen.
    + intros midx Hlen Hm Habsent. apply load_index_inv in Hm. cbn [getf] in Hm.
      rewrite Hrun.
      destruct (read_slot (fs_cars fs) p) as [|x data]; [reflexivity|].
      cbv zeta. rewrite Hlen. cbn [Nat.eqb negb].
      unfold lift_bind. rewrite (find_model_by_id_eq _ fs midx Hm).
      apply find_position_None in Habsent. now rewrite Habsent.
Qed.

Lemma get_car_info_unresolved_witness :
  get_car_info text text accept_text accept_text (txt "KNAGM4A7") one_car_fs
  = (InfoReturn None, one_car_fs)
  /\ get_car_info text text accept_text accept_text (txt "XTA21099") one_car_fs
     = (InfoReturn None, one_car_fs).
Proof.
  split.
  - destruct (get_car_info_unresolved text text accept_text accept_text
                (txt "KNAGM4A7") one_car_fs [(Car.vin sample_car, 0%Z)]) as [H _].
    + vm_compute. reflexivity.
    + apply H. vm_compute. intuition discriminate.
  - destruct (get_car_info_unresolved text text accept_text accept_text
                (txt "XTA21099") one_car_fs [(Car.vin sample_car, 0%Z)]) as [_ H].
    + vm_compute. reflexivity.
    + destruct (H 0%Z) as [_ H']; [reflexivity | lia |].
      apply (H' []); [vm_compute; reflexivity | reflexivity | intros []].
Defined.

(** X15.  The joined view of a car that is not sold: when the vin resolves
    to a record of five fields, the model id of the record resolves to a
    record of three fields, and the status of the record is not "sold",
    [get_car_info] returns the vin, price, start date and status of the car
    record with the name and brand of the model record, each stripped, and
    no sale date or cost; the parsers and the sales file play no part. *)
Theorem get_car_info_unsold
  (datetime decimal : Type) (fromisoformat : text -> option datetime)
  (Decimal : text -> option decimal) (vin : text) (fs : FS)
  (cidx midx : index_t) (p mp : Z) (f0 f1 f2 f3 f4 m0 m1 m2 : text) :
  _load_index cars_index_file fs = (Return cidx, fs) ->
  find_position vin cidx = Some p -> (0 <= p)%Z ->
  split "|" 4 (read_slot (fs_cars fs) p) = [f0; f1; f2; f3; f4] ->
  _load_index models_index_file fs = (Return midx, fs) ->
  find_position (strip f1) midx = Some mp -> (0 <= mp)%Z ->
  split "|" 2 (read_slot (fs_models fs) mp) = [m0; m1; m2] ->
  strip f4 <> CarStatus.sold ->
  get_car_info datetime decimal fromisoformat Decimal vin fs
  = (InfoReturn
       (Some (CarFullInfo.mk (strip f0) (strip m1) (strip m2) (strip f2)
                (strip f3) (strip f4) None None)), fs).
Proof.
  intros Hc Hfind Hp Hsplit Hm Hmfind Hmp Hmsplit Hstatus.
  apply load_index_inv in Hc, Hm. cbn [getf] in Hc, Hm.
  rewrite (get_car_info_resolved fromisoformat Decimal vin fs cidx p f0 f1 f2 f3 f4
             midx mp m0 m1 m2) by assumption.
  unfold sale_of_sold_car. apply text_eqb_neq in Hstatus. now rewrite Hstatus.
Qed.

Lemma get_car_info_unsold_witness :
  get_car_info text text accept_text accept_text (txt "XTA21099") model_car_fs
  = (InfoReturn
       (Some (CarFullInfo.mk (txt "XTA21099") (txt "Vesta") (txt "Lada")
                (txt "1000.50") (txt "2024-02-03T00:00:00") (txt "available")
                None None)), model_car_fs).
Proof.
  apply (get_car_info_unsold text text accept_text accept_text (txt "XTA21099")
           model_car_fs [(txt "XTA21099", 0%Z)] [(txt "1", 0%Z)] 0%Z 0%Z
           (txt "XTA21099") (txt "1") (txt "1000.50") (txt "2024-02-03T00:00:00")
           (txt "available") (txt "1") (txt "Vesta") (txt "Lada")).
  - vm_compute. reflexivity.
  - reflexivity.
  - lia.
  - vm_compute. reflexivity.
  - vm_compute. reflexivity.
  - reflexivity.
  - lia.
  - vm_compute. reflexivity.
  - vm_compute. discriminate.
Defined.

(** X16.  The joined view through the lifecycle of a sale: in the setting
    of a sale that goes through, when the record of the car carries the
    vin of the sale, its model id resolves to a record of three fields,
    and the sales file has no carriage return and no unflagged sale of
    the vin, then after [sell_car] the view of the car has the status
    "sold" and the date and cost of the sale as the parsers read them (the
    date first; a text a parser rejects makes [get_car_info] raise the
    error of that parser); after [revert_sale] the view has the status
    "available" and no sale date or cost. *)
Theorem get_car_info_through_lifecycle
  (datetime decimal : Type) (fromisoformat : text -> option datetime)
  (Decimal : text -> option decimal)
  (sale : Sale.t) (fs : FS) (cidx sidx midx : index_t) (p mp : Z)
  (f0 f1 f2 f3 f4 m0 m1 m2 : text) :
  sellable sale fs cidx sidx p [f0; f1; f2; f3; f4] ->
  strip f0 = Sale.car_vin sale ->
  _load_index models_index_file fs = (Return midx, fs) ->
  find_position (strip f1) midx = Some mp -> (0 <= mp)%Z ->
  split "|" 2 (read_slot (fs_models fs) mp) = [m0; m1; m2] ->
  lacks "013" (fs_sales fs) ->
  _find_active_sale_by_vin (Sale.car_vin sale) fs = (Return None, fs) ->
  let view status sales_date sales_cost :=
    CarFullInfo.mk (strip f0) (strip m1) (strip m2) (strip f2) (strip f3)
                   status sales_date sales_cost in
  let date_s := strip (Sale.sales_date sale) in
  let cost_s := strip (Sale.cost sale) in
  exists car1 car2 fs1 fs2,
    sell_car sale fs = (Return car1, fs1)
    /\ get_car_info datetime decimal fromisoformat Decimal (Sale.car_vin sale) fs1
       = (match fromisoformat date_s with
          | None => InfoParseRaise (DateValueError date_s)
          | Some d =>
              match Decimal cost_s with
              | None => InfoParseRaise (DecimalInvalidOperation cost_s)
              | Some c => InfoReturn (Some (view CarStatus.sold (Some d) (Some c)))
              end
          end, fs1)
    /\ revert_sale (Sale.sales_number sale) fs1 = (Return car2, fs2)
    /\ get_car_info datetime decimal fromisoformat Decimal (Sale.car_vin sale) fs2
       = (InfoReturn (Some (view CarStatus.available None None)), fs2).
Proof.
  intros Hs Hvin Hm Hmfind Hmp Hmsplit Hcr Hnone view date_s cost_s.
  apply load_index_inv in Hm. cbn [getf] in Hm.
  destruct (sell_then_revert_run sale fs cidx sidx p _ Hs) as (H1 & H2 & S1 & S2).
  destruct (sales_after_sell_and_revert sale fs cidx sidx p _ Hs Hcr) as (R1 & _).
  assert (Hok : sale_ok sale) by apply Hs.
  destruct (is_active_sale_of_sale sale Hok) as (A1 & _).
  destruct (sale_data_clean sale (txt "False") Hok ltac:(now left))
    as (_ & _ & Fsplit & _).
  change (join "|" [Sale.sales_number sale; Sale.car_vin sale; Sale.cost sale;
                    Sale.sales_date sale; txt "False"])
    with (sale_data sale) in Fsplit.
  rewrite find_active_sale_by_vin_eq in Hnone. injection Hnone as Hnone.
  destruct Hs as (Hcload & Hcfind & Hp & _).
  cbn [list_set] in S1, S2.
  exists (car_with_status [f0; f1; f2; f3; f4] CarStatus.sold),
         (car_with_status [f0; f1; f2; f3; f4] CarStatus.available),
         (fs_sold sale sidx p [f0; f1; f2; f3; f4] fs),
         (fs_reverted sale sidx p [f0; f1; f2; f3; f4] fs).
  split; [exact H1|]. split; [|split; [exact H2|]].
  - rewrite (get_car_info_resolved fromisoformat Decimal _ _ cidx p
               f0 f1 f2 f3 CarStatus.sold midx mp m0 m1 m2);
      try assumption.
    unfold sale_of_sold_car.
    change (text_eqb (strip CarStatus.sold) CarStatus.sold) with true. cbv iota.
    unfold lift_bind.
    replace (_find_active_sale_by_vin (strip f0))
      with (_find_active_sale_by_vin (Sale.car_vin sale)) by (now rewrite Hvin).
    rewrite find_active_sale_by_vin_eq, R1, find_app, Hnone. cbn [find].
    rewrite A1.
    destruct (sale_data sale) as [|x data] eqn:E; [discriminate Fsplit|].
    rewrite Fsplit. cbn [length Nat.eqb nth]. fold date_s cost_s.
    unfold parse_bind.
    destruct (fromisoformat date_s); [|reflexivity].
    destruct (Decimal cost_s); reflexivity.
  - rewrite (get_car_info_resolved fromisoformat Decimal _ _ cidx p
               f0 f1 f2 f3 CarStatus.available midx mp m0 m1 m2);
      try assumption.
    reflexivity.
Qed.

Lemma sample_sale_sellable_with_model :
  sellable sample_sale model_car_fs [(Car.vin sample_car, 0%Z)] [] 0%Z
    [txt "XTA21099"; txt "1"; txt "1000.50"; txt "2024-02-03T00:00:00";
     txt "available"].
Proof.
  unfold sellable.
  split; [vm_compute; reflexivity|]. split; [reflexivity|]. split; [lia|].
  split; [vm_compute; reflexivity|]. split; [reflexivity|].
  split; [vm_compute; repeat constructor|]. split; [reflexivity|].
  split; [intros [] | exact sample_sale_ok].
Qed.

Lemma get_car_info_through_lifecycle_witness :
  exists car1 car2 fs1 fs2,
    sell_car sample_sale model_car_fs = (Return car1, fs1)
    /\ get_car_info text text accept_text accept_text (txt "XTA21099") fs1
       = (InfoReturn
            (Some (CarFullInfo.mk (txt "XTA21099") (txt "Vesta") (txt "Lada")
                     (txt "1000.50") (txt "2024-02-03T00:00:00") CarStatus.sold
                     (Some (txt "2024-09-03T00:00:00")) (Some (txt "990.00")))),
          fs1)
    /\ revert_sale (Sale.sales_number sample_sale) fs1 = (Return car2, fs2)
    /\ get_car_info text text accept_text accept_text (txt "XTA21099") fs2
       = (InfoReturn
            (Some (CarFullInfo.mk (txt "XTA21099") (txt "Vesta") (txt "Lada")
                     (txt "1000.50") (txt "2024-02-03T00:00:00")
                     CarStatus.available None None)), fs2).
Proof.
  apply (get_car_info_through_lifecycle text text accept_text accept_text
           sample_sale model_car_fs [(Car.vin sample_car, 0%Z)] []
           [(txt "1", 0%Z)] 0%Z 0%Z
           (txt "XTA21099") (txt "1") (txt "1000.50") (txt "2024-02-03T00:00:00")
           (txt "available") (txt "1") (txt "Vesta") (txt "Lada")).
  - exact sample_sale_sellable_with_model.
  - reflexivity.
  - vm_compute. reflexivity.
  - reflexivity.
  - lia.
  - vm_compute. reflexivity.
  - reflexivity.
  - reflexivity.
Defined.

(** X17.  A rename moves the key: when the vin has exactly one entry in
    the loaded cars index, at a position that is not negative whose slot
    holds five fields, and the new vin is a sound key and field that is not
    yet in the index, with a record that fits, [update_vin] returns the
    car under its new vin with its other fields; afterwards a lookup by
    the old vin raises [ValueError("Car ... not found")] and a lookup by
    the new vin returns that car. *)
Theorem update_vin_moves_key
  (vin new_vin : text) (fs : FS) (idx : index_t) (pos : Z) (f0 f1 f2 f3 f4 : text) :
  _load_index cars_index_file fs = (Return idx, fs) ->
  entries_of vin idx = [(vin, pos)] -> (0 <= pos)%Z ->
  split "|" 4 (read_slot (fs_cars fs) pos) = [f0; f1; f2; f3; f4] ->
  vin_ok new_vin -> ~ In new_vin (map fst idx) ->
  length (join "|" [new_vin; f1; f2; f3; f4]) <= RECORD_SIZE ->
  let car := Car.mk new_vin (strip f1) (strip f2) (strip f3) (strip f4) in
  exists fs',
    update_vin vin new_vin fs = (Return car, fs')
    /\ _get_car_by_vin vin fs' = (Raise (CarNotFound vin), fs')
    /\ _get_car_by_vin new_vin fs' = (Return car, fs').
Proof.
  intros Hload Hunique Hpos Hsplit Hnew Hfresh Hfit car.
  assert (Hfind : find_position vin idx = Some pos)
    by (now rewrite find_position_entries, Hunique).
  destruct (update_vin_effect vin new_vin fs idx pos f0 f1 f2 f3 f4
              Hload Hfind Hpos Hsplit Hnew Hfit)
    as (o & fs' & pre & post & Hrun & Eidx & Hpre & Hload' & _ & _ & _ & _
        & Hsplit' & Hret).
  rewrite (Hret Hfresh) in Hrun. fold car in Hrun.
  apply load_index_inv in Hload'. cbn [getf] in Hload'.
  assert (Hneq : new_vin <> vin).
  { intros ->. apply Hfresh. rewrite Eidx, map_app. apply in_or_app; right; now left. }
  exists fs'. split; [exact Hrun|]. split.
  - assert (Hf0 : _find_car_by_vin vin fs' = (Return None, fs')).
    { rewrite (find_car_by_vin_eq _ _ _ Hload').
      rewrite find_position_sorted, find_position_entries, entries_of_app.
      rewrite (entries_of_fresh _ _ Hpre).
      rewrite Eidx, entries_of_app, (entries_of_fresh _ _ Hpre) in Hunique.
      cbn [entries_of filter fst app] in *.
      rewrite text_eqb_refl in Hunique.
      assert (Hpost : filter (fun e : text * Z => text_eqb (fst e) vin) post = [])
        by (now injection Hunique).
      apply text_eqb_neq in Hneq. now rewrite Hneq, Hpost. }
    unfold _get_car_by_vin. now rewrite (bind_return _ _ _ _ _ Hf0).
  - assert (Hf : _find_car_by_vin new_vin fs'
                 = (Return (Some (read_slot (fs_cars fs') pos)), fs')).
    { rewrite (find_car_by_vin_eq _ _ _ Hload').
      rewrite find_position_sorted, find_position_middle.
      - destruct (Z.ltb_spec pos 0); [lia | reflexivity].
      - intros Hin. apply Hfresh. rewrite Eidx, map_app. apply in_or_app; now left. }
    apply (get_car_by_vin_eq _ _ _ _ Hf).
    unfold decode_car. rewrite Hsplit'.
    destruct Hnew as (_ & _ & _ & _ & Hs). unfold stripped in Hs. now rewrite Hs.
Qed.

Lemma update_vin_moves_key_witness :
  exists fs',
    update_vin (txt "XTA21099") (txt "AAA00001") one_car_fs
    = (Return (Car.mk (txt "AAA00001") (txt "1") (txt "1000.50")
                      (txt "2024-02-03T00:00:00") (txt "available")), fs')
    /\ _get_car_by_vin (txt "XTA21099") fs'
       = (Raise (CarNotFound (txt "XTA21099")), fs').
Proof.
  destruct (update_vin_moves_key (txt "XTA21099") (txt "AAA00001") one_car_fs
              [(txt "XTA21099", 0%Z)] 0%Z
              (txt "XTA21099") (txt "1") (txt "1000.50")
              (txt "2024-02-03T00:00:00") (txt "available"))
    as (fs' & H1 & H2 & _).
  - vm_compute. reflexivity.
  - reflexivity.
  - lia.
  - vm_compute. reflexivity.
  - unfold vin_ok, field_ok, lacks, stripped. decide_ok.
  - vm_compute. intuition discriminate.
  - vm_compute. repeat constructor.
  - exists fs'. split; assumption.
Defined.

(** ** The order of the ranking *)

Section TieBreak.

Lemma dict_set_key_order {V} m (v : V) d :
  map fst (dict_set m v d)
  = if existsb (text_eqb m) (map fst d) then map fst d else map fst d ++ [m].
Proof.
  induction d as [|[k' v'] d IH]; [reflexivity|].
  cbn [dict_set map fst existsb]. rewrite (text_eqb_sym m k').
  destruct (text_eqb k' m); cbn [orb map fst]; [reflexivity|].
  rewrite IH. destruct (existsb (text_eqb m) (map fst d)); reflexivity.
Qed.

Lemma dict_incr_key_order m d :
  map fst (dict_incr m d)
  = if existsb (text_eqb m) (map fst d) then map fst d else map fst d ++ [m].
Proof. unfold dict_incr. destruct (dict_get m d); apply dict_set_key_order. Qed.

Lemma tally_key_order l : forall d,
  map fst (fold_left (fun d m => dict_incr m d) l d)
  = map fst d ++ first_seen (map fst d) l.
Proof.
  induction l as [|m l IH]; intros d; cbn [fold_left first_seen].
  - now rewrite app_nil_r.
  - rewrite IH, dict_incr_key_order.
    destruct (existsb (text_eqb m) (map fst d)); [reflexivity|].
    now rewrite <- app_assoc.
Qed.

Lemma sorted_count_stable k l :
  filter (fun e : text * nat => (snd e =? k)%nat) (sorted count_ge l)
  = filter (fun e : text * nat => (snd e =? k)%nat) l.
Proof.
  apply filter_sorted. intros x y Hx Hy.
  apply Nat.eqb_eq in Hx, Hy. unfold count_ge. apply Nat.leb_le. lia.
Qed.

End TieBreak.

(** X18.  Ties in the ranking of [top_models_by_sales]: when the cars and
    models indexes load without negative positions, the counter lists the
    model ids in the order of their first counted sale (in slot order of
    the sales file), and the ranking by descending count keeps, among the
    models with the same count, that order; the result is read from the
    first three of that ranking. *)
Theorem top_models_tie_break (fs : FS) (cidx midx : index_t) :
  _load_index cars_index_file fs = (Return cidx, fs) -> positions_ok cidx ->
  _load_index models_index_file fs = (Return midx, fs) -> positions_ok midx ->
  let models := counted_models cidx (fs_cars fs) (fs_sales fs) in
  let ranked := sorted count_ge (tally models) in
  top_models_by_sales fs
    = (Return (stats_of (models_data_of (fs_models fs) midx) (firstn 3 ranked)), fs)
  /\ map fst (tally models) = first_seen [] models
  /\ (forall k,
        filter (fun e : text * nat => (snd e =? k)%nat) ranked
        = filter (fun e : text * nat => (snd e =? k)%nat) (tally models)).
Proof.
  intros Hc Hcp Hm Hmp models ranked.
  apply load_index_inv in Hc, Hm. cbn [getf] in Hc, Hm.
  split; [now apply top_models_by_sales_eq|]. split.
  - unfold tally. now rewrite tally_key_order.
  - intros k. apply sorted_count_stable.
Qed.

Lemma top_models_tie_break_witness :
  map fst
    (tally (counted_models
              [(txt "VIN1", 1%Z); (txt "VIN2", 2%Z); (txt "VIN3", 0%Z);
               (txt "VIN4", 3%Z); (txt "VIN5", 4%Z)]
              (fs_cars scenario_fs) (fs_sales scenario_fs)))
  = [txt "1"; txt "2"].
Proof.
  destruct (top_models_tie_break scenario_fs
              [(txt "VIN1", 1%Z); (txt "VIN2", 2%Z); (txt "VIN3", 0%Z);
               (txt "VIN4", 3%Z); (txt "VIN5", 4%Z)]
              [(txt "1", 0%Z); (txt "2", 1%Z)]) as (_ & H & _).
  - vm_compute; reflexivity.
  - unfold positions_ok. repeat (constructor; [cbn; lia|]). constructor.
  - vm_compute; reflexivity.
  - unfold positions_ok. repeat (constructor; [cbn; lia|]). constructor.
  - rewrite H. vm_compute. reflexivity.
Defined.

(** ** The files that a method leaves alone *)

Section Frames.

Lemma preserves_read_only {A} p (c : M A) : read_only c -> preserves p c.
Proof. intros H fs. now rewrite H. Qed.

Lemma preserves_ret {A} p (a : A) : preserves p (ret a).
Proof. intros fs; reflexivity. Qed.

Lemma preserves_raise {A} p e : preserves p (@raise A e).
Proof. intros fs; reflexivity. Qed.

Lemma preserves_bind {A B} p (c : M A) (k : A -> M B) :
  preserves p c -> (forall a, preserves p (k a)) -> preserves p (bind c k).
Proof.
  intros Hc Hk fs. unfold bind. specialize (Hc fs).
  destruct (c fs) as [[a|e] fs']; cbn [snd] in *; [|assumption].
  now rewrite Hk.
Qed.

Lemma preserves_if {A} p (b : bool) (c d : M A) :
  preserves p c -> preserves p d -> preserves p (if b then c else d).
Proof. now destruct b. Qed.

Lemma preserves_write_record p q pos record :
  p <> q -> preserves p (_write_record q pos record).
Proof.
  intros N fs. unfold _write_record. destruct (pos <? 0)%Z; [reflexivity|].
  cbn [snd]. now apply getf_setf_other.
Qed.

Lemma preserves_save_index p q idx : p <> q -> preserves p (_save_index idx q).
Proof. intros N fs. cbn [_save_index snd]. now apply getf_setf_other. Qed.

Lemma preserves_find_free_position p q : preserves p (_find_free_position q).
Proof. intros fs; reflexivity. Qed.

Lemma preserves_update_car_status_loop p vin status idx :
  p <> cars_file -> preserves p (update_car_status_loop vin status idx).
Proof.
  intros N. induction idx as [|[v pos] idx IH]; cbn [update_car_status_loop];
    [apply preserves_ret|].
  destruct (text_eqb v vin); [|assumption].
  apply preserves_bind; [apply preserves_read_only, read_only_read_record|].
  intros record. apply preserves_if; [|apply preserves_ret].
  now apply preserves_write_record.
Qed.

Lemma preserves_update_car_status p vin status :
  p <> cars_file -> preserves p (_update_car_status vin status).
Proof.
  intros N. apply preserves_bind;
    [apply preserves_read_only, read_only_load_index|].
  intros; now apply preserves_update_car_status_loop.
Qed.

Lemma preserves_add_model p model :
  p <> models_file -> p <> models_index_file -> preserves p (add_model model).
Proof.
  intros N1 N2. unfold add_model.
  apply preserves_bind; [apply preserves_find_free_position|]. intros pos.
  apply preserves_bind; [now apply preserves_write_record|]. intros _.
  apply preserves_bind; [apply preserves_read_only, read_only_load_index|].
  intros idx. apply preserves_bind; [now apply preserves_save_index|].
  intros; apply preserves_ret.
Qed.

Lemma preserves_add_car p car :
  p <> cars_file -> p <> cars_index_file -> preserves p (add_car car).
Proof.
  intros N1 N2. unfold add_car.
  apply preserves_bind; [apply preserves_find_free_position|]. intros pos.
  apply preserves_bind; [now apply preserves_write_record|]. intros _.
  apply preserves_bind; [apply preserves_read_only, read_only_load_index|].
  intros idx. apply preserves_bind; [now apply preserves_save_index|].
  intros; apply preserves_ret.
Qed.

Lemma preserves_update_vin p vin new_vin :
  p <> cars_file -> p <> cars_index_file -> preserves p (update_vin vin new_vin).
Proof.
  intros N1 N2. unfold update_vin.
  apply preserves_bind; [apply preserves_read_only, read_only_load_index|].
  intros idx. destruct (find_entry vin 0 idx) as [[i pos]|];
    [|apply preserves_raise].
  apply preserves_bind; [apply preserves_read_only, read_only_read_record|].
  intros record. apply preserves_bind.
  - apply preserves_if; [now apply preserves_write_record | apply preserves_ret].
  - intros _. apply preserves_bind; [now apply preserves_save_index|].
    intros _. apply preserves_read_only, read_only_get_car_by_vin.
Qed.

Lemma preserves_sell_car p sale :
  p <> sales_file -> p <> sales_index_file -> p <> cars_file ->
  preserves p (sell_car sale).
Proof.
  intros N1 N2 N3. unfold sell_car.
  apply preserves_bind; [apply preserves_find_free_position|]. intros pos.
  apply preserves_bind; [now apply preserves_write_record|]. intros _.
  apply preserves_bind; [apply preserves_read_only, read_only_load_index|].
  intros idx. apply preserves_bind; [now apply preserves_save_index|].
  intros _. apply preserves_bind; [now apply preserves_update_car_status|].
  intros _. apply preserves_read_only, read_only_get_car_by_vin.
Qed.

Lemma preserves_revert_sale p sales_number :
  p <> sales_file -> p <> cars_file -> preserves p (revert_sale sales_number).
Proof.
  intros N1 N2. unfold revert_sale.
  apply preserves_bind; [apply preserves_read_only, read_only_load_index|].
  intros idx. destruct (find_position sales_number idx) as [pos|];
    [|apply preserves_raise].
  apply preserves_bind; [apply preserves_read_only, read_only_read_record|].
  intros record. apply preserves_if; [apply preserves_raise|].
  apply preserves_if; [apply preserves_raise|].
  apply preserves_bind; [now apply preserves_write_record|]. intros _.
  apply preserves_bind; [now apply preserves_update_car_status|].
  intros _. apply preserves_read_only, read_only_get_car_by_vin.
Qed.

End Frames.

(** X19.  The files that the writing methods never touch, whatever their
    arguments, the state of the files and the outcome: [add_model] changes
    at most the two files of the models; [add_car] and [update_vin] change
    at most the two files of the cars; [sell_car] changes at most the sales
    file, the sales index and the cars file; [revert_sale] changes at most
    the sales file and the cars file.  In particular a sale or its revert
    never rewrites the cars index, and a revert never rewrites the sales
    index. *)
Theorem writers_leave_other_files :
  (forall model fs,
     let fs' := snd (add_model model fs) in
     fs_cars fs' = fs_cars fs /\ fs_cars_index fs' = fs_cars_index fs
     /\ fs_sales fs' = fs_sales fs /\ fs_sales_index fs' = fs_sales_index fs)
  /\ (forall car fs,
        let fs' := snd (add_car car fs) in
        fs_models fs' = fs_models fs /\ fs_models_index fs' = fs_models_index fs
        /\ fs_sales fs' = fs_sales fs /\ fs_sales_index fs' = fs_sales_index fs)
  /\ (forall vin new_vin fs,
        let fs' := snd (update_vin vin new_vin fs) in
        fs_models fs' = fs_models fs /\ fs_models_index fs' = fs_models_index fs
        /\ fs_sales fs' = fs_sales fs /\ fs_sales_index fs' = fs_sales_index fs)
  /\ (forall sale fs,
        let fs' := snd (sell_car sale fs) in
        fs_models fs' = fs_models fs /\ fs_models_index fs' = fs_models_index fs
        /\ fs_cars_index fs' = fs_cars_index fs)
  /\ (forall sales_number fs,
        let fs' := snd (revert_sale sales_number fs) in
        fs_models fs' = fs_models fs /\ fs_models_index fs' = fs_models_index fs
        /\ fs_cars_index fs' = fs_cars_index fs
        /\ fs_sales_index fs' = fs_sales_index fs).
Proof.
  split; [|split; [|split; [|split]]].
  - intros model fs fs'. repeat split.
    + apply (preserves_add_model cars_file); discriminate.
    + apply (preserves_add_model cars_index_file); discriminate.
    + apply (preserves_add_model sales_file); discriminate.
    + apply (preserves_add_model sales_index_file); discriminate.
  - intros car fs fs'. repeat split.
    + apply (preserves_add_car models_file); discriminate.
    + apply (preserves_add_car models_index_file); discriminate.
    + apply (preserves_add_car sales_file); discriminate.
    + apply (preserves_add_car sales_index_file); discriminate.
  - intros vin new_vin fs fs'. repeat split.
    + apply (preserves_update_vin models_file); discriminate.
    + apply (preserves_update_vin models_index_file); discriminate.
    + apply (preserves_update_vin sales_file); discriminate.
    + apply (preserves_update_vin sales_index_file); discriminate.
  - intros sale fs fs'. repeat split.
    + apply (preserves_sell_car models_file); discriminate.
    + apply (preserves_sell_car models_index_file); discriminate.
    + apply (preserves_sell_car cars_index_file); discriminate.
  - intros sales_number fs fs'. repeat split.
    + apply (preserves_revert_sale models_file); discriminate.
    + apply (preserves_revert_sale models_index_file); discriminate.
    + apply (preserves_revert_sale cars_index_file); discriminate.
    + apply (preserves_revert_sale sales_index_file); discriminate.
Qed.

(** ** The listings through a sale and its revert *)

Section ListingLifecycle.

Lemma in_range n p : (0 <= p)%Z -> Z.to_nat p < n -> In p (range n).
Proof.
  intros Hp Hn. unfold range. apply in_map_iff. exists (Z.to_nat p).
  split; [lia|]. apply in_seq. lia.
Qed.

Lemma in_cars_by_slot file p c :
  In (p, c) (cars_by_slot file) <->
  In p (range (slot_count file)) /\ decode_car (read_slot file p) = Some c.
Proof.
  unfold cars_by_slot. rewrite in_flat_map. split.
  - intros (pos & Hin & H). destruct (decode_car (read_slot file pos)) eqn:E.
    + destruct H as [H|[]]. injection H as -> ->. now split.
    + destruct H.
  - intros (Hin & H). exists p. split; [assumption|]. rewrite H. now left.
Qed.

Lemma in_list_by_status file s p c :
  In (p, c) (list_by_status file s) <->
  In p (range (slot_count file)) /\ decode_car (read_slot file p) = Some c
  /\ Car.status c = s.
Proof.
  unfold list_by_status. rewrite filter_In, in_cars_by_slot. cbn [snd].
  rewrite text_eqb_eq. tauto.
Qed.

(** A slot that was written lies within the file. *)
Lemma written_slot_counted p data file :
  (0 <= p)%Z ->
  Z.to_nat p < slot_count (write_at (slot_offset p) (_format_record data) file).
Proof.
  intros Hp. unfold slot_count. rewrite write_at_length, format_record_length.
  unfold slot_offset, RECORD_SIZE_WITH_NL, RECORD_SIZE.
  apply Nat.div_le_lower_bound; lia.
Qed.

(** After the status of the car in a slot is set, the slot decodes to the
    car with that status, and the car is listed under it and under no
    other status. *)
Lemma listed_after_status_set fields status p fs fs' :
  (0 <= p)%Z -> length fields = 5 -> strip status = status ->
  fs_cars fs' = write_at (slot_offset p)
                  (_format_record (join "|" (list_set 4 status fields))) (fs_cars fs) ->
  split "|" 4 (read_slot (fs_cars fs') p) = list_set 4 status fields ->
  forall s c,
    In (p, c) (list_by_status (fs_cars fs') s)
    <-> s = status /\ c = car_with_status fields status.
Proof.
  intros Hp Hlen Hst Hfile Hsplit s c.
  destruct (five_fields fields Hlen) as (f0 & f1 & f2 & f3 & f4 & ->).
  cbn [list_set] in *.
  assert (Hdec : decode_car (read_slot (fs_cars fs') p)
                 = Some (car_with_status [f0; f1; f2; f3; f4] status)).
  { unfold decode_car. rewrite Hsplit. unfold car_with_status. cbn [nth].
    now rewrite Hst. }
  rewrite in_list_by_status, Hdec. split.
  - intros (_ & H & Hs). injection H as <-. split; [|reflexivity].
    now rewrite <- Hs.
  - intros (-> & ->). split; [|split; reflexivity].
    apply in_range; [assumption|]. rewrite Hfile. now apply written_slot_counted.
Qed.

End ListingLifecycle.

(** X20.  The listings through the lifecycle of a sale: in the setting of
    a sale that goes through, after [sell_car] the car that it returns is
    in the listing [get_cars] of the status "sold", and the slot of the car
    is listed under no other status and with no other car (every listing
    being the cars of [list_by_status], which names their slots); after
    [revert_sale] of the sale the same holds with the status "available"
    and the car that the revert returns. *)
Theorem get_cars_through_lifecycle
  (sale : Sale.t) (fs : FS) (cidx sidx : index_t) (p : Z) (fields : list text) :
  sellable sale fs cidx sidx p fields ->
  exists car1 car2 fs1 fs2 sold_cars available_cars,
    sell_car sale fs = (Return car1, fs1)
    /\ Car.status car1 = CarStatus.sold
    /\ get_cars CarStatus.sold fs1 = (Return sold_cars, fs1)
    /\ In car1 sold_cars
    /\ (forall s, get_cars s fs1
                   = (Return (map snd (list_by_status (fs_cars fs1) s)), fs1))
    /\ (forall s c, In (p, c) (list_by_status (fs_cars fs1) s)
                    <-> s = CarStatus.sold /\ c = car1)
    /\ revert_sale (Sale.sales_number sale) fs1 = (Return car2, fs2)
    /\ Car.status car2 = CarStatus.available
    /\ get_cars CarStatus.available fs2 = (Return available_cars, fs2)
    /\ In car2 available_cars
    /\ (forall s, get_cars s fs2
                   = (Return (map snd (list_by_status (fs_cars fs2) s)), fs2))
    /\ (forall s c, In (p, c) (list_by_status (fs_cars fs2) s)
                    <-> s = CarStatus.available /\ c = car2).
Proof.
  intros Hs.
  destruct (sell_then_revert_run sale fs cidx sidx p fields Hs)
    as (H1 & H2 & S1 & S2).
  destruct Hs as (_ & _ & Hp & _ & Hlen & _).
  set (fs1 := fs_sold sale sidx p fields fs) in *.
  set (fs2 := fs_reverted sale sidx p fields fs) in *.
  assert (L1 : forall s c, In (p, c) (list_by_status (fs_cars fs1) s)
                           <-> s = CarStatus.sold
                               /\ c = car_with_status fields CarStatus.sold).
  { apply (listed_after_status_set fields CarStatus.sold p
             (fs_sale_written sale sidx fs) fs1);
      [assumption | assumption | reflexivity | reflexivity | exact S1]. }
  assert (L2 : forall s c, In (p, c) (list_by_status (fs_cars fs2) s)
                           <-> s = CarStatus.available
                               /\ c = car_with_status fields CarStatus.available).
  { destruct (five_fields fields Hlen) as (f0 & f1 & f2 & f3 & f4 & ->).
    intros s c.
    rewrite (listed_after_status_set [f0; f1; f2; f3; CarStatus.sold]
               CarStatus.available p
               (fs_sale_flagged (sale_fields sale (txt "False"))
                  (Z.of_nat (slot_count (fs_sales fs))) fs1) fs2);
      [reflexivity | assumption | reflexivity | reflexivity | reflexivity
      | exact S2]. }
  exists (car_with_status fields CarStatus.sold),
         (car_with_status fields CarStatus.available), fs1, fs2,
         (map snd (list_by_status (fs_cars fs1) CarStatus.sold)),
         (map snd (list_by_status (fs_cars fs2) CarStatus.available)).
  split; [exact H1|]. split; [reflexivity|]. split; [apply get_cars_eq|].
  split; [|split; [intros s; apply get_cars_eq|split; [exact L1|]]].
  { apply in_map_iff. exists (p, car_with_status fields CarStatus.sold).
    split; [reflexivity|]. apply L1. now split. }
  split; [exact H2|]. split; [reflexivity|]. split; [apply get_cars_eq|].
  split; [|split; [intros s; apply get_cars_eq|exact L2]].
  apply in_map_iff. exists (p, car_with_status fields CarStatus.available).
  split; [reflexivity|]. apply L2. now split.
Qed.

Lemma get_cars_through_lifecycle_witness :
  exists car1 car2 fs1 fs2 sold_cars available_cars,
    sell_car sample_sale one_car_fs = (Return car1, fs1)
    /\ Car.status car1 = CarStatus.sold
    /\ get_cars CarStatus.sold fs1 = (Return sold_cars, fs1)
    /\ In car1 sold_cars
    /\ (forall s, get_cars s fs1
                   = (Return (map snd (list_by_status (fs_cars fs1) s)), fs1))
    /\ (forall s c, In (0%Z, c) (list_by_status (fs_cars fs1) s)
                    <-> s = CarStatus.sold /\ c = car1)
    /\ revert_sale (Sale.sales_number sample_sale) fs1 = (Return car2, fs2)
    /\ Car.status car2 = CarStatus.available
    /\ get_cars CarStatus.available fs2 = (Return available_cars, fs2)
    /\ In car2 available_cars
    /\ (forall s, get_cars s fs2
                   = (Return (map snd (list_by_status (fs_cars fs2) s)), fs2))
    /\ (forall s c, In (0%Z, c) (list_by_status (fs_cars fs2) s)
                    <-> s = CarStatus.available /\ c = car2).
Proof.
  exact (get_cars_through_lifecycle sample_sale one_car_fs
           [(Car.vin sample_car, 0%Z)] [] 0%Z
           [txt "XTA21099"; txt "1"; txt "1000.50"; txt "2024-02-03T00:00:00";
            txt "available"] sample_sale_sellable).
Defined.

(** ** What the appending methods write, whatever the payload *)

Section Appends.

Lemma whole_slots_le (file : text) :
  slot_count file * RECORD_SIZE_WITH_NL <= length file
  < (slot_count file + 1) * RECORD_SIZE_WITH_NL.
Proof.
  unfold slot_count, RECORD_SIZE_WITH_NL.
  pose proof (Nat.div_mod_eq (length file) 501) as E.
  pose proof (Nat.mod_upper_bound (length file) 501 ltac:(lia)) as B.
  lia.
Qed.

(** A write at the free position keeps the whole slots of the file and
    replaces what follows them by the record, when the record has at least
    the size of a slot. *)
Lemma write_at_free_position file record :
  RECORD_SIZE_WITH_NL <= length record ->
  write_at (slot_offset (Z.of_nat (slot_count file))) record file
  = appended file record.
Proof.
  intros Hr. unfold write_at, appended, slot_offset. rewrite Nat2Z.id.
  pose proof (whole_slots_le file) as [L U].
  replace (slot_count file * RECORD_SIZE_WITH_NL - length file) with 0 by lia.
  rewrite skipn_all2 by lia. cbn [repeat app]. now rewrite app_nil_r.
Qed.

Lemma format_record_slot data : RECORD_SIZE_WITH_NL <= length (_format_record data).
Proof. rewrite format_record_length. unfold RECORD_SIZE_WITH_NL, RECORD_SIZE. lia. Qed.

Lemma append_record_appended file data :
  append_record file data = appended file (_format_record data).
Proof. apply write_at_free_position, format_record_slot. Qed.

(** The first two steps of [add_model], [add_car] and [sell_car]. *)
Lemma free_position_write data_file record fs :
  (position <- _find_free_position data_file ;;
   _write_record data_file position record) fs
  = (Return tt,
     setf data_file
       (write_at (slot_offset (Z.of_nat (slot_count (getf data_file fs)))) record
          (getf data_file fs)) fs).
Proof.
  rewrite (bind_return _ _ fs (Z.of_nat (slot_count (getf data_file fs))) fs)
    by reflexivity.
  apply write_record_eq. lia.
Qed.

Lemma add_car_written car fs :
  fs_cars (snd (add_car car fs)) = append_record (fs_cars fs) (car_data car).
Proof.
  unfold add_car.
  rewrite (bind_return _ _ fs (Z.of_nat (slot_count (fs_cars fs))) fs) by reflexivity.
  erewrite bind_return by (apply write_record_eq; lia).
  refine (eq_trans (preserves_bind cars_file _ _ _ _ _) _); [| |reflexivity].
  - apply preserves_read_only, read_only_load_index.
  - intros idx. apply preserves_bind; [apply preserves_save_index; discriminate|].
    intros; apply preserves_ret.
Qed.

Lemma add_model_written model fs :
  fs_models (snd (add_model model fs))
  = append_record (fs_models fs) (model_data model).
Proof.
  unfold add_model.
  rewrite (bind_return _ _ fs (Z.of_nat (slot_count (fs_models fs))) fs) by reflexivity.
  erewrite bind_return by (apply write_record_eq; lia).
  refine (eq_trans (preserves_bind models_file _ _ _ _ _) _); [| |reflexivity].
  - apply preserves_read_only, read_only_load_index.
  - intros idx. apply preserves_bind; [apply preserves_save_index; discriminate|].
    intros; apply preserves_ret.
Qed.

Lemma sell_car_written sale fs :
  fs_sales (snd (sell_car sale fs)) = append_record (fs_sales fs) (sale_data sale).
Proof.
  unfold sell_car.
  rewrite (bind_return _ _ fs (Z.of_nat (slot_count (fs_sales fs))) fs) by reflexivity.
  erewrite bind_return by (apply write_record_eq; lia).
  refine (eq_trans (preserves_bind sales_file _ _ _ _ _) _); [| |reflexivity].
  - apply preserves_read_only, read_only_load_index.
  - intros idx. apply preserves_bind; [apply preserves_save_index; discriminate|].
    intros _. apply preserves_bind; [apply preserves_update_car_status; discriminate|].
    intros _. apply preserves_read_only, read_only_get_car_by_vin.
Qed.

End Appends.

(** C1, the input that refutes it.  A car whose record has 501
    characters: [_format_record] returns the record as it is, followed by
    the line feed (502 characters), and [add_car] writes it into the empty
    data file and returns the car. *)
Lemma format_record_overflow_accepted :
  RECORD_SIZE < length (car_data long_car)
  /\ _format_record (car_data long_car) = car_data long_car ++ ["010"]
  /\ length (_format_record (car_data long_car)) = 502
  /\ fst (add_car long_car empty_fs) = Return long_car
  /\ fs_cars (snd (add_car long_car empty_fs)) = car_data long_car ++ ["010"].
Proof. vm_compute. repeat split; try reflexivity. Qed.

(** C1, amended.  [_format_record] never fails.  It returns the payload,
    then [500 - len(payload)] spaces (none when the payload has 500
    characters or more), then a line feed: a payload that fits gives a
    slot of 501 characters, and a longer payload is kept whole, followed by
    the line feed.  The write paths store the result as it is:
    [_write_record], at any position that is not negative, puts the whole
    result at the offset of the slot, before what the file held behind
    it; and [add_model], [add_car] and [sell_car], whatever they return,
    leave their data file as its whole slots followed by the whole result
    for their payload. *)
Theorem format_record_total (data : text) :
  _format_record data = data ++ repeat " " (RECORD_SIZE - length data) ++ ["010"]
  /\ length (_format_record data) = Nat.max (length data) RECORD_SIZE + 1
  /\ firstn (length data) (_format_record data) = data
  /\ (RECORD_SIZE <= length data -> _format_record data = data ++ ["010"])
  /\ (forall (p : path) (pos : Z) (fs : FS),
        (0 <= pos)%Z ->
        exists fs',
          _write_record p pos (_format_record data) fs = (Return tt, fs')
          /\ skipn (slot_offset pos) (getf p fs')
             = _format_record data
               ++ skipn (slot_offset pos + length (_format_record data)) (getf p fs))
  /\ (forall (model : Model.t) (fs : FS),
        model_data model = data ->
        fs_models (snd (add_model model fs))
        = appended (fs_models fs) (_format_record data))
  /\ (forall (car : Car.t) (fs : FS),
        car_data car = data ->
        fs_cars (snd (add_car car fs)) = appended (fs_cars fs) (_format_record data))
  /\ (forall (sale : Sale.t) (fs : FS),
        sale_data sale = data ->
        fs_sales (snd (sell_car sale fs))
        = appended (fs_sales fs) (_format_record data)).
Proof.
  split; [|split; [|split; [|split; [|split; [|split; [|split]]]]]].
  - unfold _format_record, ljust. now rewrite <- app_assoc.
  - apply format_record_length.
  - unfold _format_record, ljust. rewrite <- app_assoc.
    rewrite firstn_app, Nat.sub_diag, firstn_all. cbn [firstn]. apply app_nil_r.
  - intros H. unfold _format_record, ljust.
    replace (RECORD_SIZE - length data) with 0 by lia. cbn [repeat].
    now rewrite app_nil_r.
  - intros p pos fs Hpos.
    exists (setf p (write_at (slot_offset pos) (_format_record data) (getf p fs)) fs).
    split; [now apply write_record_eq|].
    rewrite getf_setf_same. apply skipn_write_at.
  - intros model fs <-. rewrite add_model_written. apply append_record_appended.
  - intros car fs <-. rewrite add_car_written. apply append_record_appended.
  - intros sale fs <-. rewrite sell_car_written. apply append_record_appended.
Qed.

Lemma format_record_total_witness :
  _format_record (car_data long_car) = car_data long_car ++ ["010"]
  /\ fs_cars (snd (add_car long_car one_car_fs))
     = appended (fs_cars one_car_fs) (car_data long_car ++ ["010"]).
Proof.
  destruct (format_record_total (car_data long_car))
    as (_ & _ & _ & Hlong & _ & _ & Hcar & _).
  rewrite <- Hlong by (vm_compute; repeat constructor).
  split; [reflexivity|]. apply (Hcar long_car one_car_fs). reflexivity.
Defined.

(** C6, the input that refutes it.  The data file that the overflowing
    [add_car] leaves has 502 bytes, which is no multiple of 501: a whole
    slot and one more byte.  [_find_free_position] returns 1 on it, and
    the next [add_car] goes through: it writes its record at the offset
    501, over that byte. *)
Lemma find_free_position_corrupt_accepted :
  let fs := snd (add_car long_car empty_fs) in
  length (fs_cars fs) = 502
  /\ length (fs_cars fs) mod RECORD_SIZE_WITH_NL <> 0
  /\ skipn 501 (fs_cars fs) = ["010"]
  /\ _find_free_position cars_file fs = (Return 1%Z, fs)
  /\ fst (add_car sample_car fs) = Return sample_car
  /\ fs_cars (snd (add_car sample_car fs))
     = firstn 501 (fs_cars fs) ++ _format_record (car_data sample_car).
Proof. vm_compute. repeat split; try reflexivity. discriminate. Qed.

(** C6, amended.  [_find_free_position] never fails: for every data file
    it returns the quotient of the file size by 501, rounded down, and
    leaves the files as they are.  When the size is a multiple of 501, the
    result times 501 is the size.  When it is not, the bytes behind the
    last whole slot are ignored, and the next record is written over
    them: the write of a formatted record at the position returned, and
    so [add_model], [add_car] and [sell_car] on their data file, leave the
    whole slots of the file followed by the record. *)
Theorem find_free_position_total (data_file : path) (fs : FS) :
  exists n : nat,
    _find_free_position data_file fs = (Return (Z.of_nat n), fs)
    /\ n * RECORD_SIZE_WITH_NL <= length (getf data_file fs)
         < (n + 1) * RECORD_SIZE_WITH_NL
    /\ (length (getf data_file fs) mod RECORD_SIZE_WITH_NL = 0 <->
        n * RECORD_SIZE_WITH_NL = length (getf data_file fs))
    /\ (forall data : text,
          (position <- _find_free_position data_file ;;
           _write_record data_file position (_format_record data)) fs
          = (Return tt,
             setf data_file
               (firstn (n * RECORD_SIZE_WITH_NL) (getf data_file fs)
                  ++ _format_record data) fs))
    /\ (forall model : Model.t,
          data_file = models_file ->
          fs_models (snd (add_model model fs))
          = firstn (n * RECORD_SIZE_WITH_NL) (fs_models fs)
              ++ _format_record (model_data model))
    /\ (forall car : Car.t,
          data_file = cars_file ->
          fs_cars (snd (add_car car fs))
          = firstn (n * RECORD_SIZE_WITH_NL) (fs_cars fs)
              ++ _format_record (car_data car))
    /\ (forall sale : Sale.t,
          data_file = sales_file ->
          fs_sales (snd (sell_car sale fs))
          = firstn (n * RECORD_SIZE_WITH_NL) (fs_sales fs)
              ++ _format_record (sale_data sale)).
Proof.
  exists (slot_count (getf data_file fs)).
  split; [reflexivity|]. split; [apply whole_slots_le|]. split.
  - pose proof (whole_slots_le (getf data_file fs)) as B.
    unfold slot_count, RECORD_SIZE_WITH_NL in *.
    pose proof (Nat.div_mod_eq (length (getf data_file fs)) 501) as E. lia.
  - split; [|split; [|split]].
    + intros data. rewrite free_position_write.
      now rewrite write_at_free_position by apply format_record_slot.
    + intros model ->. rewrite add_model_written. apply append_record_appended.
    + intros car ->. rewrite add_car_written. apply append_record_appended.
    + intros sale ->. rewrite sell_car_written. apply append_record_appended.
Qed.

Lemma find_free_position_total_witness :
  exists n : nat,
    _find_free_position cars_file one_car_fs = (Return (Z.of_nat n), one_car_fs)
    /\ fs_cars (snd (add_car other_car one_car_fs))
       = firstn (n * RECORD_SIZE_WITH_NL) (fs_cars one_car_fs)
           ++ _format_record (car_data other_car).
Proof.
  destruct (find_free_position_total cars_file one_car_fs)
    as (n & H & _ & _ & _ & _ & Hcar & _).
  exists n. split; [exact H|]. apply Hcar. reflexivity.
Defined.

(** ** The invariant of the index files of the three repositories *)

Section RepoInvariant.

Lemma index_invariant_repo fs :
  index_invariant fs <-> repo_invariant cars_file cars_index_file fs.
Proof. reflexivity. Qed.

(** An append with its index entry keeps the invariant. *)
Lemma repo_invariant_add data_file index_file fs fs' key data :
  repo_invariant data_file index_file fs ->
  entry_ok key data ->
  (forall idx,
     index_of_text (getf index_file fs) = Return idx ->
     getf data_file fs' = append_record (getf data_file fs) data
     /\ getf index_file fs'
        = text_of_index
            (index_insert idx key (Z.of_nat (slot_count (getf data_file fs))))) ->
  repo_invariant data_file index_file fs'.
Proof.
  intros (idx & Htext & Hload & Hsorted & Hperm & Hlen) [Hkey Hfit] Hfs'.
  destruct (Hfs' idx Hload) as [Hd Hi].
  pose proof (append_record_length (getf data_file fs) data Hlen Hfit) as Hlen'.
  exists (index_insert idx key (Z.of_nat (slot_count (getf data_file fs)))).
  split; [assumption|]. split.
  - rewrite Hi, index_of_text_saved.
    + f_equal. apply sorted_id, sorted_Sorted, key_le_total.
    + apply index_insert_keys_ok; [now apply (index_of_text_keys_ok _ _ Hload)|].
      assumption.
  - split; [apply sorted_Sorted, key_le_total|].
    rewrite Hd. rewrite (slot_count_whole _ _ Hlen'). split; [|assumption].
    unfold index_insert. rewrite (sorted_perm key_le), map_app, range_succ.
    now apply Permutation_app_tail.
Qed.

Lemma index_invariant_add car fs :
  index_invariant fs -> entry_ok (Car.vin car) (car_data car) ->
  index_invariant (snd (add_car car fs)).
Proof.
  intros Hinv Hok. apply index_invariant_repo.
  apply (repo_invariant_add cars_file cars_index_file fs _ (Car.vin car)
           (car_data car)); [now apply index_invariant_repo | assumption|].
  intros idx Hload. cbn [getf] in Hload.
  rewrite (add_car_eq car fs idx Hload). split; reflexivity.
Qed.

Lemma models_invariant_add model fs :
  repo_invariant models_file models_index_file fs ->
  entry_ok (Model.id model) (model_data model) ->
  repo_invariant models_file models_index_file (snd (add_model model fs)).
Proof.
  intros Hinv Hok.
  apply (repo_invariant_add models_file models_index_file fs _ (Model.id model)
           (model_data model)); [assumption | assumption|].
  intros idx Hload. cbn [getf] in Hload.
  rewrite (add_model_eq model fs idx Hload). split; reflexivity.
Qed.

Lemma sales_invariant_add sale fs :
  repo_invariant sales_file sales_index_file fs ->
  entry_ok (Sale.sales_number sale) (sale_data sale) ->
  repo_invariant sales_file sales_index_file (snd (sell_car sale fs)).
Proof.
  intros Hinv Hok.
  apply (repo_invariant_add sales_file sales_index_file fs _
           (Sale.sales_number sale) (sale_data sale)); [assumption | assumption|].
  intros idx Hload. cbn [getf] in Hload. split; [apply sell_car_written|].
  rewrite (sell_car_eq sale fs idx Hload).
  refine (eq_trans (preserves_bind sales_index_file _ _ _ _ _) _); [| |reflexivity].
  - apply preserves_update_car_status; discriminate.
  - intros _. apply preserves_read_only, read_only_get_car_by_vin.
Qed.

Lemma repo_invariant_empty data_file index_file :
  repo_invariant data_file index_file empty_fs.
Proof.
  exists []. destruct data_file, index_file;
    repeat split; try reflexivity; constructor.
Qed.

End RepoInvariant.

(** C4, inputs that refute it.  A car whose vin is "A:5", a line feed and
    "B" is added to the empty repository and returned: the data file then
    has one slot, and the index file has two lines, which load as the two
    entries A at 5 and B at 0.  A car whose record has 1100 characters is
    added to the empty repository and returned: the data file then has two
    slots, and the index has one entry. *)
Lemma index_file_invariant_broken_by_add :
  index_invariant empty_fs
  /\ (let fs := run_ops [OpAdd split_key_car] empty_fs in
      fst (add_car split_key_car empty_fs) = Return split_key_car
      /\ slot_count (fs_cars fs) = 1
      /\ fs_cars_index fs = ["A"; ":"; "5"; "010"; "B"; ":"; "0"; "010"]
      /\ _load_index cars_index_file fs
         = (Return [(txt "A", 5%Z); (txt "B", 0%Z)], fs)
      /\ ~ index_invariant fs)
  /\ (let fs := run_ops [OpAdd huge_car] empty_fs in
      fst (add_car huge_car empty_fs) = Return huge_car
      /\ slot_count (fs_cars fs) = 2
      /\ _load_index cars_index_file fs = (Return [(Car.vin huge_car, 0%Z)], fs)
      /\ ~ index_invariant fs).
Proof.
  split; [exact index_invariant_empty|]. split.
  - cbv zeta. split; [vm_compute; reflexivity|]. split; [vm_compute; reflexivity|].
    split; [vm_compute; reflexivity|]. split; [vm_compute; reflexivity|].
    intros (idx & _ & Hload & _ & Hperm & _).
    vm_compute in Hload. injection Hload as <-.
    apply Permutation_length in Hperm. vm_compute in Hperm. discriminate.
  - cbv zeta. split; [vm_compute; reflexivity|]. split; [vm_compute; reflexivity|].
    split; [vm_compute; reflexivity|].
    intros (idx & _ & Hload & _ & Hperm & _).
    vm_compute in Hload. injection Hload as <-.
    apply Permutation_length in Hperm. vm_compute in Hperm. discriminate.
Qed.

(** C4, amended.  Index-file invariant, for operations that stay within
    the format.  From a state in which the index file of a repository is
    the sorted text of one entry per slot of its data file, every
    sequence of adds (and, for the cars, renames) whose keys are sound (no
    colon, no line break, no leading whitespace) and whose records fit
    the 500 characters of a slot leaves such a state: the persisted index
    file is the text of [key:position] lines, it is read back as those
    entries, the entries are in ascending order of the key, and their
    positions are exactly the slots [0 .. slot_count - 1] of the data file,
    each once.  This holds for the cars under [add_car] and [update_vin],
    for the models under [add_model] and for the sales under [sell_car],
    whatever the calls return; the empty repository is such a state. *)
Theorem index_file_invariant :
  (forall (ops : list car_op) (fs : FS),
     index_invariant fs -> ops_ok ops fs -> index_invariant (run_ops ops fs))
  /\ (forall (models : list Model.t) (fs : FS),
        repo_invariant models_file models_index_file fs ->
        Forall (fun m => entry_ok (Model.id m) (model_data m)) models ->
        repo_invariant models_file models_index_file (run_add_models models fs))
  /\ (forall (sales : list Sale.t) (fs : FS),
        repo_invariant sales_file sales_index_file fs ->
        Forall (fun s => entry_ok (Sale.sales_number s) (sale_data s)) sales ->
        repo_invariant sales_file sales_index_file (run_sell_cars sales fs))
  /\ (forall fs, index_invariant fs <-> repo_invariant cars_file cars_index_file fs)
  /\ index_invariant empty_fs
  /\ repo_invariant models_file models_index_file empty_fs
  /\ repo_invariant sales_file sales_index_file empty_fs.
Proof.
  split; [|split; [|split; [|split; [|split; [|split]]]]].
  - intros ops. induction ops as [|op ops IH]; intros fs Hinv Hok; [assumption|].
    destruct Hok as [Hop Hrest]. cbn [run_ops fold_left]. apply IH; [|assumption].
    destruct op as [car|vin new_vin]; cbn [run_op op_ok] in *.
    + now apply index_invariant_add.
    + destruct Hop. now apply index_invariant_rename.
  - intros models. induction models as [|m models IH]; intros fs Hinv Hok;
      [assumption|].
    cbn [run_add_models fold_left]. apply IH; [|now apply Forall_inv_tail in Hok].
    apply models_invariant_add; [assumption | now apply Forall_inv in Hok].
  - intros sales. induction sales as [|s sales IH]; intros fs Hinv Hok;
      [assumption|].
    cbn [run_sell_cars fold_left]. apply IH; [|now apply Forall_inv_tail in Hok].
    apply sales_invariant_add; [assumption | now apply Forall_inv in Hok].
  - exact index_invariant_repo.
  - exact index_invariant_empty.
  - apply repo_invariant_empty.
  - apply repo_invariant_empty.
Qed.

Lemma index_file_invariant_witness :
  index_invariant
    (run_ops [OpAdd sample_car; OpAdd other_car;
              OpRename (Car.vin sample_car) (txt "AAA00001")] empty_fs)
  /\ repo_invariant models_file models_index_file
       (run_add_models [sample_model] empty_fs)
  /\ repo_invariant sales_file sales_index_file
       (run_sell_cars [sample_sale] one_car_fs).
Proof.
  destruct index_file_invariant as (Hcars & Hmodels & Hsales & _).
  split; [|split].
  - apply Hcars; [exact index_invariant_empty|].
    cbn [ops_ok op_ok]. unfold key_ok, lacks. decide_ok.
  - apply Hmodels; [apply repo_invariant_empty|].
    constructor; [|constructor]. unfold entry_ok, key_ok, lacks. decide_ok.
  - apply Hsales.
    + exists []. repeat split; try reflexivity; constructor.
    + constructor; [|constructor]. unfold entry_ok, key_ok, lacks. decide_ok.
Defined.
